(** * Gomoku engine: padded board, line precomputation, threat probes, rollouts

    A shallow embedding of [board.py] (class [GoBoard]) and [gomoku3.py]
    (class [Gomoku]), followed by the properties of the engine.

    Python integers are [Z].  The numpy array [self.board] is a [list Z]
    indexed the way numpy indexes it: an index in [0, n) reads that slot, an
    index in [-n, 0) wraps around to [n + i], anything else raises
    [IndexError].  Functions that can raise return a [result]; every
    [while True] loop is run with a budget of iterations and reports
    [OutOfFuel] when the budget is spent. *)

From Stdlib Require Import ZArith Lia QArith_base.
From stdpp Require Import base tactics option list list_numbers.

Local Open Scope Z_scope.

(** ** Exceptions and results *)

Inductive exn : Set :=
  | IndexError
  | AttributeError
  | NameError
  | AssertionError
  | ValueError
  | TypeError
  | ZeroDivisionError.

Inductive result (A : Type) : Type :=
  | Ok (a : A)
  | Raise (e : exn)
  | OutOfFuel.

Arguments Ok {A} a.
Arguments Raise {A} e.
Arguments OutOfFuel {A}.

#[global] Instance result_ret : MRet result := λ A a, Ok a.

#[global] Instance result_bind : MBind result := λ A B f m,
  match m with
  | Ok a => f a
  | Raise e => Raise e
  | OutOfFuel => OutOfFuel
  end.

#[global] Instance result_fmap : FMap result := λ A B f m,
  match m with
  | Ok a => Ok (f a)
  | Raise e => Raise e
  | OutOfFuel => OutOfFuel
  end.

(** [assert cond] *)
Definition assert (cond : bool) : result unit :=
  if cond then Ok tt else Raise AssertionError.

(** A [for] loop whose body can raise and which keeps the elements for which
    the body answers [true]. *)
Fixpoint filterM {A} (f : A → result bool) (l : list A) : result (list A) :=
  match l with
  | [] => Ok []
  | x :: l' =>
      keep ← f x;
      rest ← filterM f l';
      Ok (if keep : bool then x :: rest else rest)
  end.

(** A [for] loop threading an accumulator through a body that can raise. *)
Fixpoint foldlM {A B} (f : B → A → result B) (acc : B) (l : list A) : result B :=
  match l with
  | [] => Ok acc
  | x :: l' => acc' ← f acc x; foldlM f acc' l'
  end.

(** ** Constants and helpers of [board_util] *)

(** Modelled from the spec: the colour constants [EMPTY], [BLACK], [WHITE] and
    [BORDER] of [board_util], a module that is not among the sources.  The
    spec names them as four distinct cell states; [board.py] itself tests a
    cell for emptiness with the literal [0] and computes the other player as
    [WHITE + BLACK - current_player], which is what the values below give. *)
Definition EMPTY : Z := 0.
Definition BLACK : Z := 1.
Definition WHITE : Z := 2.
Definition BORDER : Z := 3.

(** Modelled from the spec: [GoBoardUtil.opponent], the colour negation of
    [board_util]; written as [board.py] writes it in [BlockWin]. *)
Definition opponent (color : Z) : Z := WHITE + BLACK - color.

(** Modelled from the spec: [is_black_white] of [board_util]: BLACK and WHITE
    are the only values legal as a move colour. *)
Definition is_black_white (color : Z) : bool :=
  bool_decide (color = BLACK) || bool_decide (color = WHITE).

(** Python's [range(start, stop, step)] for a positive [step]. *)
Definition range3 (start stop step : Z) : list Z :=
  (λ k, start + k * step) <$> seqZ 0 ((stop - start + step - 1) `div` step).

(** ** The board object *)

(** The attributes of a [GoBoard] object.  [last_move] and [last2_move] hold a
    point or the PASS sentinel ([None]).  The three line lists are attributes
    that [calculate_rows_cols_diags] may leave unset: [None] is an attribute
    the object does not have. *)
Record GoBoard : Type := mkGoBoard {
  size : Z;
  NS : Z;
  WE : Z;
  ko_recapture : option Z;
  last_move : option Z;
  last2_move : option Z;
  current_player : Z;
  maxpoint : Z;
  board : list Z;
  rows : option (list (list Z));
  cols : option (list (list Z));
  diags : option (list (list Z))
}.

Definition set_board (self : GoBoard) (bd : list Z) : GoBoard :=
  mkGoBoard (size self) (NS self) (WE self) (ko_recapture self) (last_move self)
    (last2_move self) (current_player self) (maxpoint self) bd
    (rows self) (cols self) (diags self).

Definition set_lines (self : GoBoard) (rs cs ds : list (list Z)) : GoBoard :=
  mkGoBoard (size self) (NS self) (WE self) (ko_recapture self) (last_move self)
    (last2_move self) (current_player self) (maxpoint self) (board self)
    (Some rs) (Some cs) (Some ds).

(** The bookkeeping both successful branches of [play_move] do. *)
Definition set_played (self : GoBoard) (ko : option Z) (player : Z)
    (point : option Z) : GoBoard :=
  mkGoBoard (size self) (NS self) (WE self) ko point (last_move self) player
    (maxpoint self) (board self) (rows self) (cols self) (diags self).

(** An object on which no attribute has been set yet: what [__init__]
    receives.  [reset] overwrites every field but the line lists. *)
Definition new_object : GoBoard :=
  mkGoBoard 0 0 0 None None None 0 0 [] None None None.

(** numpy indexing of an array of [n] slots. *)
Definition index (n : nat) (i : Z) : option nat :=
  if bool_decide (0 ≤ i < Z.of_nat n) then Some (Z.to_nat i)
  else if bool_decide (- Z.of_nat n ≤ i < 0) then Some (Z.to_nat (Z.of_nat n + i))
  else None.

(** [arr[i]] *)
Definition array_get (arr : list Z) (i : Z) : result Z :=
  match index (length arr) i ≫= (arr !!.) with
  | Some c => Ok c
  | None => Raise IndexError
  end.

(** [arr[i] = v] *)
Definition array_set (arr : list Z) (i v : Z) : result (list Z) :=
  match index (length arr) i with
  | Some k => Ok (<[k:=v]> arr)
  | None => Raise IndexError
  end.

(** [arr[start : stop] = v] for [0 ≤ start]: the slice is clipped to the
    array. *)
Definition slice_fill (arr : list Z) (start stop v : Z) : list Z :=
  list_inserts (Z.to_nat start) (replicate (Z.to_nat (stop - start)) v) arr.

(** Modelled from the spec: [where1d] of [board_util], the extraction of the
    indices at which a boolean mask holds, here the mask [arr == v]; the
    indices come in increasing order. *)
Definition where1d_eq (arr : list Z) (v : Z) : list Z :=
  filter (λ i, arr !! Z.to_nat i = Some v) (seqZ 0 (Z.of_nat (length arr))).

Definition get_color (self : GoBoard) (point : Z) : result Z :=
  array_get (board self) point.

Definition row_start (self : GoBoard) (row : Z) : result Z :=
  _ ← assert (bool_decide (1 ≤ row));
  _ ← assert (bool_decide (row ≤ size self));
  Ok (row * NS self + 1).

Definition _initialize_empty_points (self : GoBoard) (bd : list Z)
    : result (list Z) :=
  foldlM (λ bd row,
            start ← row_start self row;
            Ok (slice_fill bd start (start + size self) EMPTY))
         bd (seqZ 1 (size self)).

(** The budget of the walks over the array.  A walk moves by a fixed non-zero
    stride and every index it reads must lie in [-n, n), so it reads fewer
    than [2n + 1] cells before numpy raises. *)
Definition walk_budget (self : GoBoard) : nat := S (2 * length (board self)).

(** [while self.get_color(pt) == EMPTY: diag.append(pt); pt += step] *)
Fixpoint collect_empty (fuel : nat) (self : GoBoard) (pt step : Z)
    : result (list Z) :=
  match fuel with
  | O => OutOfFuel
  | S fuel' =>
      c ← get_color self pt;
      if bool_decide (c = EMPTY)
      then rest ← collect_empty fuel' self (pt + step) step; Ok (pt :: rest)
      else Ok []
  end.

(** [if len(diag) >= 5: self.diags.append(diag)] *)
Definition keep5 (diag : list Z) : list (list Z) :=
  if bool_decide (5 ≤ Z.of_nat (length diag)) then [diag] else [].

(** The bodies of the four loops of [calculate_rows_cols_diags]: the row and
    the column number [i]; the diagonal towards SE from a point of the first
    row; the diagonals towards SE and NE from a point of the first column;
    the diagonal towards NE from a point of the last row. *)
Definition row_and_col (self : GoBoard) (i : Z) : result (list Z * list Z) :=
  start ← row_start self i;
  let current_row := seqZ start (size self) in
  first ← row_start self 1;
  let start := first + i - 1 in
  last ← row_start self (size self);
  let current_col := range3 start (last + i) (NS self) in
  Ok (current_row, current_col).

Definition diags_from_top (self : GoBoard) (i : Z) : result (list (list Z)) :=
  diag_SE ← collect_empty (walk_budget self) self i (NS self + 1);
  Ok (keep5 diag_SE).

Definition diags_from_left (self : GoBoard) (i : Z) : result (list (list Z)) :=
  diag_SE ← collect_empty (walk_budget self) self i (NS self + 1);
  diag_NE ← collect_empty (walk_budget self) self i (-1 * NS self + 1);
  Ok (keep5 diag_SE ++ keep5 diag_NE).

Definition diags_from_bottom (self : GoBoard) (i : Z) : result (list (list Z)) :=
  diag_NE ← collect_empty (walk_budget self) self i (-1 * NS self + 1);
  Ok (keep5 diag_NE).

Definition calculate_rows_cols_diags (self : GoBoard) : result GoBoard :=
  if bool_decide (size self < 5) then Ok self else
  rc ← mapM (row_and_col self) (seqZ 1 (size self));
  let rows := rc.*1 in
  let cols := rc.*2 in
  start ← row_start self 1;
  d1 ← mapM (diags_from_top self) (seqZ start (size self));
  last ← row_start self (size self);
  d2 ← mapM (diags_from_left self) (range3 (start + NS self) (last + 1) (NS self));
  let start := last + 1 in
  d3 ← mapM (diags_from_bottom self) (seqZ start (size self));
  let diags := concat d1 ++ concat d2 ++ concat d3 in
  _ ← assert (bool_decide (Z.of_nat (length rows) = size self));
  _ ← assert (bool_decide (Z.of_nat (length cols) = size self));
  _ ← assert (bool_decide (Z.of_nat (length diags) = (2 * (size self - 5) + 1) * 2));
  Ok (set_lines self rows cols diags).

(** [reset] overwrites the scalar attributes and the array and leaves the line
    lists to [calculate_rows_cols_diags].  [np.full] refuses a negative
    length. *)
Definition reset (self : GoBoard) (size : Z) : result GoBoard :=
  let maxpoint := size * size + 3 * (size + 1) in
  if bool_decide (maxpoint < 0) then Raise ValueError else
  let self := mkGoBoard size (size + 1) 1 None None None BLACK maxpoint
                (replicate (Z.to_nat maxpoint) BORDER)
                (rows self) (cols self) (diags self) in
  bd ← _initialize_empty_points self (board self);
  calculate_rows_cols_diags (set_board self bd).

(** [play_move(point, color)]; [point] is [None] for PASS.  The answer is
    the boolean the method returns together with the object as the call
    leaves it. *)
Definition play_move (self : GoBoard) (point : option Z) (color : Z)
    : result (bool * GoBoard) :=
  _ ← assert (is_black_white color);
  match point with
  | None => Ok (true, set_played self None (opponent color) None)
  | Some p =>
      c ← array_get (board self) p;
      if bool_decide (c ≠ EMPTY) then Ok (false, self) else
      bd ← array_set (board self) p color;
      Ok (true, set_played (set_board self bd) (ko_recapture self)
                  (opponent color) (Some p))
  end.

(** The loop of [has_five_in_list], from the state [(prev, counter)]. *)
Fixpoint has_five_loop (self : GoBoard) (prev counter : Z) (list : list Z)
    : result Z :=
  match list with
  | [] => Ok EMPTY
  | stone :: rest =>
      c ← get_color self stone;
      let '(counter, prev) :=
        if bool_decide (c = prev) then (counter + 1, prev) else (1, c) in
      if bool_decide (counter = 5) && bool_decide (prev ≠ EMPTY)
      then Ok prev
      else has_five_loop self prev counter rest
  end.

Definition has_five_in_list (self : GoBoard) (list : list Z) : result Z :=
  has_five_loop self BORDER 1 list.

(** One of the three [for] loops of [detect_five_in_a_row]; [next] is what
    follows the loop. *)
Fixpoint scan_lines (self : GoBoard) (lines : list (list Z)) (next : result Z)
    : result Z :=
  match lines with
  | [] => next
  | l :: rest =>
      res ← has_five_in_list self l;
      if bool_decide (res ≠ EMPTY) then Ok res else scan_lines self rest next
  end.

(** Reading an attribute the object does not have. *)
Definition attribute {A} (a : option A) : result A :=
  match a with
  | Some v => Ok v
  | None => Raise AttributeError
  end.

Definition detect_five_in_a_row (self : GoBoard) : result Z :=
  r ← attribute (rows self);
  scan_lines self r
    (c ← attribute (cols self);
     scan_lines self c
       (d ← attribute (diags self);
        scan_lines self d (Ok EMPTY))).

(** ** Directional probes *)

(** One [while True] loop of a probe: step, read the cell, count it when it
    has the colour, stop otherwise.  [turn] is what the loop does to the
    direction flag [d] at a counted cell.  The answer is the count, the flag,
    the colour of the cell the loop stopped at and the index of that cell. *)
Fixpoint probe_loop (fuel : nat) (self : GoBoard) (start step color : Z)
    (turn : Z → Z) (samecolor d : Z) : result (Z * Z * Z * Z) :=
  match fuel with
  | O => OutOfFuel
  | S fuel' =>
      let start := start + step in
      c ← array_get (board self) start;
      if bool_decide (c = color)
      then probe_loop fuel' self start step color turn (samecolor + 1) (turn d)
      else Ok (samecolor, d, c, start)
  end.

(** The body shared by [checkrow], [checkcol], [checkd1] and [checkd2], which
    differ in the stride only. *)
Definition probe (self : GoBoard) (start color step : Z) : result (Z * Z) :=
  checkColor ← array_get (board self) start;
  '(samecolor, _, c, _) ←
    probe_loop (walk_budget self) self start step color id 1 0;
  let space := if bool_decide (c = EMPTY) then 1 else 0 in
  '(samecolor, _, c, _) ←
    probe_loop (walk_budget self) self start (- step) color id samecolor 0;
  let space := if bool_decide (c = EMPTY) then space + 1 else space in
  Ok (samecolor, space).

Definition checkrow (self : GoBoard) (start color : Z) := probe self start color 1.
Definition checkcol (self : GoBoard) (start color : Z) := probe self start color (NS self).
Definition checkd1 (self : GoBoard) (start color : Z) := probe self start color (NS self + 1).
Definition checkd2 (self : GoBoard) (start color : Z) := probe self start color (NS self - 1).

(** The body shared by [checkrow2], [checkcol2], [checkd12] and [checkd22]:
    the first loop sets [d] to 1 at every counted cell, the second turns a 1
    into 0 and anything else into -1; [s1] and [s2] are the empty cells the
    loops stopped at, -1 when the cell is not empty. *)
Definition probe2 (self : GoBoard) (start color step : Z)
    : result (Z * Z * Z * Z * Z) :=
  checkColor ← array_get (board self) start;
  '(samecolor, d, c, p) ←
    probe_loop (walk_budget self) self start step color (λ _, 1) 1 0;
  let '(space, s1) := if bool_decide (c = EMPTY) then (1, p) else (0, -1) in
  '(samecolor, d, c, p) ←
    probe_loop (walk_budget self) self start (- step) color
      (λ d, if bool_decide (d = 1) then 0 else -1) samecolor d;
  let '(space, s2) := if bool_decide (c = EMPTY) then (space + 1, p) else (space, -1) in
  Ok (samecolor, space, d, s1, s2).

Definition checkrow2 (self : GoBoard) (start color : Z) := probe2 self start color 1.
Definition checkcol2 (self : GoBoard) (start color : Z) := probe2 self start color (NS self).
Definition checkd12 (self : GoBoard) (start color : Z) := probe2 self start color (NS self + 1).
Definition checkd22 (self : GoBoard) (start color : Z) := probe2 self start color (NS self - 1).

(** ** Threat classifiers *)

Definition get_empty_points (self : GoBoard) : list Z :=
  where1d_eq (board self) EMPTY.

(** The loop shared by [Win] and [BlockWin]. *)
Definition five_points (self : GoBoard) (color : Z) : result (list Z) :=
  let moves := where1d_eq (board self) EMPTY in
  filterM (λ i,
             '(rowc, rows) ← checkrow self i color;
             '(colc, cols) ← checkcol self i color;
             '(d1c, d1s) ← checkd1 self i color;
             '(d2c, d2s) ← checkd2 self i color;
             Ok (bool_decide (5 ≤ rowc) || bool_decide (5 ≤ colc)
                 || bool_decide (5 ≤ d1c) || bool_decide (5 ≤ d2c)))
          moves.

Definition Win (self : GoBoard) : result (list Z) :=
  five_points self (current_player self).

Definition BlockWin (self : GoBoard) : result (list Z) :=
  five_points self (WHITE + BLACK - current_player self).

Definition OpenFour (self : GoBoard) : result (list Z) :=
  let color := current_player self in
  let moves := where1d_eq (board self) EMPTY in
  filterM (λ i,
             '(rowc, rows) ← checkrow self i color;
             '(colc, cols) ← checkcol self i color;
             '(d1c, d1s) ← checkd1 self i color;
             '(d2c, d2s) ← checkd2 self i color;
             Ok (bool_decide (rowc = 4 ∧ rows = 2)
                 || bool_decide (colc = 4 ∧ cols = 2)
                 || bool_decide (d1c = 4 ∧ d1s = 2)
                 || bool_decide (d2c = 4 ∧ d2s = 2)))
          moves.

(** The one-sided case of [BlockOpenFour] on the columns and the diagonals:
    [if d == 1: if board[i + far] == 0: ...  elif d == -1: if board[i - far]
    == 0: ...], what it appends to [move_list]. *)
Definition one_sided (self : GoBoard) (i d far : Z) : result (list Z) :=
  if bool_decide (d = 1) then
    c ← array_get (board self) (i + far);
    Ok (if bool_decide (c = 0) then [i + far; i] else [])
  else if bool_decide (d = -1) then
    c ← array_get (board self) (i - far);
    Ok (if bool_decide (c = 0) then [i - far; i] else [])
  else Ok [].

(** The one-sided case on the rows: [if rd == 1 and board[i+5] == 0: ...
    elif rd == -1 and board[i-5] == 0: ...]; the second branch appends
    [i + 5]. *)
Definition one_sided_row (self : GoBoard) (i rd : Z) : result (list Z) :=
  if bool_decide (rd = 1) then
    c ← array_get (board self) (i + 5);
    Ok (if bool_decide (c = 0) then [i + 5; i] else [])
  else if bool_decide (rd = -1) then
    c ← array_get (board self) (i - 5);
    Ok (if bool_decide (c = 0) then [i + 5; i] else [])
  else Ok [].

(** What one iteration of the loop of [BlockOpenFour] appends to
    [move_list]. *)
Definition block_open_four_at (self : GoBoard) (color i : Z) : result (list Z) :=
  '(rowc, rows, rd, rs1, rs2) ← checkrow2 self i color;
  '(colc, cols, cd, cs1, cs2) ← checkcol2 self i color;
  '(d1c, d1s, d1, ds1, ds2) ← checkd12 self i color;
  '(d2c, d2s, d2, d21, d22) ← checkd22 self i color;
  a1 ← (if bool_decide (rowc = 4 ∧ rows = 1) then one_sided_row self i rd else Ok []);
  a2 ← (if bool_decide (colc = 4 ∧ cols = 1)
        then one_sided self i cd (5 * NS self) else Ok []);
  a3 ← (if bool_decide (d1c = 4 ∧ d1s = 1)
        then one_sided self i d1 (5 * (NS self + 1)) else Ok []);
  a4 ← (if bool_decide (d2c = 4 ∧ d2s = 1)
        then one_sided self i d2 (5 * (NS self - 1)) else Ok []);
  let b1 := if bool_decide (rowc = 4 ∧ rows = 2) then [i] else [] in
  let b2 := if bool_decide (colc = 4 ∧ cols = 2) then [i] else [] in
  let b3 := if bool_decide (d1c = 4 ∧ d1s = 2) then [i] else [] in
  let b4 := if bool_decide (d2c = 4 ∧ d2s = 2) then [i] else [] in
  let c1 := if bool_decide (rowc = 4 ∧ rows = 2 ∧ rd = 0) then [rs1; rs2] else [] in
  let c2 := if bool_decide (colc = 4 ∧ cols = 2 ∧ cd = 0) then [cs1; cs2] else [] in
  let c3 := if bool_decide (d1c = 4 ∧ d1s = 2 ∧ d1 = 0) then [ds1; ds2] else [] in
  let c4 := if bool_decide (d2c = 4 ∧ d2s = 2 ∧ d2 = 0) then [d21; d22] else [] in
  Ok (a1 ++ a2 ++ a3 ++ a4 ++ b1 ++ b2 ++ b3 ++ b4 ++ c1 ++ c2 ++ c3 ++ c4).

(** [list(set(move_list))]: the points without repetition.  Python fixes no
    order for the elements of a set; the properties below are about
    membership. *)
Definition BlockOpenFour (self : GoBoard) : result (list Z) :=
  let color := WHITE + BLACK - current_player self in
  let moves := where1d_eq (board self) EMPTY in
  move_list ← mapM (block_open_four_at self color) moves;
  Ok (remove_dups (concat move_list)).

(** ** Construction, copies and the simulation engine *)

Inductive policy : Set := random | rule_based.

(** The attributes of a [Gomoku] player the engine reads: [NN], the number of
    trials per candidate, which [__init__] sets to 10. *)
Record Gomoku : Type := mkGomoku { NN : Z }.

Definition Gomoku_init : Gomoku := mkGomoku 10.

(** [wins / NN] on Python integers: true division. *)
Definition true_div (wins n : Z) : result Q :=
  if bool_decide (n = 0) then Raise ZeroDivisionError
  else Ok (Qdiv (inject_Z wins) (inject_Z n)).

(** [max(score)]: the first of the greatest elements. *)
Definition max_score (score : list Q) : result Q :=
  match score with
  | [] => Raise ValueError
  | s :: rest => Ok (foldl (λ m x, if Qle_bool x m then m else x) s rest)
  end.

(** [score.index(m)] *)
Fixpoint score_index (score : list Q) (m : Q) : result nat :=
  match score with
  | [] => Raise ValueError
  | s :: rest => if Qeq_bool s m then Ok O else S <$> score_index rest m
  end.

Section Engine.

(** [MAXSIZE] is a constant of [board_util]; the engine is verified for every
    value of it. *)
Variable MAXSIZE : Z.

(** The random source: [rand k] is the [k]-th number drawn.  A function that
    draws takes the count of the draws made so far and returns the new
    count. *)
Variable rand : nat → nat.

(** [GoBoard(size)] *)
Definition GoBoard_init (size : Z) : result GoBoard :=
  _ ← assert (bool_decide (2 ≤ size ≤ MAXSIZE));
  self ← reset new_object size;
  calculate_rows_cols_diags self.

Definition copy (self : GoBoard) : result GoBoard :=
  b ← GoBoard_init (size self);
  _ ← assert (bool_decide (NS b = NS self));
  _ ← assert (bool_decide (WE b = WE self));
  _ ← assert (bool_decide (maxpoint b = maxpoint self));
  Ok (mkGoBoard (size b) (NS b) (WE b) (ko_recapture self) (last_move self)
        (last2_move self) (current_player self) (maxpoint b) (board self)
        (rows b) (cols b) (diags b)).

Definition is_legal (self : GoBoard) (point : option Z) (color : Z)
    : result bool :=
  board_copy ← copy self;
  '(can_play_move, _) ← play_move board_copy point color;
  Ok can_play_move.

(** [random.choice(moves)] *)
Definition choice (moves : list Z) (k : nat) : result (Z * nat) :=
  match moves !! (rand k `mod` length moves)%nat with
  | Some move => Ok (move, S k)
  | None => Raise IndexError
  end.

(** Modelled from the spec: [GoBoardUtil.generate_random_move] of
    [board_util], the uniform random choice of a legal move: one of the empty
    points, or [None] when no legal move remains. *)
Definition generate_random_move (board : GoBoard) (color : Z) (k : nat)
    : option Z * nat :=
  let moves := get_empty_points board in
  match moves !! (rand k `mod` length moves)%nat with
  | Some move => (Some move, S k)
  | None => (None, k)
  end.

(** [get_order] returns [None] by falling off its end when every list is
    empty. *)
Definition get_order (board : GoBoard) (color : Z) : result (option (list Z)) :=
  move_list ← Win board;
  if bool_decide (move_list ≠ []) then Ok (Some move_list) else
  move_list ← BlockWin board;
  if bool_decide (move_list ≠ []) then Ok (Some move_list) else
  move_list ← OpenFour board;
  if bool_decide (move_list ≠ []) then Ok (Some move_list) else
  move_list ← BlockOpenFour board;
  if bool_decide (move_list ≠ []) then Ok (Some move_list) else
  let move_list := get_empty_points board in
  if bool_decide (move_list ≠ []) then Ok (Some move_list) else
  Ok None.

(** [sim_for_one] binds the chosen point to the name [moves] and then reads
    the name [move], which neither the method nor the module binds: when a
    move was chosen, evaluating the arguments of [play_move] raises
    [NameError], and the recursive call below it is never reached.  The
    answer is the value returned, the board as the call leaves it and the
    count of draws. *)
Definition sim_for_one (board : GoBoard) (color : Z) (k : nat)
    : result (Z * GoBoard * nat) :=
  result ← detect_five_in_a_row board;
  if bool_decide (result = color) then Ok (1, board, k)
  else if bool_decide (result = opponent color) then Ok (-1, board, k)
  else
    let '(moves, k) := generate_random_move board (current_player board) k in
    match moves with
    | None => Ok (0, board, k)
    | Some _ => Raise NameError
    end.

(** [sim_for_one_rule]; [depth] bounds the depth of the recursion. *)
Fixpoint sim_for_one_rule (depth : nat) (board : GoBoard) (color : Z) (k : nat)
    : result (Z * GoBoard * nat) :=
  match depth with
  | O => OutOfFuel
  | S depth' =>
      result ← detect_five_in_a_row board;
      if bool_decide (result = color) then Ok (1, board, k)
      else if bool_decide (result = opponent color) then Ok (-1, board, k)
      else
        moves ← get_order board (current_player board);
        match moves with
        | None => Ok (0, board, k)
        | Some moves =>
            '(move, k) ← choice moves k;
            '(_, board) ← play_move board (Some move) (current_player board);
            sim_for_one_rule depth' board color k
        end
  end.

(** The inner loop of [simulation], [for j in range(self.NN)], on the board
    [temp] the outer loop made: every trial plays [move] on [temp] and runs
    the rollout [sim] on [temp], which the rollout changes in place.  The
    answer is the count of wins, [temp] as the loop leaves it and the count
    of draws. *)
Definition trials (sim : GoBoard → Z → nat → result (Z * GoBoard * nat))
    (n : Z) (temp : GoBoard) (move color : Z) (k : nat)
    : result (Z * GoBoard * nat) :=
  foldlM (λ '(score_i, temp, k) j,
            '(_, temp) ← play_move temp (Some move) color;
            '(win, temp, k) ← sim temp color k;
            Ok (if bool_decide (win = 1) then score_i + 1 else score_i, temp, k))
         (0, temp, k) (seqZ 0 n).

(** The outer loop of [simulation]: the list [score]. *)
Definition scores (sim : GoBoard → Z → nat → result (Z * GoBoard * nat))
    (n : Z) (board : GoBoard) (color : Z) (legal_moves : list Z) (k : nat)
    : result (list Q * nat) :=
  foldlM (λ '(score, k) move,
            temp ← copy board;
            '(wins, _, k) ← trials sim n temp move color k;
            s ← true_div wins n;
            Ok (score ++ [s], k))
         ([], k) legal_moves.

Definition best_move (legal_moves : list Z) (score : list Q) : result Z :=
  m ← max_score score;
  bestIndex ← score_index score m;
  match legal_moves !! bestIndex with
  | Some best => Ok best
  | None => Raise IndexError
  end.

Definition simulation (self : Gomoku) (depth : nat) (board : GoBoard)
    (color : Z) (policy : policy) (k : nat) : result Z :=
  match policy with
  | random =>
      let legal_moves := get_empty_points board in
      '(score, _) ← scores sim_for_one (NN self) board color legal_moves k;
      best_move legal_moves score
  | rule_based =>
      legal_moves ← get_order board color;
      match legal_moves with
      | None => Raise TypeError
      | Some legal_moves =>
          '(score, _) ← scores (sim_for_one_rule depth) (NN self) board color
                          legal_moves k;
          best_move legal_moves score
      end
  end.

End Engine.

(** ** Vocabulary of the properties *)

(** Modelled from the spec: [coord_to_point] of [board_util], which [pt]
    calls: the point of the 1-indexed [(row, col)] is [row·NS + col]. *)
Definition pt (self : GoBoard) (row col : Z) : Z := row * NS self + col.

(** The coordinates of the playable points of a board of size [s]. *)
Definition on_board (s row col : Z) : Prop := 1 ≤ row ≤ s ∧ 1 ≤ col ≤ s.

#[local] Instance on_board_dec (s row col : Z) : Decision (on_board s row col).
Proof. unfold on_board. apply _. Defined.

(** A playable point. *)
Definition playable (self : GoBoard) (p : Z) : Prop :=
  ∃ row col, on_board (size self) row col ∧ p = pt self row col.

(** The padding invariant: the array has [size² + 3·(size + 1)] slots, which
    are the points of the coordinates [0 .. size + 1] in both directions, and
    a slot holds BORDER exactly when its coordinates are not playable. *)
Record padded (self : GoBoard) : Prop := mkPadded {
  padded_size : 0 ≤ size self;
  padded_NS : NS self = size self + 1;
  padded_maxpoint : maxpoint self = size self * size self + 3 * (size self + 1);
  padded_length : Z.of_nat (length (board self)) = maxpoint self;
  padded_cell : ∀ row col,
    0 ≤ row ≤ size self + 1 → 0 ≤ col ≤ size self + 1 →
    ∃ x, board self !! Z.to_nat (pt self row col) = Some x
         ∧ (x = BORDER ↔ ¬ on_board (size self) row col)
}.

(** A board on which no stone has been played. *)
Definition all_empty (self : GoBoard) : Prop :=
  ∀ row col, on_board (size self) row col →
    board self !! Z.to_nat (pt self row col) = Some EMPTY.

(** The [n] points met from [(row, col)] by steps of [(dr, dc)]. *)
Definition line_points (self : GoBoard) (row col dr dc : Z) (n : nat) : list Z :=
  (λ j, pt self (row + j * dr) (col + j * dc)) <$> seqZ 0 (Z.of_nat n).

(** The line lists a board carries: the three lists with their counts when
    the size is 5 or more, every point of a line being playable; no list at
    all when the size is below 5. *)
Definition lines_ok (self : GoBoard) : Prop :=
  if decide (5 ≤ size self) then
    ∃ rs cs ds,
      rows self = Some rs ∧ cols self = Some cs ∧ diags self = Some ds
      ∧ Z.of_nat (length rs) = size self
      ∧ Z.of_nat (length cs) = size self
      ∧ Z.of_nat (length ds) = (2 * (size self - 5) + 1) * 2
      ∧ Forall (Forall (playable self)) (rs ++ cs ++ ds)
  else rows self = None ∧ cols self = None ∧ diags self = None.

(** Every playable cell holds EMPTY or a stone. *)
Definition stones_only (self : GoBoard) : Prop :=
  ∀ row col x, on_board (size self) row col →
    board self !! Z.to_nat (pt self row col) = Some x →
    x = EMPTY ∨ x = BLACK ∨ x = WHITE.

(** The boards the program can hold: a board comes from the constructor and
    changes through calls of [play_move] only. *)
Inductive reachable (MAXSIZE : Z) : GoBoard → Prop :=
  | reachable_init (size : Z) (b : GoBoard) :
      GoBoard_init MAXSIZE size = Ok b → reachable MAXSIZE b
  | reachable_play (b b' : GoBoard) (point : option Z) (color : Z) (ok : bool) :
      reachable MAXSIZE b →
      play_move b point color = Ok (ok, b') →
      reachable MAXSIZE b'.

(** The counts of the line lists: [size] rows, [size] columns and
    [(2·(size − 5) + 1)·2] diagonals from size 5 on, no list below. *)
Definition line_counts (self : GoBoard) : Prop :=
  if decide (5 ≤ size self) then
    ∃ rs cs ds,
      rows self = Some rs ∧ cols self = Some cs ∧ diags self = Some ds
      ∧ Z.of_nat (length rs) = size self
      ∧ Z.of_nat (length cs) = size self
      ∧ Z.of_nat (length ds) = (2 * (size self - 5) + 1) * 2
  else rows self = None ∧ cols self = None ∧ diags self = None.

(** The eight strides of the probes: the two senses of the row, the column
    and the two diagonals. *)
Definition strides (self : GoBoard) : list Z :=
  [1; -1; NS self; - NS self; NS self + 1; - (NS self + 1);
   NS self - 1; - (NS self - 1)].

(** The number of steps from [(row, col)] in the direction [(dr, dc)] to the
    first point off the board. *)
Definition room (s dr dc row col : Z) : Z :=
  Z.min (if bool_decide (dr = 1) then s + 1 - row
         else if bool_decide (dr = -1) then row else s + 1)
        (if bool_decide (dc = 1) then s + 1 - col
         else if bool_decide (dc = -1) then col else s + 1).

(** The content of a point. *)
Definition cell (self : GoBoard) (p : Z) : Z :=
  default BORDER (board self !! Z.to_nat p).

(** The contents of the points of a line, in the order of the line. *)
Definition colors (self : GoBoard) (line : list Z) : list Z := cell self <$> line.

(** The five cells from the head of [cs] on are five stones of one colour. *)
Definition five_here (cs : list Z) : bool :=
  match cs with
  | [] => false
  | a :: _ => bool_decide (a ≠ EMPTY ∧ take 5 cs = replicate 5 a)
  end.

(** The winner of a line as the spec words it: the colour of the first five
    consecutive cells that hold stones of one colour, EMPTY when the line
    has no such five. *)
Fixpoint first_streak (cs : list Z) : Z :=
  match cs with
  | [] => EMPTY
  | a :: rest => if five_here cs then a else first_streak rest
  end.

(** The first answer that is not EMPTY, EMPTY when there is none. *)
Fixpoint first_nonempty (results : list Z) : Z :=
  match results with
  | [] => EMPTY
  | r :: rest => if bool_decide (r ≠ EMPTY) then r else first_nonempty rest
  end.

(** The winner of a board as the spec words it: the winner of the first
    line, in the order rows, columns, diagonals, that has one. *)
Definition first_five (self : GoBoard) (lines : list (list Z)) : Z :=
  first_nonempty ((λ line, first_streak (colors self line)) <$> lines).

(** Playing a sequence of moves. *)
Definition play_moves (self : GoBoard) (moves : list (option Z * Z))
    : result GoBoard :=
  foldlM (λ b '(point, color), '(_, b) ← play_move b point color; Ok b) self moves.

(** The object a computation returned. *)
Definition the (r : result GoBoard) : GoBoard :=
  match r with
  | Ok b => b
  | _ => new_object
  end.

(** ** Scenarios *)

(** A 5×5 board on which BLACK alone has played, the five points of the
    first row. *)
Definition black_row_5 : GoBoard :=
  the (b ← GoBoard_init 25 5;
       play_moves b [(Some 7, BLACK); (Some 8, BLACK); (Some 9, BLACK);
                     (Some 10, BLACK); (Some 11, BLACK)]).

(** The 5×5 board as the constructor returns it. *)
Definition empty_5 : GoBoard := the (GoBoard_init 25 5).

(** The 9×9 board whose only stones are BLACK at the columns 3, 4 and 5 of
    row 5, with BLACK to move (WHITE has passed). *)
Definition black_three_9 : GoBoard :=
  the (b ← GoBoard_init 25 9;
       play_moves b [(Some 53, BLACK); (Some 54, BLACK); (Some 55, BLACK);
                     (None, WHITE)]).

(** A 7×7 board whose only stones are WHITE at the columns 4, 5 and 6 of
    row 4, with BLACK to move: the empty point [39], column 7 of that row,
    closes a run of four that lies on its left. *)
Definition white_row_7 : GoBoard :=
  the (b ← GoBoard_init 25 7;
       play_moves b [(Some 36, WHITE); (Some 37, WHITE); (Some 38, WHITE)]).

(** The same board with a BLACK stone on [44], five points after [39]. *)
Definition white_row_7_blocked : GoBoard :=
  the (b ← GoBoard_init 25 7;
       play_moves b [(Some 44, BLACK); (Some 36, WHITE); (Some 37, WHITE);
                     (Some 38, WHITE)]).

(** A 7×7 board whose only stones are WHITE at the rows 5, 6 and 7 of
    column 1, with BLACK to move. *)
Definition white_column_7 : GoBoard :=
  the (b ← GoBoard_init 25 7;
       play_moves b [(Some 41, WHITE); (Some 49, WHITE); (Some 57, WHITE)]).

(** A random source, and the one that always draws 1. *)
Definition some_draws : nat → nat := λ k, (k * 7 + 3)%nat.
Definition always_1 : nat → nat := λ _, 1%nat.

(** The board a trial of the candidate [7] on [empty_5] has to start from: a
    copy of the board with the candidate played. *)
Definition trial_start : GoBoard :=
  the (temp ← copy 25 empty_5; play_moves temp [(Some 7, BLACK)]).

(** What is left of the array in the sense of the stride. *)
Definition ahead (n : nat) (step pos : Z) : Z :=
  if bool_decide (0 < step) then Z.of_nat n - pos else pos + Z.of_nat n + 1.

(** What every board the program can hold satisfies. *)
Record invariant (MAXSIZE : Z) (self : GoBoard) : Prop := mkInvariant {
  inv_size : 2 ≤ size self ≤ MAXSIZE;
  inv_padded : padded self;
  inv_stones : stones_only self;
  inv_lines : lines_ok self
}.

(** Membership in a list written out. *)
Ltac in_list := rewrite ?elem_of_cons; auto 10.

(** ** The remaining methods of [GoBoard] *)

Definition get_color_points (self : GoBoard) (color : Z) : list Z :=
  where1d_eq (board self) color.

Definition _neighbors (self : GoBoard) (point : Z) : list Z :=
  [point - 1; point + 1; point - NS self; point + NS self].

Definition _diag_neighbors (self : GoBoard) (point : Z) : list Z :=
  [point - NS self - 1; point - NS self + 1;
   point + NS self - 1; point + NS self + 1].

Definition neighbors_of_color (self : GoBoard) (point color : Z)
    : result (list Z) :=
  filterM (λ nb, c ← get_color self nb; Ok (bool_decide (c = color)))
          (_neighbors self point).

(** The loop of [_is_surrounded], which returns at the first neighbour that
    is neither BORDER nor of the colour. *)
Fixpoint surrounded_loop (self : GoBoard) (color : Z) (nbs : list Z)
    : result bool :=
  match nbs with
  | [] => Ok true
  | nb :: rest =>
      nb_color ← array_get (board self) nb;
      if bool_decide (nb_color ≠ BORDER) && bool_decide (nb_color ≠ color)
      then Ok false
      else surrounded_loop self color rest
  end.

Definition _is_surrounded (self : GoBoard) (point color : Z) : result bool :=
  surrounded_loop self color (_neighbors self point).

Definition is_eye (self : GoBoard) (point color : Z) : result bool :=
  surrounded ← _is_surrounded self point color;
  if negb surrounded then Ok false else
  let opp_color := opponent color in
  '(false_count, at_edge) ←
    foldlM (λ '(false_count, at_edge) d,
              c ← array_get (board self) d;
              if bool_decide (c = BORDER) then Ok (false_count, 1)
              else if bool_decide (c = opp_color) then Ok (false_count + 1, at_edge)
              else Ok (false_count, at_edge))
           (0, 0) (_diag_neighbors self point);
  Ok (bool_decide (false_count ≤ 1 - at_edge)).


(** The playable points of a board, row after row. *)
Definition board_points (self : GoBoard) : list Z :=
  row ← seqZ 1 (size self); (λ col, pt self row col) <$> seqZ 1 (size self).


(** [black_row_5] after WHITE has answered on the first point of the second
    row. *)
Definition black_row_5_answered : GoBoard :=
  the (play_moves black_row_5 [(Some 13, WHITE)]).


(** The strides of the four probes: row, column and the two diagonals. *)
Definition axes (self : GoBoard) : list Z :=
  [1; NS self; NS self + 1; NS self - 1].

(** What a probe at [i] has to answer: the run is the point itself with the
    [n1] cells of the colour that follow it and the [n2] that precede it
    along the stride, up to the first cells [e1] and [e2] of another content;
    the space is the number of these two cells that are EMPTY. *)
Definition run_and_space (self : GoBoard) (i color step : Z)
    (answer : result (Z * Z)) : Prop :=
  ∃ (n1 n2 : nat) (e1 e2 : Z),
    answer = Ok (1 + Z.of_nat n1 + Z.of_nat n2,
                 (if bool_decide (e1 = EMPTY) then 1 else 0)
                 + (if bool_decide (e2 = EMPTY) then 1 else 0))
    ∧ (∀ j, 1 ≤ j ≤ Z.of_nat n1 → get_color self (i + j * step) = Ok color)
    ∧ (∀ j, 1 ≤ j ≤ Z.of_nat n2 → get_color self (i - j * step) = Ok color)
    ∧ get_color self (i + (Z.of_nat n1 + 1) * step) = Ok e1 ∧ e1 ≠ color
    ∧ get_color self (i - (Z.of_nat n2 + 1) * step) = Ok e2 ∧ e2 ≠ color
    ∧ 1 + Z.of_nat n1 + Z.of_nat n2 ≤ size self.






(** What a probe of the second family at [i] has to answer: the run and the
    space of [run_and_space], which the probe of the first family reports as
    well; the flag, which is 1 when all the stones of the run lie ahead of
    [i], 0 when the run is [i] alone or has stones ahead and exactly one
    behind, and -1 otherwise; and the two cells that end the run, each given
    by its index when it is EMPTY and by -1 when it is not. *)
Definition run_and_ends (self : GoBoard) (i color step : Z)
    (answer : result (Z * Z * Z * Z * Z)) : Prop :=
  ∃ (n1 n2 : nat) (e1 e2 d : Z),
    let run := 1 + Z.of_nat n1 + Z.of_nat n2 in
    let space := (if bool_decide (e1 = EMPTY) then 1 else 0)
                 + (if bool_decide (e2 = EMPTY) then 1 else 0) in
    answer = Ok (run, space, d,
                 if bool_decide (e1 = EMPTY) then i + (Z.of_nat n1 + 1) * step else -1,
                 if bool_decide (e2 = EMPTY) then i - (Z.of_nat n2 + 1) * step else -1)
    ∧ probe self i color step = Ok (run, space)
    ∧ (∀ j, 1 ≤ j ≤ Z.of_nat n1 → get_color self (i + j * step) = Ok color)
    ∧ (∀ j, 1 ≤ j ≤ Z.of_nat n2 → get_color self (i - j * step) = Ok color)
    ∧ get_color self (i + (Z.of_nat n1 + 1) * step) = Ok e1 ∧ e1 ≠ color
    ∧ get_color self (i - (Z.of_nat n2 + 1) * step) = Ok e2 ∧ e2 ≠ color
    ∧ (d = 1 ↔ (0 < n1)%nat ∧ n2 = 0%nat)
    ∧ (d = 0 ↔ (n1 = 0%nat ∧ n2 = 0%nat) ∨ ((0 < n1)%nat ∧ n2 = 1%nat))
    ∧ (d = -1 ↔ (n1 = 0%nat ∧ (0 < n2)%nat) ∨ (1 < n2)%nat).


(** ** The flood fill and the liberties *)

(** [marker[i]] and [marker[i] = v] on an array of booleans. *)
Definition flag_get (marker : list bool) (i : Z) : result bool :=
  match index (length marker) i ≫= (marker !!.) with
  | Some m => Ok m
  | None => Raise IndexError
  end.

Definition flag_set (marker : list bool) (i : Z) (v : bool) : result (list bool) :=
  match index (length marker) i with
  | Some k => Ok (<[k:=v]> marker)
  | None => Raise IndexError
  end.

(** Modelled from the spec: [where1d] of [board_util], the extraction of the
    indices at which a boolean mask holds, in increasing order. *)
Definition where1d (mask : list bool) : list Z :=
  filter (λ i, mask !! Z.to_nat i = Some true) (seqZ 0 (Z.of_nat (length mask))).

(** The loop [for nb in neighbors] of [connected_component].  The stack is a
    list whose head is the top: [append] is a cons and [pop] takes the head. *)
Definition mark_neighbors (marker : list bool) (pointstack neighbors : list Z)
    : result (list bool * list Z) :=
  foldlM (λ '(marker, pointstack) nb,
            m ← flag_get marker nb;
            if m : bool then Ok (marker, pointstack)
            else marker ← flag_set marker nb true; Ok (marker, nb :: pointstack))
         (marker, pointstack) neighbors.

(** [while pointstack: ...] *)
Fixpoint fill (fuel : nat) (self : GoBoard) (color : Z) (marker : list bool)
    (pointstack : list Z) : result (list bool) :=
  match fuel with
  | O => OutOfFuel
  | S fuel' =>
      match pointstack with
      | [] => Ok marker
      | p :: pointstack =>
          neighbors ← neighbors_of_color self p color;
          '(marker, pointstack) ← mark_neighbors marker pointstack neighbors;
          fill fuel' self color marker pointstack
      end
  end.

(** The budget of the flood fill.  A point enters the stack when its marker
    is set, so the loop runs at most once for every slot of the marker, once
    more to find the stack empty. *)
Definition fill_budget (self : GoBoard) : nat := S (2 * Z.to_nat (maxpoint self)).

Section Legacy.

(** [is_black_white_empty] is a function of [board_util], which is not among
    the sources; the flood fill is verified for every such function. *)
Variable is_black_white_empty : Z → bool.

Definition connected_component (self : GoBoard) (point : Z) : result (list bool) :=
  if bool_decide (maxpoint self < 0) then Raise ValueError else
  let marker := replicate (Z.to_nat (maxpoint self)) false in
  let pointstack := [point] in
  color ← get_color self point;
  _ ← assert (is_black_white_empty color);
  marker ← flag_set marker point true;
  fill (fill_budget self) self color marker pointstack.

Definition _block_of (self : GoBoard) (stone : Z) : result (list bool) :=
  color ← get_color self stone;
  _ ← assert (is_black_white color);
  connected_component self stone.

End Legacy.

(** The loop of [_has_liberty], which returns at the first stone with an
    empty neighbour. *)
Fixpoint liberty_loop (self : GoBoard) (stones : list Z) : result bool :=
  match stones with
  | [] => Ok false
  | stone :: rest =>
      empty_nbs ← neighbors_of_color self stone EMPTY;
      if bool_decide (empty_nbs ≠ []) then Ok true else liberty_loop self rest
  end.

Definition _has_liberty (self : GoBoard) (block : list bool) : result bool :=
  liberty_loop self (where1d block).

Section Capture.

Variable is_black_white_empty : Z → bool.

(** [self.board[captures] = EMPTY] writes EMPTY at every index of the list.
    The answer is [single_capture] together with the object as the call
    leaves it. *)
Definition _detect_and_process_capture (self : GoBoard) (nb_point : Z)
    : result (option Z * GoBoard) :=
  let single_capture := None in
  opp_block ← _block_of is_black_white_empty self nb_point;
  liberty ← _has_liberty self opp_block;
  if negb liberty then
    let captures := where1d opp_block in
    bd ← foldlM (λ bd i, array_set bd i EMPTY) (board self) captures;
    let self := set_board self bd in
    let single_capture :=
      if bool_decide (length captures = 1%nat) then Some nb_point
      else single_capture in
    Ok (single_capture, self)
  else Ok (single_capture, self).

End Capture.

(** The marker slots that are not set. *)
Definition unmarked (marker : list bool) : nat :=
  length (filter (λ m : bool, m = false) marker).

(** The points joined to [p] by a chain of neighbours that all hold
    [color]. *)
Inductive connected (self : GoBoard) (color p : Z) : Z → Prop :=
  | connected_here : connected self color p p
  | connected_next (q r : Z) :
      connected self color p q →
      r ∈ _neighbors self q →
      get_color self r = Ok color →
      connected self color p r.

(** The colour test of the flood fill as the name of the source function
    reads. *)
Definition black_white_or_empty (color : Z) : bool :=
  bool_decide (color = BLACK) || bool_decide (color = WHITE)
  || bool_decide (color = EMPTY).


(** A 5×5 board with a WHITE stone in the corner [7] and BLACK stones on its
    two neighbours [8] and [13]. *)
Definition white_corner_5 : GoBoard :=
  the (b ← GoBoard_init 25 5;
       play_moves b [(Some 7, WHITE); (Some 8, BLACK); (Some 13, BLACK)]).


(** * Properties *)

(** ** The result monad *)

Lemma mapM_Ok {A B} (f : A → result B) (g : A → B) (l : list A) :
  (∀ x, x ∈ l → f x = Ok (g x)) → mapM f l = Ok (g <$> l).
Proof.
  induction l as [|x l IH]; intros Hf; [done|].
  cbn. rewrite (Hf x) by left. cbn.
  rewrite IH; [done|]. intros y Hy. apply Hf. by right.
Qed.

Lemma assert_true (cond : bool) : cond = true → assert cond = Ok tt.
Proof. by intros ->. Qed.

(** ** Array accesses *)

Lemma index_in_range (n : nat) (i : Z) :
  0 ≤ i < Z.of_nat n → index n i = Some (Z.to_nat i).
Proof. intros H. unfold index. by rewrite bool_decide_eq_true_2. Qed.

Lemma array_get_Ok (arr : list Z) (i x : Z) :
  0 ≤ i → arr !! Z.to_nat i = Some x → array_get arr i = Ok x.
Proof.
  intros Hi Hx. unfold array_get.
  apply lookup_lt_Some in Hx as Hlt.
  rewrite index_in_range by lia. cbn. by rewrite Hx.
Qed.

Lemma array_get_wrap (arr : list Z) (i x : Z) :
  array_get arr i = Ok x →
  ∃ k, index (length arr) i = Some k ∧ arr !! k = Some x.
Proof.
  unfold array_get. destruct (index (length arr) i) as [k|]; cbn; [|done].
  destruct (arr !! k) eqn:E; [|done]. intros [= ->]. eauto.
Qed.


(** ** The budget of the walks *)

Lemma array_get_range (arr : list Z) (i x : Z) :
  array_get arr i = Ok x → - Z.of_nat (length arr) ≤ i < Z.of_nat (length arr).
Proof.
  unfold array_get, index. repeat case_bool_decide; cbn; try done; lia.
Qed.

Lemma array_get_fuel (arr : list Z) (i : Z) : array_get arr i ≠ OutOfFuel.
Proof. unfold array_get. by destruct (index _ _ ≫= _). Qed.

Lemma ahead_budget (self : GoBoard) (step pos x : Z) :
  array_get (board self) pos = Ok x →
  ahead (length (board self)) step pos < Z.of_nat (walk_budget self).
Proof.
  intros Hx%array_get_range. unfold ahead, walk_budget. case_bool_decide; lia.
Qed.

Lemma probe_loop_fuel (self : GoBoard) (step color : Z) (turn : Z → Z) :
  step ≠ 0 →
  ∀ (fuel : nat) (start samecolor d : Z),
    (1 ≤ fuel)%nat →
    (∀ x, array_get (board self) (start + step) = Ok x →
          ahead (length (board self)) step (start + step) < Z.of_nat fuel) →
    probe_loop fuel self start step color turn samecolor d ≠ OutOfFuel.
Proof.
  intros Hstep. induction fuel as [|fuel IH]; intros start samecolor d H1 Hfuel; [lia|].
  cbn [probe_loop].
  destruct (array_get (board self) (start + step)) as [x| |] eqn:Hget;
    cbn [mbind result_bind]; [|done|by apply array_get_fuel in Hget].
  case_bool_decide; [|done].
  specialize (Hfuel x eq_refl). pose proof (array_get_range _ _ _ Hget) as Hr.
  apply IH.
  - unfold ahead in Hfuel. case_bool_decide; lia.
  - intros y Hy%array_get_range. unfold ahead in *. case_bool_decide; lia.
Qed.

(** The budget [walk_budget] never ends a walk of a probe: a walk ends at a
    cell of another content or with the [IndexError] of numpy. *)
Lemma probe_loop_budget (self : GoBoard) (start step color : Z) (turn : Z → Z)
    (samecolor d : Z) :
  step ≠ 0 →
  probe_loop (walk_budget self) self start step color turn samecolor d ≠ OutOfFuel.
Proof.
  intros Hstep. apply probe_loop_fuel; [done|unfold walk_budget; lia|].
  intros x Hx. by eapply ahead_budget.
Qed.

Lemma collect_empty_fuel (self : GoBoard) (step : Z) :
  step ≠ 0 →
  ∀ (fuel : nat) (pt : Z),
    (1 ≤ fuel)%nat →
    (∀ x, array_get (board self) pt = Ok x →
          ahead (length (board self)) step pt < Z.of_nat fuel) →
    collect_empty fuel self pt step ≠ OutOfFuel.
Proof.
  intros Hstep. induction fuel as [|fuel IH]; intros pt H1 Hfuel; [lia|].
  cbn [collect_empty]. unfold get_color.
  destruct (array_get (board self) pt) as [x| |] eqn:Hget;
    cbn [mbind result_bind]; [|done|by apply array_get_fuel in Hget].
  case_bool_decide; [|done].
  specialize (Hfuel x eq_refl). pose proof (array_get_range _ _ _ Hget) as Hr.
  assert (collect_empty fuel self (pt + step) step ≠ OutOfFuel) as Hrest.
  { apply IH.
    - unfold ahead in Hfuel. case_bool_decide; lia.
    - intros y Hy%array_get_range. unfold ahead in *. case_bool_decide; lia. }
  by destruct (collect_empty fuel self (pt + step) step).
Qed.

(** Nor does it end the walk of a diagonal. *)
Lemma collect_empty_budget (self : GoBoard) (pt step : Z) :
  step ≠ 0 → collect_empty (walk_budget self) self pt step ≠ OutOfFuel.
Proof.
  intros Hstep. apply collect_empty_fuel; [done|unfold walk_budget; lia|].
  intros x Hx. by eapply ahead_budget.
Qed.

(** ** The padded array of a fresh board *)

Lemma foldlM_snoc {A B} (f : B → A → result B) (acc : B) (l : list A) (x : A) :
  foldlM f acc (l ++ [x]) = foldlM f acc l ≫= λ acc', f acc' x.
Proof.
  revert acc. induction l as [|y l IH]; intros acc; cbn.
  - by destruct (f acc x).
  - destruct (f acc y); cbn; [apply IH|done..].
Qed.

Lemma row_start_Ok (self : GoBoard) (row : Z) :
  1 ≤ row ≤ size self → row_start self row = Ok (row * NS self + 1).
Proof.
  intros H. unfold row_start.
  rewrite !assert_true by (apply bool_decide_eq_true_2; lia). done.
Qed.

(** After the rows [1 .. j] have been filled, the slots of these rows hold
    EMPTY and every other slot still holds BORDER. *)
Lemma initialize_rows (self : GoBoard) (m : nat) (j : nat) :
  NS self = size self + 1 →
  Z.of_nat m = size self * size self + 3 * (size self + 1) →
  Z.of_nat j ≤ size self →
  ∃ bd, foldlM (λ bd row,
                  start ← row_start self row;
                  Ok (slice_fill bd start (start + size self) EMPTY))
               (replicate m BORDER) (seqZ 1 (Z.of_nat j)) = Ok bd
        ∧ length bd = m
        ∧ ∀ r c, 0 ≤ r → 0 ≤ c ≤ size self → r * NS self + c < Z.of_nat m →
            bd !! Z.to_nat (r * NS self + c)
            = Some (if bool_decide (1 ≤ r ≤ Z.of_nat j ∧ 1 ≤ c) then EMPTY else BORDER).
Proof.
  intros HNS Hm. induction j as [|j IH]; intros Hj.
  - exists (replicate m BORDER). split_and!; [done|by rewrite length_replicate|].
    intros r c Hr Hc Hlt. rewrite lookup_replicate_2 by lia.
    by rewrite bool_decide_eq_false_2 by lia.
  - destruct IH as (bd & Hfold & Hlen & Hbd); [lia|].
    rewrite seqZ_S, foldlM_snoc, Hfold. cbn.
    rewrite row_start_Ok by lia. cbn.
    eexists. split_and!; [done| |].
    { unfold slice_fill. by rewrite length_inserts. }
    intros r c Hr Hc Hlt. unfold slice_fill.
    set (s := size self) in *. rewrite HNS in *.
    replace ((1 + Z.of_nat j) * (s + 1) + 1 + s - ((1 + Z.of_nat j) * (s + 1) + 1))
      with s by lia.
    assert (0 ≤ s) as Hs by lia.
    assert (0 ≤ r * (s + 1) + c) as Hpos by nia.
    destruct (decide (r < 1 + Z.of_nat j ∨ (r = 1 + Z.of_nat j ∧ c = 0)))
      as [Hlow|Hnlow].
    + assert (r * (s + 1) + c < (1 + Z.of_nat j) * (s + 1) + 1) by nia.
      rewrite list_lookup_inserts_lt by lia.
      rewrite Hbd by lia. do 2 case_bool_decide; try done; lia.
    + destruct (decide (r = 1 + Z.of_nat j)) as [->|Hne].
      * rewrite list_lookup_inserts by (rewrite ?length_replicate; lia).
        rewrite lookup_replicate_2 by lia.
        by rewrite bool_decide_eq_true_2 by lia.
      * assert ((1 + Z.of_nat j) * (s + 1) + 1 + s ≤ r * (s + 1) + c) by nia.
        rewrite list_lookup_inserts_ge by (rewrite ?length_replicate; lia).
        rewrite Hbd by lia. do 2 case_bool_decide; try done; lia.
Qed.

Lemma pt_nonneg (self : GoBoard) (row col : Z) :
  padded self → 0 ≤ row → 0 ≤ col → 0 ≤ pt self row col.
Proof.
  intros [Hs HNS _ _ _] Hr Hc. unfold pt. rewrite HNS. nia.
Qed.

Lemma pt_lt_maxpoint (self : GoBoard) (row col : Z) :
  padded self → row ≤ size self + 1 → col ≤ size self + 1 →
  pt self row col < maxpoint self.
Proof.
  intros [Hs HNS Hm _ _] Hr Hc. unfold pt. rewrite HNS, Hm. nia.
Qed.

Lemma pt_step (self : GoBoard) (row col dr dc : Z) :
  pt self row col + (dr * NS self + dc) = pt self (row + dr) (col + dc).
Proof. unfold pt. ring. Qed.

(** Reading the cell of a pair of coordinates of the padded array never
    raises. *)
Lemma get_color_pt (self : GoBoard) (row col x : Z) :
  padded self → 0 ≤ row → 0 ≤ col →
  board self !! Z.to_nat (pt self row col) = Some x →
  array_get (board self) (pt self row col) = Ok x.
Proof. intros Hp Hr Hc Hx. apply array_get_Ok; [by apply pt_nonneg|done]. Qed.

Lemma get_color_border (self : GoBoard) (row col : Z) :
  padded self →
  0 ≤ row ≤ size self + 1 → 0 ≤ col ≤ size self + 1 →
  ¬ on_board (size self) row col →
  array_get (board self) (pt self row col) = Ok BORDER.
Proof.
  intros Hp Hr Hc Hoff.
  destruct (padded_cell _ Hp row col Hr Hc) as (x & Hx & Hb).
  apply get_color_pt; [done|lia..|]. rewrite Hx. f_equal. by apply Hb.
Qed.

Lemma line_points_S (self : GoBoard) (row col dr dc : Z) (n : nat) :
  line_points self row col dr dc (S n)
  = pt self row col :: line_points self (row + dr) (col + dc) dr dc n.
Proof.
  unfold line_points. rewrite seqZ_cons by lia. cbn.
  f_equal; [f_equal; lia|].
  replace (Z.pred (Z.of_nat (S n))) with (Z.of_nat n) by lia.
  change (Z.succ 0) with (1 + 0). rewrite <- fmap_add_seqZ, <- list_fmap_compose.
  apply list_fmap_ext. intros _ j _. cbn. f_equal; lia.
Qed.

Lemma length_line_points (self : GoBoard) (row col dr dc : Z) (n : nat) :
  length (line_points self row col dr dc n) = n.
Proof. unfold line_points. rewrite length_fmap, length_seqZ. lia. Qed.

(** On a board without stones the walk of a diagonal collects the points up
    to the first one that is off the board. *)
Lemma collect_empty_line (self : GoBoard) (dr dc : Z) (n : nat) :
  padded self → all_empty self →
  ∀ (fuel : nat) (row col : Z),
    (n < fuel)%nat →
    (∀ j, 0 ≤ j < Z.of_nat n → on_board (size self) (row + j * dr) (col + j * dc)) →
    0 ≤ row + Z.of_nat n * dr ≤ size self + 1 →
    0 ≤ col + Z.of_nat n * dc ≤ size self + 1 →
    ¬ on_board (size self) (row + Z.of_nat n * dr) (col + Z.of_nat n * dc) →
    collect_empty fuel self (pt self row col) (dr * NS self + dc)
    = Ok (line_points self row col dr dc n).
Proof.
  intros Hp He. induction n as [|n IH]; intros fuel row col Hfuel Hon Hr Hc Hoff.
  - destruct fuel as [|fuel]; [lia|]. cbn. unfold get_color.
    change (Z.of_nat 0) with 0 in *.
    rewrite get_color_border; [done|done|lia..|].
    intros [? ?]. apply Hoff. unfold on_board. lia.
  - destruct fuel as [|fuel]; [lia|]. cbn [collect_empty]. unfold get_color.
    assert (on_board (size self) row col) as Hrc.
    { specialize (Hon 0). rewrite !Z.mul_0_l, !Z.add_0_r in Hon. apply Hon. lia. }
    rewrite (get_color_pt _ _ _ EMPTY); [|done|unfold on_board in Hrc; lia..|by apply He].
    cbn. rewrite pt_step, (IH fuel); [by rewrite line_points_S|lia| | | |].
    + intros j Hj. specialize (Hon (j + 1)).
      replace (row + dr + j * dr) with (row + (j + 1) * dr) by lia.
      replace (col + dc + j * dc) with (col + (j + 1) * dc) by lia.
      apply Hon. lia.
    + lia.
    + lia.
    + replace (row + dr + Z.of_nat n * dr) with (row + Z.of_nat (S n) * dr) by lia.
      by replace (col + dc + Z.of_nat n * dc) with (col + Z.of_nat (S n) * dc) by lia.
Qed.

Lemma walk_budget_gt (self : GoBoard) (n : nat) :
  padded self → Z.of_nat n ≤ size self + 1 → (n < walk_budget self)%nat.
Proof.
  intros [Hs HNS Hm Hlen _] Hn. unfold walk_budget.
  assert (size self + 1 ≤ Z.of_nat (length (board self))) by (rewrite Hlen, Hm; nia).
  lia.
Qed.

Lemma line_points_playable (self : GoBoard) (row col dr dc : Z) (n : nat) :
  (∀ j, 0 ≤ j < Z.of_nat n → on_board (size self) (row + j * dr) (col + j * dc)) →
  Forall (playable self) (line_points self row col dr dc n).
Proof.
  intros Hon. unfold line_points. apply Forall_fmap, Forall_seqZ.
  intros j Hj. cbn. exists (row + j * dr), (col + j * dc).
  split; [apply Hon; lia|done].
Qed.

Section FreshBoard.

Variable self : GoBoard.
Hypothesis Hp : padded self.
Hypothesis He : all_empty self.
Hypothesis Hs : 1 ≤ size self.

Lemma row_and_col_Ok (i : Z) :
  1 ≤ i ≤ size self →
  row_and_col self i
  = Ok (seqZ (pt self i 1) (size self),
        (λ k, pt self (k + 1) i) <$> seqZ 0 (size self)).
Proof.
  intros Hi. unfold row_and_col. rewrite !row_start_Ok by lia. cbn.
  do 2 f_equal. unfold range3.
  assert (NS self ≠ 0) as HNS by (rewrite (padded_NS _ Hp); lia).
  replace (size self * NS self + 1 + i - (1 * NS self + 1 + i - 1) + NS self - 1)
    with (size self * NS self) by lia.
  rewrite Z.div_mul by done.
  apply list_fmap_ext. intros _ k _. unfold pt. lia.
Qed.

Lemma diag_SE_Ok (row col : Z) :
  on_board (size self) row col →
  let n := Z.to_nat (size self + 1 - Z.max row col) in
  collect_empty (walk_budget self) self (pt self row col) (NS self + 1)
  = Ok (line_points self row col 1 1 n)
  ∧ Forall (playable self) (line_points self row col 1 1 n).
Proof.
  intros [Hr Hc] n.
  assert (∀ j, 0 ≤ j < Z.of_nat n → on_board (size self) (row + j * 1) (col + j * 1))
    as Hon by (unfold on_board; lia).
  split; [|by apply line_points_playable].
  replace (NS self + 1) with (1 * NS self + 1) by lia.
  apply collect_empty_line; [done|done|apply walk_budget_gt; [done|lia]|done|lia..|].
  unfold on_board. lia.
Qed.

Lemma diag_NE_Ok (row col : Z) :
  on_board (size self) row col →
  let n := Z.to_nat (Z.min row (size self + 1 - col)) in
  collect_empty (walk_budget self) self (pt self row col) (-1 * NS self + 1)
  = Ok (line_points self row col (-1) 1 n)
  ∧ Forall (playable self) (line_points self row col (-1) 1 n).
Proof.
  intros [Hr Hc] n.
  assert (∀ j, 0 ≤ j < Z.of_nat n → on_board (size self) (row + j * -1) (col + j * 1))
    as Hon by (unfold on_board; lia).
  split; [|by apply line_points_playable].
  apply collect_empty_line; [done|done|apply walk_budget_gt; [done|lia]|done|lia..|].
  unfold on_board. lia.
Qed.

(** The last start of the third diagonal loop, one step to the right of the
    last row, is a BORDER point: its diagonal is empty. *)
Lemma diag_NE_off (row : Z) :
  0 ≤ row ≤ size self →
  collect_empty (walk_budget self) self (pt self row (size self + 1)) (-1 * NS self + 1)
  = Ok [].
Proof.
  intros Hr.
  change [] with (line_points self row (size self + 1) (-1) 1 0).
  apply collect_empty_line; [done|done|apply walk_budget_gt; [done|lia]| |lia..|].
  - intros j Hj. lia.
  - unfold on_board. lia.
Qed.

End FreshBoard.

(** ** Counting the lines *)

Lemma mapM_Ok_fmap {A B C} (f : A → result B) (h : C → A) (g : C → B) (l : list C) :
  (∀ x, x ∈ l → f (h x) = Ok (g x)) → mapM f (h <$> l) = Ok (g <$> l).
Proof.
  intros Hf. induction l as [|x l IH]; [done|].
  cbn. rewrite (Hf x) by left. cbn.
  rewrite IH; [done|]. intros y Hy. apply Hf. by right.
Qed.

Lemma length_keep5 (l : list Z) :
  Z.of_nat (length (keep5 l)) = if bool_decide (5 ≤ Z.of_nat (length l)) then 1 else 0.
Proof. unfold keep5. by case_bool_decide. Qed.

Lemma Forall_keep5 (P : list Z → Prop) (l : list Z) : P l → Forall P (keep5 l).
Proof. intros H. unfold keep5. case_bool_decide; by repeat constructor. Qed.

(** The number of lists kept along a range when the lists of the points up to
    [t] are kept. *)
Lemma count_upto (h : Z → list (list Z)) (t n : Z) :
  0 ≤ n → ∀ a,
  (∀ i, a ≤ i < a + n →
     Z.of_nat (length (h i)) = if bool_decide (i ≤ t) then 1 else 0) →
  Z.of_nat (length (concat (h <$> seqZ a n))) = Z.max 0 (Z.min n (t + 1 - a)).
Proof.
  intros Hn. pattern n. apply natlike_ind; [| |done].
  - intros a _. rewrite seqZ_nil by lia. cbn. lia.
  - clear n Hn. intros n Hn IH a Hh.
    rewrite seqZ_cons by lia. cbn.
    replace (Z.pred (Z.succ n)) with n by lia.
    rewrite length_app, Nat2Z.inj_add, IH, Hh by (try (intros; apply Hh); lia).
    case_bool_decide; lia.
Qed.

(** The same when the lists of the points from [t] on are kept. *)
Lemma count_from (h : Z → list (list Z)) (t n : Z) :
  0 ≤ n → ∀ a,
  (∀ i, a ≤ i < a + n →
     Z.of_nat (length (h i)) = if bool_decide (t ≤ i) then 1 else 0) →
  Z.of_nat (length (concat (h <$> seqZ a n))) = Z.max 0 (Z.min n (a + n - t)).
Proof.
  intros Hn. pattern n. apply natlike_ind; [| |done].
  - intros a _. rewrite seqZ_nil by lia. cbn. lia.
  - clear n Hn. intros n Hn IH a Hh.
    rewrite seqZ_cons by lia. cbn.
    replace (Z.pred (Z.succ n)) with n by lia.
    rewrite length_app, Nat2Z.inj_add, IH, Hh by (try (intros; apply Hh); lia).
    case_bool_decide; lia.
Qed.

Lemma length_concat_app_fmap {A C} (h1 h2 : C → list A) (l : list C) :
  length (concat ((λ x, h1 x ++ h2 x) <$> l))
  = (length (concat (h1 <$> l)) + length (concat (h2 <$> l)))%nat.
Proof.
  induction l as [|x l IH]; [done|]. cbn. rewrite !length_app, IH. lia.
Qed.

Section FreshLines.

Variable self : GoBoard.
Hypothesis Hp : padded self.
Hypothesis He : all_empty self.
Hypothesis Hs : 5 ≤ size self.

Let s := size self.
Let N := NS self.

Lemma rows_cols_fresh :
  ∃ rc, mapM (row_and_col self) (seqZ 1 s) = Ok rc
        ∧ Z.of_nat (length rc.*1) = s
        ∧ Z.of_nat (length rc.*2) = s
        ∧ Forall (Forall (playable self)) rc.*1
        ∧ Forall (Forall (playable self)) rc.*2.
Proof.
  eexists. split.
  { apply mapM_Ok with
      (g := λ i, (seqZ (pt self i 1) s, (λ k, pt self (k + 1) i) <$> seqZ 0 s)).
    intros i Hi%elem_of_seqZ. apply row_and_col_Ok; [done|fold s; lia..]. }
  rewrite !length_fmap, length_seqZ, <- !list_fmap_compose.
  split_and!; [lia|lia| |].
  - apply Forall_fmap, Forall_seqZ. intros i Hi. cbn.
    apply Forall_seqZ. intros p Hp'. exists i, (p - i * N).
    unfold on_board, pt in *. fold s N in Hp' |- *. lia.
  - apply Forall_fmap, Forall_seqZ. intros i Hi. cbn.
    apply Forall_fmap, Forall_seqZ. intros k Hk. cbn. exists (k + 1), i.
    unfold on_board. fold s. split; [lia|done].
Qed.

Lemma top_diags_fresh :
  ∃ d, mapM (diags_from_top self) (seqZ (1 * N + 1) s) = Ok d
       ∧ Z.of_nat (length (concat d)) = s - 4
       ∧ Forall (Forall (playable self)) (concat d).
Proof.
  pose (g := λ i, keep5 (line_points self 1 (i - N) 1 1
                           (Z.to_nat (s + 1 - Z.max 1 (i - N))))).
  assert (∀ i, 1 * N + 1 ≤ i < 1 * N + 1 + s → on_board s 1 (i - N))
    as Hon by (unfold on_board; lia).
  exists (g <$> seqZ (1 * N + 1) s). split_and!.
  - apply mapM_Ok. intros i Hi%elem_of_seqZ. unfold diags_from_top.
    replace i with (pt self 1 (i - N)) at 1 by (unfold pt; fold N; lia).
    by rewrite (proj1 (diag_SE_Ok self Hp He ltac:(lia) _ _ (Hon i Hi))).
  - rewrite (count_upto g (s - 4 + N)); [lia|lia|].
    intros i Hi. unfold g. rewrite length_keep5, length_line_points.
    do 2 case_bool_decide; lia.
  - apply Forall_concat, Forall_fmap, Forall_seqZ. intros i Hi.
    apply Forall_keep5. by apply (diag_SE_Ok self Hp He ltac:(lia) _ _ (Hon i Hi)).
Qed.

Lemma left_diags_fresh :
  ∃ d, mapM (diags_from_left self) (range3 (1 * N + 1 + N) (s * N + 1 + 1) N) = Ok d
       ∧ Z.of_nat (length (concat d)) = (s - 5) + (s - 4)
       ∧ Forall (Forall (playable self)) (concat d).
Proof.
  pose (g1 := λ k, keep5 (line_points self (k + 2) 1 1 1
                            (Z.to_nat (s + 1 - Z.max (k + 2) 1)))).
  pose (g2 := λ k, keep5 (line_points self (k + 2) 1 (-1) 1
                            (Z.to_nat (Z.min (k + 2) (s + 1 - 1))))).
  assert (N = s + 1) as HN by apply (padded_NS _ Hp).
  assert (∀ k, 0 ≤ k < 0 + (s - 1) → on_board s (k + 2) 1)
    as Hon by (unfold on_board; lia).
  unfold range3.
  replace (s * N + 1 + 1 - (1 * N + 1 + N) + N - 1) with ((s - 1) * N) by lia.
  rewrite Z.div_mul by lia.
  exists ((λ k, g1 k ++ g2 k) <$> seqZ 0 (s - 1)). split_and!.
  - apply mapM_Ok_fmap. intros k Hk%elem_of_seqZ. unfold diags_from_left.
    replace (1 * N + 1 + N + k * N) with (pt self (k + 2) 1)
      by (unfold pt; fold N; lia).
    rewrite (proj1 (diag_SE_Ok self Hp He ltac:(lia) _ _ (Hon k Hk))).
    cbn [mbind result_bind].
    by rewrite (proj1 (diag_NE_Ok self Hp He ltac:(lia) _ _ (Hon k Hk))).
  - rewrite length_concat_app_fmap, Nat2Z.inj_add.
    rewrite (count_upto g1 (s - 6)), (count_from g2 3); [lia|lia| |lia|].
    + intros k Hk. unfold g2. rewrite length_keep5, length_line_points.
      do 2 case_bool_decide; lia.
    + intros k Hk. unfold g1. rewrite length_keep5, length_line_points.
      do 2 case_bool_decide; lia.
  - apply Forall_concat, Forall_fmap, Forall_seqZ. intros k Hk. cbn.
    apply Forall_app. split; apply Forall_keep5.
    + by apply (diag_SE_Ok self Hp He ltac:(lia) _ _ (Hon k Hk)).
    + by apply (diag_NE_Ok self Hp He ltac:(lia) _ _ (Hon k Hk)).
Qed.

Lemma bottom_diags_fresh :
  ∃ d, mapM (diags_from_bottom self) (seqZ (s * N + 1 + 1) s) = Ok d
       ∧ Z.of_nat (length (concat d)) = s - 5
       ∧ Forall (Forall (playable self)) (concat d).
Proof.
  pose (g := λ i, if bool_decide (i - s * N ≤ s)
                  then keep5 (line_points self s (i - s * N) (-1) 1
                                (Z.to_nat (Z.min s (s + 1 - (i - s * N)))))
                  else keep5 []).
  assert (∀ i, i - s * N ≤ s → s * N + 1 + 1 ≤ i → on_board s s (i - s * N))
    as Hon by (unfold on_board; lia).
  exists (g <$> seqZ (s * N + 1 + 1) s). split_and!.
  - apply mapM_Ok. intros i Hi%elem_of_seqZ. unfold diags_from_bottom, g.
    case_bool_decide as Hc.
    + replace i with (pt self s (i - s * N)) at 1 by (unfold pt; fold N; lia).
      by rewrite (proj1 (diag_NE_Ok self Hp He ltac:(lia) _ _ (Hon i Hc (proj1 Hi)))).
    + replace i with (pt self s (s + 1)) by (unfold pt; fold N; lia).
      rewrite diag_NE_off by (try done; fold s; lia). reflexivity.
  - rewrite (count_upto g (s - 4 + s * N)); [lia|lia|].
    intros i Hi. unfold g. case_bool_decide.
    + rewrite length_keep5, length_line_points. do 2 case_bool_decide; lia.
    + rewrite length_keep5. cbn [length]. do 2 case_bool_decide; lia.
  - apply Forall_concat, Forall_fmap, Forall_seqZ. intros i Hi. unfold compose, g.
    case_bool_decide as Hc; (apply Forall_keep5; [idtac]); [|done].
    apply (diag_NE_Ok self Hp He ltac:(lia) _ _ (Hon i Hc ltac:(lia))).
Qed.

(** On a board without stones of size 5 or more the precomputation succeeds:
    its three assertions hold, and every point of a line is playable. *)
Lemma calculate_fresh :
  ∃ rs cs ds,
    calculate_rows_cols_diags self = Ok (set_lines self rs cs ds)
    ∧ Z.of_nat (length rs) = s
    ∧ Z.of_nat (length cs) = s
    ∧ Z.of_nat (length ds) = (2 * (s - 5) + 1) * 2
    ∧ Forall (Forall (playable self)) (rs ++ cs ++ ds).
Proof.
  destruct rows_cols_fresh as (rc & Hrc & Hlr & Hlc & Hpr & Hpc).
  destruct top_diags_fresh as (d1 & Hd1 & Hl1 & Hp1).
  destruct left_diags_fresh as (d2 & Hd2 & Hl2 & Hp2).
  destruct bottom_diags_fresh as (d3 & Hd3 & Hl3 & Hp3).
  exists rc.*1, rc.*2, (concat d1 ++ concat d2 ++ concat d3).
  assert (Z.of_nat (length (concat d1 ++ concat d2 ++ concat d3))
          = (2 * (s - 5) + 1) * 2) as Hl by (rewrite !length_app; lia).
  split_and!; [|done..|by rewrite !Forall_app].
  unfold calculate_rows_cols_diags. fold s N.
  rewrite bool_decide_eq_false_2 by lia.
  rewrite Hrc. cbn. rewrite !row_start_Ok by (fold s; lia). cbn. fold s N.
  rewrite Hd1. cbn. rewrite Hd2. cbn. rewrite Hd3. cbn.
  rewrite !assert_true by (by apply bool_decide_eq_true_2). done.
Qed.

End FreshLines.

Lemma initialize_empty_points_Ok (self : GoBoard) (m : nat) :
  NS self = size self + 1 →
  Z.of_nat m = size self * size self + 3 * (size self + 1) →
  0 ≤ size self →
  ∃ bd, _initialize_empty_points self (replicate m BORDER) = Ok bd
        ∧ length bd = m
        ∧ ∀ r c, 0 ≤ r → 0 ≤ c ≤ size self → r * NS self + c < Z.of_nat m →
            bd !! Z.to_nat (r * NS self + c)
            = Some (if bool_decide (1 ≤ r ≤ size self ∧ 1 ≤ c) then EMPTY else BORDER).
Proof.
  intros HNS Hm Hs.
  destruct (initialize_rows self m (Z.to_nat (size self)) HNS Hm) as (bd & H); [lia|].
  rewrite Z2Nat.id in H by done. by exists bd.
Qed.

(** ** Construction *)

(** [reset] builds the padded array without stones and hands it to the
    precomputation; the object keeps the line lists it had. *)
Lemma reset_array (self : GoBoard) (s : Z) :
  0 ≤ s →
  ∃ b0, reset self s = calculate_rows_cols_diags b0
        ∧ padded b0 ∧ all_empty b0 ∧ size b0 = s
        ∧ current_player b0 = BLACK
        ∧ rows b0 = rows self ∧ cols b0 = cols self ∧ diags b0 = diags self.
Proof.
  intros Hs. unfold reset.
  set (m := s * s + 3 * (s + 1)).
  assert (0 ≤ m) as Hm by (unfold m; nia).
  rewrite bool_decide_eq_false_2 by lia.
  set (self1 := mkGoBoard s (s + 1) 1 None None None BLACK m
                  (replicate (Z.to_nat m) BORDER) (rows self) (cols self) (diags self)).
  destruct (initialize_empty_points_Ok self1 (Z.to_nat m))
    as (bd & Hinit & Hlen & Hbd); [done|cbn; lia|cbn; lia|].
  change (board self1) with (replicate (Z.to_nat m) BORDER).
  rewrite Hinit. cbn [mbind result_bind].
  cbn in Hbd. rewrite Z2Nat.id in Hbd by done.
  eexists. split; [done|]. split_and!; try done.
  - constructor; cbn; [done|done|done|lia|].
    intros row col Hr Hc. unfold pt. cbn.
    destruct (decide (col = s + 1)) as [->|Hne].
    + replace (row * (s + 1) + (s + 1)) with ((row + 1) * (s + 1) + 0) by lia.
      exists BORDER. split; [|unfold on_board; split; [lia|done]].
      rewrite Hbd by (unfold m; nia).
      by rewrite bool_decide_eq_false_2 by lia.
    + rewrite Hbd by (unfold m; nia).
      case_bool_decide as Hin; eexists; (split; [done|]); unfold on_board.
      * split; [done|lia].
      * split; [lia|done].
  - intros row col [Hr Hc]. cbn in Hr, Hc. unfold pt. cbn.
    rewrite Hbd by (unfold m; nia). by rewrite bool_decide_eq_true_2 by lia.
Qed.

Lemma calculate_small (self : GoBoard) :
  size self < 5 → calculate_rows_cols_diags self = Ok self.
Proof.
  intros H. unfold calculate_rows_cols_diags. by rewrite bool_decide_eq_true_2.
Qed.

Lemma padded_set_lines (self : GoBoard) (rs cs ds : list (list Z)) :
  padded self → padded (set_lines self rs cs ds).
Proof. intros [? ? ? ? ?]. by constructor. Qed.

(** What [reset] returns: a padded board without stones, BLACK to move, with
    the line lists of its size; below size 5 the lists are those the object
    had. *)
Lemma reset_Ok (self : GoBoard) (s : Z) :
  0 ≤ s →
  ∃ b, reset self s = Ok b
       ∧ padded b ∧ all_empty b ∧ size b = s ∧ current_player b = BLACK
       ∧ (5 ≤ s → lines_ok b)
       ∧ (s < 5 → rows b = rows self ∧ cols b = cols self ∧ diags b = diags self).
Proof.
  intros Hs.
  destruct (reset_array self s Hs) as (b0 & -> & Hp & He & Hsz & Hcp & Hr & Hc & Hd).
  destruct (decide (5 ≤ s)) as [H5|H5].
  - destruct (calculate_fresh b0 Hp He ltac:(lia))
      as (rs & cs & ds & -> & Hlr & Hlc & Hld & Hpl).
    eexists. split; [done|].
    split_and!; [by apply padded_set_lines|exact He|exact Hsz|exact Hcp| |lia].
    intros _. unfold lines_ok. cbn. rewrite decide_True by lia.
    by exists rs, cs, ds.
  - rewrite calculate_small by lia.
    eexists. split; [done|]. split_and!; [done..|lia|done].
Qed.

(** What the constructor returns. *)
Lemma GoBoard_init_Ok (MAXSIZE s : Z) :
  2 ≤ s ≤ MAXSIZE →
  ∃ b, GoBoard_init MAXSIZE s = Ok b
       ∧ padded b ∧ all_empty b ∧ size b = s ∧ current_player b = BLACK
       ∧ lines_ok b.
Proof.
  intros Hs. unfold GoBoard_init.
  rewrite assert_true by (by apply bool_decide_eq_true_2). cbn [mbind result_bind].
  destruct (reset_Ok new_object s ltac:(lia))
    as (b & -> & Hp & He & Hsz & Hcp & H5 & Hsmall).
  cbn [mbind result_bind].
  destruct (decide (5 ≤ s)) as [Hge|Hlt].
  - destruct (calculate_fresh b Hp He ltac:(lia))
      as (rs & cs & ds & -> & Hlr & Hlc & Hld & Hpl).
    eexists. split; [done|].
    split_and!; [by apply padded_set_lines|exact He|exact Hsz|exact Hcp|].
    unfold lines_ok. cbn. rewrite decide_True by lia. by exists rs, cs, ds.
  - rewrite calculate_small by lia.
    eexists. split; [done|]. split_and!; [done..|].
    unfold lines_ok. rewrite decide_False by lia. apply Hsmall. lia.
Qed.

(** ** Moves *)

(** The three ways a call of [play_move] returns. *)
Lemma play_move_inv (self self' : GoBoard) (point : option Z) (color : Z) (ok : bool) :
  play_move self point color = Ok (ok, self') →
  (color = BLACK ∨ color = WHITE)
  ∧ ((point = None ∧ ok = true
      ∧ self' = set_played self None (opponent color) None)
     ∨ (∃ p k c, point = Some p ∧ index (length (board self)) p = Some k
          ∧ board self !! k = Some c ∧ c ≠ EMPTY ∧ ok = false ∧ self' = self)
     ∨ (∃ p k, point = Some p ∧ index (length (board self)) p = Some k
          ∧ board self !! k = Some EMPTY ∧ ok = true
          ∧ self' = set_played (set_board self (<[k:=color]> (board self)))
                      (ko_recapture self) (opponent color) (Some p))).
Proof.
  unfold play_move, assert, is_black_white.
  destruct (bool_decide (color = BLACK)) eqn:Hb;
    [|destruct (bool_decide (color = WHITE)) eqn:Hw]; cbn; [| |done];
    (intros H; split;
     [first [left; by apply bool_decide_eq_true_1 in Hb
            |right; by apply bool_decide_eq_true_1 in Hw]|]);
    (destruct point as [p|]; [|left; by injection H as <- <-]);
    (destruct (array_get (board self) p) as [c| |] eqn:Hget; cbn in H; try done);
    apply array_get_wrap in Hget as (k & Hk & Hc);
    (case_bool_decide as Hne; [right; left; injection H as <- <-; by exists p, k, c|]);
    unfold array_set in H; rewrite Hk in H; cbn in H; injection H as <- <-;
    right; right; exists p, k; split_and!; try done;
    rewrite Hc; f_equal; by destruct (decide (c = EMPTY)).
Qed.

Lemma padded_play (self : GoBoard) (k : nat) (color : Z) (ko : option Z)
    (player : Z) (point : option Z) :
  padded self → board self !! k = Some EMPTY → color ≠ BORDER →
  padded (set_played (set_board self (<[k:=color]> (board self))) ko player point).
Proof.
  intros [Hs HNS Hm Hlen Hcell] Hk Hcol.
  constructor; cbn; [done|done|done|by rewrite length_insert|].
  intros row col Hr Hc. destruct (Hcell row col Hr Hc) as (x & Hx & Hb).
  unfold pt in *. cbn.
  destruct (decide (k = Z.to_nat (row * NS self + col))) as [->|Hne].
  - exists color. split.
    + apply list_lookup_insert_eq. by eapply lookup_lt_Some.
    + rewrite Hx in Hk. injection Hk as ->. split; [done|].
      intros Hoff. apply Hb in Hoff. done.
  - exists x. by rewrite list_lookup_insert_ne.
Qed.

Lemma stones_only_play (self : GoBoard) (k : nat) (color : Z) (ko : option Z)
    (player : Z) (point : option Z) :
  stones_only self → color = BLACK ∨ color = WHITE →
  stones_only (set_played (set_board self (<[k:=color]> (board self))) ko player point).
Proof.
  intros Hst Hcol row col x Hon. unfold pt. cbn.
  destruct (decide (k = Z.to_nat (row * NS self + col))) as [->|Hne].
  - intros Hx. apply list_lookup_insert_Some in Hx as [(_ & <- & _)|(? & _)]; [|done].
    tauto.
  - rewrite list_lookup_insert_ne by done. by apply Hst.
Qed.

Lemma reachable_invariant (MAXSIZE : Z) (self : GoBoard) :
  reachable MAXSIZE self → invariant MAXSIZE self.
Proof.
  induction 1 as [s b Hinit|b b' point color ok _ IH Hplay].
  - assert (2 ≤ s ≤ MAXSIZE) as Hs.
    { unfold GoBoard_init, assert in Hinit. by case_bool_decide. }
    destruct (GoBoard_init_Ok MAXSIZE s Hs) as (b0 & Hb0 & Hp & He & Hsz & _ & Hl).
    rewrite Hinit in Hb0. injection Hb0 as <-.
    constructor; [lia|done| |done].
    intros row col x Hon Hx. left. rewrite (He row col Hon) in Hx. by injection Hx.
  - destruct IH as [Hs Hp Hst Hl].
    apply play_move_inv in Hplay
      as (Hcol & [(_ & _ & ->)|[(p & k & c & _ & _ & _ & _ & _ & ->)
                               |(p & k & _ & _ & Hk & _ & ->)]]).
    + constructor; [done| |done|done]. destruct Hp. by constructor.
    + by constructor.
    + constructor; [done| | |done].
      * apply padded_play; [done..|]. by destruct Hcol as [-> | ->].
      * by apply stones_only_play.
Qed.

Lemma lines_ok_counts (self : GoBoard) : lines_ok self → line_counts self.
Proof.
  unfold lines_ok, line_counts. case_decide; [|done].
  intros (rs & cs & ds & ? & ? & ? & ? & ? & ? & _). by exists rs, cs, ds.
Qed.

Lemma play_move_lines (self self' : GoBoard) (point : option Z) (color : Z) (ok : bool) :
  play_move self point color = Ok (ok, self') →
  size self' = size self ∧ NS self' = NS self
  ∧ rows self' = rows self ∧ cols self' = cols self ∧ diags self' = diags self.
Proof.
  intros H. apply play_move_inv in H
    as (_ & [(_ & _ & ->)|[(? & ? & ? & _ & _ & _ & _ & _ & ->)
                          |(? & ? & _ & _ & _ & _ & ->)]]); done.
Qed.



(** C4.  For every board state, every point [p] whose cell is not EMPTY and
    every colour [c], BLACK or WHITE, [play_move(p, c)] returns failure and
    the object it leaves is the object it received: the grid,
    [current_player], [last_move], [last2_move] and the ko marker are
    unchanged. *)
Theorem play_move_occupied (self : GoBoard) (p c x : Z) :
  c = BLACK ∨ c = WHITE →
  get_color self p = Ok x → x ≠ EMPTY →
  play_move self (Some p) c = Ok (false, self).
Proof.
  intros Hc Hx Hne. unfold play_move, is_black_white, get_color in *.
  rewrite Hx. cbn. rewrite bool_decide_eq_true_2 by done.
  by destruct Hc as [-> | ->].
Qed.

(** C5.  For every size [s] with [2 ≤ s ≤ MAXSIZE] the constructor succeeds
    and so does [reset]; from size 5 on the board they return has [s] rows,
    [s] columns and [(2·(s − 5) + 1)·2] diagonals; below 5 the constructor
    leaves the board without line lists and [reset] derives none (the object
    keeps what it had); [play_move] changes none of the lists, so every
    board the program can hold has the lists of its size. *)
Theorem line_counts_derived (MAXSIZE s : Z) :
  2 ≤ s ≤ MAXSIZE →
  (∃ b, GoBoard_init MAXSIZE s = Ok b ∧ size b = s ∧ line_counts b)
  ∧ (∀ self, ∃ b, reset self s = Ok b ∧ size b = s
        ∧ (5 ≤ s → line_counts b)
        ∧ (s < 5 → rows b = rows self ∧ cols b = cols self ∧ diags b = diags self))
  ∧ (∀ b b' point color ok,
        play_move b point color = Ok (ok, b') →
        size b' = size b
        ∧ rows b' = rows b ∧ cols b' = cols b ∧ diags b' = diags b)
  ∧ (∀ b, reachable MAXSIZE b → line_counts b).
Proof.
  intros Hs. split_and!.
  - destruct (GoBoard_init_Ok MAXSIZE s Hs) as (b & Hb & _ & _ & Hsz & _ & Hl).
    exists b. split_and!; [done..|by apply lines_ok_counts].
  - intros self.
    destruct (reset_Ok self s ltac:(lia)) as (b & Hb & _ & _ & Hsz & _ & H5 & Hsmall).
    exists b. split_and!; [done..| |done].
    intros Hge. by apply lines_ok_counts, H5.
  - intros b b' point color ok H. apply play_move_lines in H. tauto.
  - intros b Hb. by apply lines_ok_counts, (reachable_invariant MAXSIZE).
Qed.

Lemma line_counts_derived_witness :
  2 ≤ 9 ≤ 25
  ∧ ((∃ b, GoBoard_init 25 9 = Ok b ∧ size b = 9 ∧ line_counts b)
     ∧ (∀ self, ∃ b, reset self 9 = Ok b ∧ size b = 9
           ∧ (5 ≤ 9 → line_counts b)
           ∧ (9 < 5 → rows b = rows self ∧ cols b = cols self ∧ diags b = diags self))
     ∧ (∀ b b' point color ok,
           play_move b point color = Ok (ok, b') →
           size b' = size b
           ∧ rows b' = rows b ∧ cols b' = cols b ∧ diags b' = diags b)
     ∧ (∀ b, reachable 25 b → line_counts b)).
Proof. split; [lia|]. apply (line_counts_derived 25 9). lia. Defined.

(** C10.  For every size [s] with [2 ≤ s ≤ 4] the constructor succeeds and
    leaves the board without [rows], [cols] and [diags]; on every board of
    such a size that the program can hold, [detect_five_in_a_row] returns
    neither a colour nor EMPTY: it raises [AttributeError]. *)
Theorem detect_five_undefined_below_5 (MAXSIZE s : Z) :
  2 ≤ s ≤ 4 → s ≤ MAXSIZE →
  (∃ b, GoBoard_init MAXSIZE s = Ok b ∧ size b = s
        ∧ rows b = None ∧ cols b = None ∧ diags b = None)
  ∧ (∀ b, reachable MAXSIZE b → size b = s →
        detect_five_in_a_row b = Raise AttributeError).
Proof.
  intros Hs Hmax. split.
  - destruct (GoBoard_init_Ok MAXSIZE s ltac:(lia)) as (b & Hb & _ & _ & Hsz & _ & Hl).
    exists b. unfold lines_ok in Hl. rewrite decide_False in Hl by lia. tauto.
  - intros b Hb Hsz. apply reachable_invariant in Hb as [_ _ _ Hl].
    unfold lines_ok in Hl. rewrite decide_False in Hl by lia.
    destruct Hl as (Hr & _ & _). unfold detect_five_in_a_row. by rewrite Hr.
Qed.

Lemma detect_five_undefined_below_5_witness :
  2 ≤ 4 ≤ 4 ∧ 4 ≤ 25
  ∧ ((∃ b, GoBoard_init 25 4 = Ok b ∧ size b = 4
           ∧ rows b = None ∧ cols b = None ∧ diags b = None)
     ∧ (∀ b, reachable 25 b → size b = 4 →
           detect_five_in_a_row b = Raise AttributeError)).
Proof.
  split; [lia|]. split; [lia|]. apply (detect_five_undefined_below_5 25 4); lia.
Defined.

(** ** The walks of the probes *)

Lemma iter_turn (turn : Z → Z) (n : nat) (d : Z) :
  Nat.iter n turn (turn d) = Nat.iter (S n) turn d.
Proof. symmetry. apply Nat.iter_succ_r. Qed.

(** From a playable point a walk in one of the eight directions counts the
    cells of the colour and stops, within the room the direction leaves, at
    the first cell of another content; the cells it counts are playable and
    the cell it stops at has coordinates of the padded array. *)
Lemma probe_loop_padded (self : GoBoard) (dr dc color : Z) (turn : Z → Z) :
  padded self → color ≠ BORDER →
  -1 ≤ dr ≤ 1 → -1 ≤ dc ≤ 1 → (dr ≠ 0 ∨ dc ≠ 0) →
  ∀ (fuel : nat) (row col samecolor d : Z),
    on_board (size self) row col →
    room (size self) dr dc row col ≤ Z.of_nat fuel →
    ∃ (n : nat) (c : Z),
      probe_loop fuel self (pt self row col) (dr * NS self + dc) color turn samecolor d
      = Ok (samecolor + Z.of_nat n, Nat.iter n turn d, c,
            pt self (row + (Z.of_nat n + 1) * dr) (col + (Z.of_nat n + 1) * dc))
      ∧ Z.of_nat n + 1 ≤ room (size self) dr dc row col
      ∧ c ≠ color
      ∧ board self !! Z.to_nat (pt self (row + (Z.of_nat n + 1) * dr)
                                        (col + (Z.of_nat n + 1) * dc)) = Some c
      ∧ 0 ≤ row + (Z.of_nat n + 1) * dr ≤ size self + 1
      ∧ 0 ≤ col + (Z.of_nat n + 1) * dc ≤ size self + 1
      ∧ ∀ j, 1 ≤ j ≤ Z.of_nat n →
          on_board (size self) (row + j * dr) (col + j * dc)
          ∧ board self !! Z.to_nat (pt self (row + j * dr) (col + j * dc)) = Some color.
Proof.
  intros Hp Hcol Hdr Hdc Hdir.
  induction fuel as [|fuel IH]; intros row col samecolor d Hon Hroom.
  { unfold room, on_board in *. repeat case_bool_decide; lia. }
  cbn [probe_loop]. rewrite pt_step.
  assert (0 ≤ row + dr ≤ size self + 1 ∧ 0 ≤ col + dc ≤ size self + 1)
    as [Hr Hc] by (unfold on_board in Hon; lia).
  destruct (padded_cell _ Hp _ _ Hr Hc) as (x & Hx & Hb).
  rewrite (get_color_pt _ _ _ x) by (done || lia). cbn [mbind result_bind].
  case_bool_decide as Hxc.
  - subst x.
    assert (on_board (size self) (row + dr) (col + dc)) as Hon'.
    { destruct (decide (on_board (size self) (row + dr) (col + dc))) as [|Hoff];
        [done|]. by apply Hb in Hoff. }
    destruct (IH (row + dr) (col + dc) (samecolor + 1) (turn d) Hon')
      as (n & c & Hloop & Hn & Hne & Hstop & Hsr & Hsc & Hcells).
    { unfold room, on_board in *. repeat case_bool_decide; lia. }
    exists (S n), c.
    replace (row + (Z.of_nat (S n) + 1) * dr) with (row + dr + (Z.of_nat n + 1) * dr) by lia.
    replace (col + (Z.of_nat (S n) + 1) * dc) with (col + dc + (Z.of_nat n + 1) * dc) by lia.
    rewrite Hloop, iter_turn. split_and!; try done; try lia.
    { do 4 f_equal; lia. }
    { unfold room, on_board in *. repeat case_bool_decide; lia. }
    intros j Hj. destruct (decide (j = 1)) as [->|Hj1].
    + by rewrite !Z.mul_1_l.
    + replace (row + j * dr) with (row + dr + (j - 1) * dr) by lia.
      replace (col + j * dc) with (col + dc + (j - 1) * dc) by lia.
      apply Hcells. lia.
  - exists O, x. cbn [Z.of_nat Nat.iter]. rewrite !Z.add_0_l, !Z.mul_1_l, Z.add_0_r.
    split_and!; try done; try lia.
    unfold room, on_board in *. repeat case_bool_decide; lia.
Qed.

Lemma room_le_size (s dr dc row col : Z) :
  -1 ≤ dr ≤ 1 → -1 ≤ dc ≤ 1 → (dr ≠ 0 ∨ dc ≠ 0) → on_board s row col →
  1 ≤ room s dr dc row col ≤ s.
Proof. intros. unfold room, on_board in *. repeat case_bool_decide; lia. Qed.

(** A stride is a direction. *)
Lemma strides_direction (self : GoBoard) (step : Z) :
  step ∈ strides self →
  ∃ dr dc, step = dr * NS self + dc
           ∧ -1 ≤ dr ≤ 1 ∧ -1 ≤ dc ≤ 1 ∧ (dr ≠ 0 ∨ dc ≠ 0).
Proof.
  unfold strides. rewrite !elem_of_cons, elem_of_nil.
  intros [->|[->|[->|[->|[->|[->|[->|[->|[]]]]]]]]].
  - exists 0, 1. lia.
  - exists 0, (-1). lia.
  - exists 1, 0. lia.
  - exists (-1), 0. lia.
  - exists 1, 1. lia.
  - exists (-1), (-1). lia.
  - exists 1, (-1). lia.
  - exists (-1), 1. lia.
Qed.

Lemma walk_budget_ge_size (self : GoBoard) :
  padded self → size self ≤ Z.of_nat (walk_budget self).
Proof.
  intros [Hs HNS Hm Hlen _]. unfold walk_budget.
  assert (size self ≤ Z.of_nat (length (board self))) by (rewrite Hlen, Hm; nia).
  lia.
Qed.

(** C8 (amended).  On every board the program can hold, from every playable
    point and for every colour [c] other than BORDER, each of the eight walks
    of the probes (the two senses of the row, the column and the two
    diagonals) ends after fewer than [size] counted cells, whatever budget of
    at least [size] iterations it is given: it stops at the first cell whose
    content differs from [c], an EMPTY cell, a stone of another colour or
    BORDER; every index it reads is a slot of the padded array, read without
    wrapping around; and the four probes of the source return. *)
Theorem probe_walks_stay_on_array (MAXSIZE : Z) (b : GoBoard)
    (row col color step : Z) (turn : Z → Z) (samecolor d : Z) (fuel : nat) :
  reachable MAXSIZE b →
  on_board (size b) row col →
  color ≠ BORDER →
  step ∈ strides b →
  size b ≤ Z.of_nat fuel →
  let i := pt b row col in
  (∃ (n : nat) (c : Z),
     probe_loop fuel b i step color turn samecolor d
     = Ok (samecolor + Z.of_nat n, Nat.iter n turn d, c, i + (Z.of_nat n + 1) * step)
     ∧ Z.of_nat n < size b
     ∧ c ≠ color
     ∧ c ∈ [EMPTY; BLACK; WHITE; BORDER]
     ∧ (∀ j, 1 ≤ j ≤ Z.of_nat n + 1 →
          0 ≤ i + j * step < Z.of_nat (length (board b)))
     ∧ (∀ j, 1 ≤ j ≤ Z.of_nat n → array_get (board b) (i + j * step) = Ok color)
     ∧ array_get (board b) (i + (Z.of_nat n + 1) * step) = Ok c)
  ∧ (size b ≤ Z.of_nat (walk_budget b))
  ∧ (∃ r1 r2 r3 r4,
       checkrow b i color = Ok r1 ∧ checkcol b i color = Ok r2
       ∧ checkd1 b i color = Ok r3 ∧ checkd2 b i color = Ok r4).
Proof.
  intros Hreach Hon Hcol Hstep Hfuel i. unfold i. clear i.
  apply reachable_invariant in Hreach as [Hsize Hp Hst _].
  assert (∀ (dr dc : Z) (turn : Z → Z) (samecolor d : Z) (fuel : nat),
            -1 ≤ dr ≤ 1 → -1 ≤ dc ≤ 1 → (dr ≠ 0 ∨ dc ≠ 0) →
            size b ≤ Z.of_nat fuel →
            ∃ (n : nat) (c : Z),
              probe_loop fuel b (pt b row col) (dr * NS b + dc) color turn samecolor d
              = Ok (samecolor + Z.of_nat n, Nat.iter n turn d, c,
                    (pt b row col) + (Z.of_nat n + 1) * (dr * NS b + dc))
              ∧ Z.of_nat n < size b
              ∧ c ≠ color
              ∧ c ∈ [EMPTY; BLACK; WHITE; BORDER]
              ∧ (∀ j, 1 ≤ j ≤ Z.of_nat n + 1 →
                   0 ≤ (pt b row col) + j * (dr * NS b + dc) < Z.of_nat (length (board b)))
              ∧ (∀ j, 1 ≤ j ≤ Z.of_nat n →
                   array_get (board b) ((pt b row col) + j * (dr * NS b + dc)) = Ok color)
              ∧ array_get (board b) ((pt b row col) + (Z.of_nat n + 1) * (dr * NS b + dc)) = Ok c)
    as Hwalk.
  { clear turn samecolor d fuel Hfuel step Hstep.
    intros dr dc turn samecolor d fuel Hdr Hdc Hdir Hfuel.
    pose proof (room_le_size (size b) dr dc row col Hdr Hdc Hdir Hon) as Hroom.
    destruct (probe_loop_padded b dr dc color turn Hp Hcol Hdr Hdc Hdir
                fuel row col samecolor d Hon ltac:(lia))
      as (n & c & Hloop & Hn & Hne & Hstop & Hsr & Hsc & Hcells).
    assert (∀ j, (pt b row col) + j * (dr * NS b + dc) = pt b (row + j * dr) (col + j * dc))
      as Hpt by (intros j; unfold pt; ring).
    exists n, c. rewrite Hloop, !Hpt. split_and!; [done|lia|done| | | |].
    - destruct (decide (on_board (size b) (row + (Z.of_nat n + 1) * dr)
                          (col + (Z.of_nat n + 1) * dc))) as [Hin|Hoff].
      + destruct (Hst _ _ _ Hin Hstop) as [-> | [-> | ->]]; in_list.
      + destruct (padded_cell _ Hp _ _ Hsr Hsc) as (x & Hx & Hb).
        rewrite Hstop in Hx. injection Hx as <-. apply Hb in Hoff as ->. in_list.
    - intros j Hj. rewrite Hpt, (padded_length _ Hp).
      assert (0 ≤ row + j * dr ≤ size b + 1 ∧ 0 ≤ col + j * dc ≤ size b + 1)
        as [Hr Hc].
      { destruct (decide (j = Z.of_nat n + 1)) as [->|Hlt]; [done|].
        destruct (Hcells j ltac:(lia)) as [Hin _]. unfold on_board in Hin. lia. }
      split; [apply pt_nonneg|apply pt_lt_maxpoint]; (done || lia).
    - intros j Hj. rewrite Hpt. destruct (Hcells j Hj) as [Hin Hcell].
      apply get_color_pt; [done| | |done]; unfold on_board in Hin; lia.
    - apply get_color_pt; [done|lia..|done]. }
  assert (∀ step', step' ∈ strides b →
            ∃ r, probe b (pt b row col) color step' = Ok r) as Hprobe.
  { intros step' Hin.
    assert (- step' ∈ strides b) as Hin'.
    { unfold strides in *. rewrite !elem_of_cons, elem_of_nil in *.
      assert (∀ x : Z, - - x = x) as Hopp by (intros; lia).
      destruct Hin as [->|[->|[->|[->|[->|[->|[->|[->|[]]]]]]]]];
        rewrite ?Hopp; tauto. }
    apply strides_direction in Hin as (dr & dc & -> & Hdr & Hdc & Hdir).
    apply strides_direction in Hin' as (dr' & dc' & Heq & Hdr' & Hdc' & Hdir').
    unfold probe.
    rewrite (array_get_Ok (board b) (pt b row col)) with (x := default 0 (board b !! Z.to_nat (pt b row col))).
    2: { apply pt_nonneg; [done|unfold on_board in Hon; lia..]. }
    2: { destruct (padded_cell _ Hp row col) as (x & -> & _);
           [unfold on_board in Hon; lia..|done]. }
    cbn [mbind result_bind].
    destruct (Hwalk dr dc id 1 0 (walk_budget b) Hdr Hdc Hdir
                (walk_budget_ge_size b Hp)) as (n & c & -> & _).
    cbn [mbind result_bind]. rewrite Heq.
    destruct (Hwalk dr' dc' id (1 + Z.of_nat n) 0 (walk_budget b) Hdr' Hdc' Hdir'
                (walk_budget_ge_size b Hp)) as (n' & c' & -> & _).
    cbn [mbind result_bind]. eauto. }
  split_and!.
  - apply strides_direction in Hstep as (dr & dc & -> & Hdr & Hdc & Hdir).
    by apply Hwalk.
  - by apply walk_budget_ge_size.
  - destruct (Hprobe 1) as [r1 Hr1]; [unfold strides; in_list|].
    destruct (Hprobe (NS b)) as [r2 Hr2]; [unfold strides; in_list|].
    destruct (Hprobe (NS b + 1)) as [r3 Hr3]; [unfold strides; in_list|].
    destruct (Hprobe (NS b - 1)) as [r4 Hr4]; [unfold strides; in_list|].
    by exists r1, r2, r3, r4.
Qed.

(** ** Five in a row *)

Lemma get_color_playable (self : GoBoard) (p : Z) :
  padded self → playable self p →
  get_color self p = Ok (cell self p) ∧ cell self p ≠ BORDER.
Proof.
  intros Hp (row & col & Hon & ->). unfold get_color, cell.
  destruct (padded_cell _ Hp row col) as (x & Hx & Hb);
    [unfold on_board in Hon; lia..|].
  rewrite Hx. cbn. split.
  - apply get_color_pt; [done| | |done]; unfold on_board in Hon; lia.
  - intros ->. by apply Hb.
Qed.

Lemma first_streak_replicate (p : Z) (n : nat) :
  (p ≠ EMPTY → (n ≤ 4)%nat) → first_streak (replicate n p) = EMPTY.
Proof.
  induction n as [|n IH]; intros Hn; [done|].
  change (replicate (S n) p) with (p :: replicate n p).
  cbn [first_streak five_here].
  rewrite bool_decide_eq_false_2; [apply IH; intros; lia|].
  intros [Hp Htake]. apply (f_equal length) in Htake.
  rewrite length_take, length_replicate in Htake. cbn [length] in Htake.
  rewrite length_replicate in Htake. specialize (Hn Hp). lia.
Qed.

(** A run too short to win, followed by another colour, does not count. *)
Lemma first_streak_skip (p a : Z) (n : nat) (t : list Z) :
  a ≠ p → (p ≠ EMPTY → (n ≤ 4)%nat) →
  first_streak (replicate n p ++ a :: t) = first_streak (a :: t).
Proof.
  intros Hap. induction n as [|n IH]; intros Hn; [done|].
  change (replicate (S n) p) with (p :: replicate n p).
  cbn [app first_streak five_here].
  rewrite bool_decide_eq_false_2; [apply IH; intros; lia|].
  intros [Hp Htake]. specialize (Hn Hp).
  apply (f_equal (λ l, l !! S n)) in Htake.
  rewrite lookup_take_lt, lookup_replicate_2 in Htake by lia.
  change ((replicate n p ++ a :: t) !! n = Some p) in Htake.
  rewrite lookup_app_r in Htake by (rewrite length_replicate; lia).
  rewrite length_replicate, Nat.sub_diag in Htake. cbn in Htake. congruence.
Qed.

Lemma first_streak_five (p : Z) (t : list Z) :
  p ≠ EMPTY → first_streak (replicate 5 p ++ t) = p.
Proof.
  intros Hp. cbn. by rewrite bool_decide_eq_true_2.
Qed.

(** The loop of [has_five_in_list] in the state [(prev, counter)] answers
    what the spec answers on the line preceded by [counter] cells of content
    [prev]. *)
Lemma has_five_loop_spec (self : GoBoard) (line : list Z) :
  padded self → Forall (playable self) line →
  ∀ (n : nat) (prev : Z),
    (1 ≤ n)%nat → (prev ≠ EMPTY → (n ≤ 4)%nat) →
    has_five_loop self prev (Z.of_nat n) line
    = Ok (first_streak (replicate n prev ++ colors self line)).
Proof.
  intros Hp. induction 1 as [|stone rest Hstone _ IH]; intros n prev Hn1 Hn4.
  - cbn. by rewrite app_nil_r, first_streak_replicate.
  - change (colors self (stone :: rest)) with (cell self stone :: colors self rest).
    cbn [has_five_loop].
    destruct (get_color_playable self stone Hp Hstone) as [-> _].
    cbn [mbind result_bind]. case_bool_decide as Hc.
    + rewrite Hc, cons_middle, app_assoc, <- replicate_S_end.
      destruct (bool_decide (Z.of_nat n + 1 = 5) && bool_decide (prev ≠ EMPTY)) eqn:Hwin.
      * apply andb_prop in Hwin as [H5%bool_decide_eq_true_1 Hne%bool_decide_eq_true_1].
        replace (S n) with 5%nat by lia. by rewrite first_streak_five.
      * replace (Z.of_nat n + 1) with (Z.of_nat (S n)) by lia.
        apply IH; [lia|]. intros Hne. specialize (Hn4 Hne).
        apply andb_false_iff in Hwin as [H5%bool_decide_eq_false_1|Hne'%bool_decide_eq_false_1];
          [lia|done].
    + rewrite first_streak_skip by done.
      change (bool_decide (1 = 5)) with false. cbn [andb].
      apply (IH 1%nat); lia.
Qed.

Lemma first_streak_border (cs : list Z) :
  Forall (λ c, c ≠ BORDER) cs → first_streak (BORDER :: cs) = first_streak cs.
Proof.
  intros Hcs. cbn [first_streak five_here].
  rewrite bool_decide_eq_false_2; [done|].
  intros [_ Htake]. destruct cs as [|c cs]; [done|].
  apply Forall_cons_1 in Hcs as [Hc _]. cbn in Htake. congruence.
Qed.

Lemma has_five_in_list_spec (self : GoBoard) (line : list Z) :
  padded self → Forall (playable self) line →
  has_five_in_list self line = Ok (first_streak (colors self line)).
Proof.
  intros Hp Hline. unfold has_five_in_list. change 1 with (Z.of_nat 1).
  rewrite (has_five_loop_spec self line Hp Hline 1 BORDER) by (done || lia).
  cbn [replicate app]. rewrite first_streak_border; [done|].
  unfold colors. apply Forall_fmap. eapply Forall_impl; [done|].
  intros p Hplay. by apply get_color_playable.
Qed.

Lemma scan_lines_spec (self : GoBoard) (lines : list (list Z)) (next : result Z) :
  padded self → Forall (Forall (playable self)) lines →
  scan_lines self lines next
  = if bool_decide (first_five self lines ≠ EMPTY)
    then Ok (first_five self lines) else next.
Proof.
  intros Hp. unfold first_five. induction 1 as [|line rest Hline _ IH]; [done|].
  cbn [scan_lines fmap list_fmap first_nonempty].
  rewrite has_five_in_list_spec by done. cbn [mbind result_bind].
  destruct (decide (first_streak (colors self line) ≠ EMPTY)) as [Hne|He].
  - by rewrite !(bool_decide_eq_true_2 _ Hne).
  - rewrite !(bool_decide_eq_false_2 _ He). apply IH.
Qed.

Lemma first_nonempty_app (xs ys : list Z) :
  first_nonempty (xs ++ ys)
  = if bool_decide (first_nonempty xs ≠ EMPTY)
    then first_nonempty xs else first_nonempty ys.
Proof.
  induction xs as [|x xs IH]; [done|]. cbn [app first_nonempty].
  destruct (decide (x ≠ EMPTY)) as [Hne|He].
  - by rewrite !(bool_decide_eq_true_2 _ Hne).
  - rewrite !(bool_decide_eq_false_2 _ He). apply IH.
Qed.

Lemma first_five_app (self : GoBoard) (l1 l2 : list (list Z)) :
  first_five self (l1 ++ l2)
  = if bool_decide (first_five self l1 ≠ EMPTY)
    then first_five self l1 else first_five self l2.
Proof. unfold first_five. by rewrite fmap_app, first_nonempty_app. Qed.

(** On a board with its three line lists the scan answers what the spec
    answers on the rows, then the columns, then the diagonals. *)
Lemma detect_five_spec (self : GoBoard) (rs cs ds : list (list Z)) :
  padded self →
  rows self = Some rs → cols self = Some cs → diags self = Some ds →
  Forall (Forall (playable self)) (rs ++ cs ++ ds) →
  detect_five_in_a_row self = Ok (first_five self (rs ++ cs ++ ds)).
Proof.
  intros Hp Hr Hc Hd Hall. apply Forall_app in Hall as [Hrs Hall].
  apply Forall_app in Hall as [Hcs Hds].
  unfold detect_five_in_a_row. rewrite Hr, Hc, Hd. cbn [attribute mbind result_bind].
  rewrite !scan_lines_spec, !first_five_app by done.
  repeat case_bool_decide; try done. congruence.
Qed.

Lemma first_streak_cases (cs : list Z) :
  first_streak cs = EMPTY ∨ first_streak cs ∈ cs.
Proof.
  induction cs as [|a cs IH]; [by left|].
  cbn [first_streak]. destruct (five_here (a :: cs)).
  - right. by left.
  - destruct IH as [->|Hin]; [by left|right; by right].
Qed.

Lemma first_nonempty_cases (results : list Z) :
  first_nonempty results = EMPTY ∨ first_nonempty results ∈ results.
Proof.
  induction results as [|r results IH]; [by left|].
  cbn [first_nonempty]. case_bool_decide.
  - right. by left.
  - destruct IH as [->|Hin]; [by left|right; by right].
Qed.

Lemma first_nonempty_found (results : list Z) (x : Z) :
  x ∈ results → x ≠ EMPTY → first_nonempty results ≠ EMPTY.
Proof.
  intros Hin Hx. induction results as [|r results IH]; [by apply elem_of_nil in Hin|].
  cbn [first_nonempty]. case_bool_decide as Hr; [done|].
  apply IH. apply elem_of_cons in Hin as [->|Hin]; [|done].
  destruct Hr. done.
Qed.

Lemma first_streak_window (pre post : list Z) (x : Z) :
  x ≠ EMPTY → first_streak (pre ++ replicate 5 x ++ post) ≠ EMPTY.
Proof.
  intros Hx. induction pre as [|a pre IH].
  - cbn [app]. by rewrite first_streak_five.
  - cbn [app first_streak]. destruct (five_here _) eqn:Hfive; [|done].
    cbn in Hfive. apply bool_decide_eq_true_1 in Hfive. tauto.
Qed.

Lemma fmap_constant {A B} (f : A → B) (l : list A) (y : B) :
  (∀ x, x ∈ l → f x = y) → f <$> l = replicate (length l) y.
Proof.
  induction l as [|x l IH]; intros Hf; [done|]. cbn.
  rewrite (Hf x) by left. f_equal. apply IH. intros z Hz. apply Hf. by right.
Qed.

Lemma reachable_play_moves (MAXSIZE : Z) (moves : list (option Z * Z)) :
  ∀ b b', reachable MAXSIZE b → play_moves b moves = Ok b' → reachable MAXSIZE b'.
Proof.
  unfold play_moves. induction moves as [|[point color] moves IH]; intros b b' Hb.
  - cbn. by intros [= <-].
  - cbn [foldlM].
    destruct (play_move b point color) as [[ok b1]| |] eqn:Hplay; cbn; [|done..].
    apply IH. by eapply reachable_play.
Qed.

Lemma empty_5_reachable : reachable 25 empty_5.
Proof. apply (reachable_init 25 5). vm_compute. reflexivity. Qed.

Lemma black_row_5_reachable : reachable 25 black_row_5.
Proof.
  apply (reachable_play_moves 25
           [(Some 7, BLACK); (Some 8, BLACK); (Some 9, BLACK);
            (Some 10, BLACK); (Some 11, BLACK)] empty_5).
  - exact empty_5_reachable.
  - vm_compute. reflexivity.
Qed.

(** C6.  On every board of size 5 or more that the program can hold,
    [detect_five_in_a_row] returns the answer the spec words: the lines are
    scanned rows first, columns next, diagonals last, and the answer is the
    colour of the first five consecutive stones of one colour on the first
    line that has such a five, EMPTY when no line has one.  In particular, on
    a board whose only stones are five consecutive BLACK stones of one line,
    it returns BLACK. *)
Theorem detect_five_first_streak (MAXSIZE : Z) (b : GoBoard) :
  reachable MAXSIZE b → 5 ≤ size b →
  ∃ rs cs ds,
    rows b = Some rs ∧ cols b = Some cs ∧ diags b = Some ds
    ∧ detect_five_in_a_row b = Ok (first_five b (rs ++ cs ++ ds))
    ∧ ∀ line pre w post,
        line ∈ rs ++ cs ++ ds →
        line = pre ++ w ++ post → length w = 5%nat →
        (∀ p, p ∈ w → cell b p = BLACK) →
        (∀ p, playable b p → p ∉ w → cell b p = EMPTY) →
        detect_five_in_a_row b = Ok BLACK.
Proof.
  intros Hreach H5. apply reachable_invariant in Hreach as [_ Hp _ Hl].
  unfold lines_ok in Hl. rewrite decide_True in Hl by done.
  destruct Hl as (rs & cs & ds & Hr & Hc & Hd & _ & _ & _ & Hplay).
  exists rs, cs, ds.
  pose proof (detect_five_spec b rs cs ds Hp Hr Hc Hd Hplay) as Hdetect.
  split_and!; [done..|].
  intros line pre w post Hline -> Hw Hblack Hempty. rewrite Hdetect. f_equal.
  set (lines := rs ++ cs ++ ds) in *.
  assert (∀ l c, l ∈ lines → c ∈ colors b l → c = EMPTY ∨ c = BLACK) as Hcolors.
  { intros l c Hl (p & -> & Hin)%list_elem_of_fmap.
    destruct (decide (p ∈ w)) as [Hpw|Hpw]; [right; by apply Hblack|left].
    apply Hempty; [|done].
    rewrite Forall_forall in Hplay. eapply Forall_forall; [by apply Hplay|done]. }
  unfold first_five.
  set (results := (λ l, first_streak (colors b l)) <$> lines).
  assert (first_nonempty results ≠ EMPTY) as Hne.
  { apply (first_nonempty_found _ (first_streak (colors b (pre ++ w ++ post)))).
    - apply list_elem_of_fmap. by exists (pre ++ w ++ post).
    - unfold colors. rewrite !fmap_app, (fmap_constant _ w BLACK), Hw by done.
      by apply first_streak_window. }
  destruct (first_nonempty_cases results) as [He|Hin]; [done|].
  apply list_elem_of_fmap in Hin as (l & Heq & Hl).
  destruct (first_streak_cases (colors b l)) as [He|Hin]; [congruence|].
  rewrite <- Heq in Hin. destruct (Hcolors l _ Hl Hin); [done|done].
Qed.

Lemma detect_five_first_streak_witness :
  reachable 25 black_row_5 ∧ 5 ≤ size black_row_5
  ∧ ∃ rs cs ds,
      rows black_row_5 = Some rs ∧ cols black_row_5 = Some cs
      ∧ diags black_row_5 = Some ds
      ∧ detect_five_in_a_row black_row_5
        = Ok (first_five black_row_5 (rs ++ cs ++ ds))
      ∧ ∀ line pre w post,
          line ∈ rs ++ cs ++ ds →
          line = pre ++ w ++ post → length w = 5%nat →
          (∀ p, p ∈ w → cell black_row_5 p = BLACK) →
          (∀ p, playable black_row_5 p → p ∉ w → cell black_row_5 p = EMPTY) →
          detect_five_in_a_row black_row_5 = Ok BLACK.
Proof.
  split; [exact black_row_5_reachable|]. split; [vm_compute; discriminate|].
  apply (detect_five_first_streak 25 black_row_5 black_row_5_reachable).
  vm_compute. discriminate.
Defined.

Lemma play_move_occupied_witness :
  (WHITE = BLACK ∨ WHITE = WHITE)
  ∧ get_color black_row_5 7 = Ok BLACK ∧ BLACK ≠ EMPTY
  ∧ play_move black_row_5 (Some 7) WHITE = Ok (false, black_row_5).
Proof.
  assert (get_color black_row_5 7 = Ok BLACK) as Hget by (vm_compute; reflexivity).
  assert (BLACK ≠ EMPTY) as Hne by discriminate.
  split; [by right|]. split; [exact Hget|]. split; [exact Hne|].
  apply (play_move_occupied black_row_5 7 WHITE BLACK); [by right|exact Hget|exact Hne].
Defined.


(** C7.  On the 9×9 board whose only stones are BLACK at the columns 3, 4
    and 5 of row 5, with BLACK to move, [Win] returns no point and
    [OpenFour] returns the points of the columns 2 and 6 of row 5 and no
    other. *)
Theorem open_four_scenario :
  size black_three_9 = 9
  ∧ where1d_eq (board black_three_9) BLACK
    = [pt black_three_9 5 3; pt black_three_9 5 4; pt black_three_9 5 5]
  ∧ where1d_eq (board black_three_9) WHITE = []
  ∧ current_player black_three_9 = BLACK
  ∧ Win black_three_9 = Ok []
  ∧ OpenFour black_three_9 = Ok [pt black_three_9 5 2; pt black_three_9 5 6].
Proof. split_and!; vm_compute; reflexivity. Qed.

Lemma probe_walks_stay_on_array_witness :
  reachable 25 black_row_5
  ∧ on_board (size black_row_5) 1 1
  ∧ WHITE ≠ BORDER
  ∧ 1 ∈ strides black_row_5
  ∧ size black_row_5 ≤ Z.of_nat 5
  ∧ ((∃ (n : nat) (c : Z),
        probe_loop 5 black_row_5 (pt black_row_5 1 1) 1 WHITE id 1 0
        = Ok (1 + Z.of_nat n, Nat.iter n id 0, c,
              pt black_row_5 1 1 + (Z.of_nat n + 1) * 1)
        ∧ Z.of_nat n < size black_row_5
        ∧ c ≠ WHITE
        ∧ c ∈ [EMPTY; BLACK; WHITE; BORDER]
        ∧ (∀ j, 1 ≤ j ≤ Z.of_nat n + 1 →
             0 ≤ pt black_row_5 1 1 + j * 1 < Z.of_nat (length (board black_row_5)))
        ∧ (∀ j, 1 ≤ j ≤ Z.of_nat n →
             array_get (board black_row_5) (pt black_row_5 1 1 + j * 1) = Ok WHITE)
        ∧ array_get (board black_row_5)
            (pt black_row_5 1 1 + (Z.of_nat n + 1) * 1) = Ok c)
     ∧ (size black_row_5 ≤ Z.of_nat (walk_budget black_row_5))
     ∧ (∃ r1 r2 r3 r4,
          checkrow black_row_5 (pt black_row_5 1 1) WHITE = Ok r1
          ∧ checkcol black_row_5 (pt black_row_5 1 1) WHITE = Ok r2
          ∧ checkd1 black_row_5 (pt black_row_5 1 1) WHITE = Ok r3
          ∧ checkd2 black_row_5 (pt black_row_5 1 1) WHITE = Ok r4)).
Proof.
  assert (on_board (size black_row_5) 1 1) as Hon by (vm_compute; intuition discriminate).
  assert (WHITE ≠ BORDER) as Hcol by discriminate.
  assert (1 ∈ strides black_row_5) as Hstep by left.
  assert (size black_row_5 ≤ Z.of_nat 5) as Hfuel by (vm_compute; discriminate).
  split_and!; [exact black_row_5_reachable|exact Hon|exact Hcol|exact Hstep|exact Hfuel|..];
    apply (probe_walks_stay_on_array 25 black_row_5 1 1 WHITE 1 id 1 0 5
             black_row_5_reachable Hon Hcol Hstep Hfuel).
Defined.

(** C8, as stated, fails: on the 5×5 board as constructed the walk to the
    right from the first playable point stops at once, at a cell that holds
    neither a stone nor BORDER: the cell is EMPTY. *)
Lemma probe_walk_stops_at_empty :
  reachable 25 empty_5
  ∧ on_board (size empty_5) 1 1
  ∧ probe_loop (walk_budget empty_5) empty_5 (pt empty_5 1 1) 1 BLACK id 1 0
    = Ok (1, 0, EMPTY, pt empty_5 1 2)
  ∧ array_get (board empty_5) (pt empty_5 1 2) = Ok EMPTY
  ∧ EMPTY ≠ BLACK ∧ EMPTY ≠ WHITE ∧ EMPTY ≠ BORDER.
Proof.
  split; [exact empty_5_reachable|].
  split; [vm_compute; intuition discriminate|].
  split_and!; (vm_compute; reflexivity) || discriminate.
Qed.

(** ** Where the code departs from the spec *)

(** C1: the code at the failing input.  On [white_row_7] the probe of the
    row at the empty point 39 for WHITE, the opponent of the player to move,
    yields run 4, space 1 and the sense -1, and the point 39 − 5 is EMPTY;
    [BlockOpenFour] returns 39 and 39 + 5 and does not return 39 − 5. *)
Theorem block_open_four_row_left :
  current_player white_row_7 = BLACK
  ∧ array_get (board white_row_7) 39 = Ok EMPTY
  ∧ checkrow2 white_row_7 39 WHITE = Ok (4, 1, -1, -1, 35)
  ∧ array_get (board white_row_7) (39 - 5) = Ok EMPTY
  ∧ ∃ l, BlockOpenFour white_row_7 = Ok l
         ∧ 39 ∈ l ∧ 39 + 5 ∈ l ∧ 39 - 5 ∉ l.
Proof.
  split_and!; [vm_compute; reflexivity..|].
  exists [35; 44; 39]. split_and!; [vm_compute; reflexivity|in_list|in_list|].
  rewrite !elem_of_cons, elem_of_nil. lia.
Qed.

(** On the columns and the diagonals the one-sided case reads the cell five
    steps away without a check: on [white_column_7] the probe of the column
    at the point 33 yields run 4, space 1 and the sense 1, the index
    33 + 5·NS is past the end of the array, and [BlockOpenFour] raises. *)
Lemma block_open_four_past_the_end :
  checkcol2 white_column_7 33 WHITE = Ok (4, 1, 1, -1, 25)
  ∧ Z.of_nat (length (board white_column_7)) = 33 + 5 * NS white_column_7
  ∧ BlockOpenFour white_column_7 = Raise IndexError.
Proof. split_and!; vm_compute; reflexivity. Qed.

(** C2: the code at the failing input.  With the random policy the first
    trial of the first candidate raises.  With the rule-based policy the
    first trial of the candidate 7 on [empty_5] starts from [trial_start],
    makes 24 draws and leaves the board full; the second trial runs on that
    full board, not on a copy of [empty_5] with the candidate played: it
    makes no draw, where a trial from [trial_start] makes 24. *)
Theorem trials_share_one_copy :
  simulation 25 some_draws Gomoku_init 100 empty_5 BLACK random 0 = Raise NameError
  ∧ ∃ full,
      sim_for_one_rule some_draws 100 trial_start BLACK 0 = Ok (0, full, 24%nat)
      ∧ get_empty_points full = []
      ∧ length (get_empty_points trial_start) = 24%nat
      ∧ (temp ← copy 25 empty_5;
         trials (sim_for_one_rule some_draws 100) 1 temp 7 BLACK 0)
        = Ok (0, full, 24%nat)
      ∧ (temp ← copy 25 empty_5;
         trials (sim_for_one_rule some_draws 100) 2 temp 7 BLACK 0)
        = Ok (0, full, 24%nat)
      ∧ ∃ w full',
          sim_for_one_rule some_draws 100 trial_start BLACK 24
          = Ok (w, full', 48%nat).
Proof.
  split; [vm_compute; reflexivity|].
  eexists. split; [vm_compute; reflexivity|].
  split_and!; [vm_compute; reflexivity..|].
  eexists _, _. vm_compute. reflexivity.
Qed.

Lemma sim_for_one_raises (rand : nat → nat) (b : GoBoard) (color r : Z) (k : nat) :
  detect_five_in_a_row b = Ok r → r ≠ color → r ≠ opponent color →
  get_empty_points b ≠ [] →
  sim_for_one rand b color k = Raise NameError.
Proof.
  intros Hd Hr Hr' Hmoves. unfold sim_for_one, generate_random_move.
  rewrite Hd. cbn [mbind result_bind]. rewrite !bool_decide_eq_false_2 by done.
  destruct (lookup_lt_is_Some_2 (get_empty_points b)
              (rand k `mod` length (get_empty_points b))%nat) as [move ->]; [|done].
  apply Nat.mod_upper_bound. by destruct (get_empty_points b).
Qed.

(** A rollout that draws an occupied point plays nothing and calls itself on
    the same board. *)
Lemma sim_for_one_rule_retry (rand : nat → nat) (depth : nat) (b : GoBoard)
    (color r : Z) (k : nat) (moves : list Z) (move : Z) :
  detect_five_in_a_row b = Ok r → r ≠ color → r ≠ opponent color →
  get_order b (current_player b) = Ok (Some moves) →
  choice rand moves k = Ok (move, S k) →
  play_move b (Some move) (current_player b) = Ok (false, b) →
  sim_for_one_rule rand (S depth) b color k = sim_for_one_rule rand depth b color (S k).
Proof.
  intros Hd Hr Hr' Ho Hc Hp. cbn [sim_for_one_rule].
  rewrite Hd. cbn [mbind result_bind]. rewrite !bool_decide_eq_false_2 by done.
  rewrite Ho. cbn [mbind result_bind]. rewrite Hc. cbn [mbind result_bind].
  by rewrite Hp.
Qed.

(** C9: the code at the failing inputs.  On [empty_5] the random rollout
    raises [NameError] whatever is drawn.  On [white_row_7_blocked], which
    has 45 empty points and no five, the candidates of the rule-based rollout
    are 35, 44 and 39; 44 is occupied, and with the random source that always
    draws it the rollout exceeds every depth of recursion. *)
Theorem rollouts_raise_or_recurse :
  (∀ rand k, sim_for_one rand empty_5 BLACK k = Raise NameError)
  ∧ length (get_empty_points white_row_7_blocked) = 45%nat
  ∧ detect_five_in_a_row white_row_7_blocked = Ok EMPTY
  ∧ get_order white_row_7_blocked BLACK = Ok (Some [35; 44; 39])
  ∧ array_get (board white_row_7_blocked) 44 = Ok BLACK
  ∧ (∀ depth k,
       sim_for_one_rule always_1 depth white_row_7_blocked BLACK k = OutOfFuel).
Proof.
  split_and!; [|vm_compute; reflexivity..|].
  - intros rand k. apply (sim_for_one_raises rand empty_5 BLACK EMPTY k);
      [vm_compute; reflexivity|discriminate|discriminate|vm_compute; discriminate].
  - induction depth as [|depth IH]; intros k; [done|].
    rewrite (sim_for_one_rule_retry always_1 depth white_row_7_blocked BLACK EMPTY k
               [35; 44; 39] 44);
      [apply IH|vm_compute; reflexivity|discriminate|discriminate
      |vm_compute; reflexivity|reflexivity|vm_compute; reflexivity].
Qed.

(** * Further properties of the code *)

(** ** Copies and legality *)

Lemma play_move_static (self self' : GoBoard) (point : option Z) (color : Z) (ok : bool) :
  play_move self point color = Ok (ok, self') →
  size self' = size self ∧ NS self' = NS self ∧ WE self' = WE self
  ∧ maxpoint self' = maxpoint self
  ∧ rows self' = rows self ∧ cols self' = cols self ∧ diags self' = diags self.
Proof.
  intros H. apply play_move_inv in H
    as (_ & [(_ & _ & ->)|[(? & ? & ? & _ & _ & _ & _ & _ & ->)
                          |(? & ? & _ & _ & _ & _ & ->)]]); done.
Qed.

(** A board the program can hold differs from the board the constructor
    returns for its size by its stones, its player and its history only. *)
Lemma reachable_static (MAXSIZE : Z) (b : GoBoard) :
  reachable MAXSIZE b →
  ∃ b0, GoBoard_init MAXSIZE (size b) = Ok b0
        ∧ size b0 = size b ∧ NS b0 = NS b ∧ WE b0 = WE b
        ∧ maxpoint b0 = maxpoint b
        ∧ rows b0 = rows b ∧ cols b0 = cols b ∧ diags b0 = diags b.
Proof.
  induction 1 as [s b Hinit|b b' point color ok _ IH Hplay].
  - assert (2 ≤ s ≤ MAXSIZE) as Hs.
    { unfold GoBoard_init, assert in Hinit. by case_bool_decide. }
    destruct (GoBoard_init_Ok MAXSIZE s Hs) as (b0 & Hb0 & _ & _ & Hsz & _).
    rewrite Hinit in Hb0. injection Hb0 as <-. rewrite Hsz. by exists b.
  - destruct IH as (b0 & Hb0 & IH).
    apply play_move_static in Hplay as (-> & -> & -> & -> & -> & -> & ->).
    by exists b0.
Qed.

Lemma copy_reachable (MAXSIZE : Z) (b : GoBoard) :
  reachable MAXSIZE b → copy MAXSIZE b = Ok b.
Proof.
  intros (b0 & Hb0 & Hsz & HNS & HWE & Hm & Hr & Hc & Hd)%reachable_static.
  unfold copy. rewrite Hb0. cbn [mbind result_bind].
  rewrite !assert_true by (by apply bool_decide_eq_true_2). cbn [mbind result_bind].
  rewrite Hsz, HNS, HWE, Hm, Hr, Hc, Hd. by destruct b.
Qed.

(** X1.  On every board the program can hold [copy] succeeds, its three
    assertions hold, and the board it returns is equal to the board copied,
    attribute by attribute: the grid, the player to move, the history, the
    ko marker and the line lists. *)
Theorem copy_returns_equal_board (MAXSIZE : Z) (b : GoBoard) :
  reachable MAXSIZE b → copy MAXSIZE b = Ok b.
Proof. apply copy_reachable. Qed.

Lemma copy_returns_equal_board_witness :
  reachable 25 black_row_5 ∧ copy 25 black_row_5 = Ok black_row_5.
Proof.
  split; [exact black_row_5_reachable|].
  apply (copy_returns_equal_board 25 black_row_5 black_row_5_reachable).
Defined.

(** X2.  On every board the program can hold [is_legal(point, color)]
    answers what [play_move(point, color)] answers on the board itself, and
    raises when it raises: true for PASS and for a point whose cell is EMPTY,
    false for a point whose cell is not, with a colour that is BLACK or
    WHITE. *)
Theorem is_legal_agrees_with_play_move (MAXSIZE : Z) (b : GoBoard)
    (point : option Z) (color : Z) :
  reachable MAXSIZE b →
  is_legal MAXSIZE b point color = fst <$> play_move b point color
  ∧ (color = BLACK ∨ color = WHITE →
     is_legal MAXSIZE b None color = Ok true
     ∧ ∀ p x, get_color b p = Ok x →
         is_legal MAXSIZE b (Some p) color = Ok (bool_decide (x = EMPTY))).
Proof.
  intros Hb. unfold is_legal. rewrite (copy_reachable MAXSIZE b Hb).
  cbn [mbind result_bind]. split.
  - by destruct (play_move b point color) as [[ok b']| |].
  - intros Hcol. unfold play_move, is_black_white.
    assert (bool_decide (color = BLACK) || bool_decide (color = WHITE) = true) as ->
      by (by destruct Hcol as [-> | ->]).
    cbn [assert mbind result_bind]. split; [done|].
    intros p x Hx. unfold get_color in Hx. rewrite Hx. cbn [mbind result_bind].
    case_bool_decide as Hne.
    + by rewrite bool_decide_eq_false_2.
    + assert (x = EMPTY) as -> by (by destruct (decide (x = EMPTY))).
      apply array_get_wrap in Hx as (k & Hk & _).
      unfold array_set. rewrite Hk. cbn. by rewrite bool_decide_eq_true_2.
Qed.

Lemma is_legal_agrees_with_play_move_witness :
  reachable 25 black_row_5
  ∧ (is_legal 25 black_row_5 (Some 7) WHITE
     = fst <$> play_move black_row_5 (Some 7) WHITE
     ∧ (WHITE = BLACK ∨ WHITE = WHITE →
        is_legal 25 black_row_5 None WHITE = Ok true
        ∧ ∀ p x, get_color black_row_5 p = Ok x →
            is_legal 25 black_row_5 (Some p) WHITE = Ok (bool_decide (x = EMPTY)))).
Proof.
  split; [exact black_row_5_reachable|].
  apply (is_legal_agrees_with_play_move 25 black_row_5 (Some 7) WHITE
           black_row_5_reachable).
Defined.

(** ** Stones and empty points *)

Lemma array_get_insert (arr : list Z) (k : nat) (v : Z) (q : Z) :
  index (length arr) q ≠ Some k →
  array_get (<[k:=v]> arr) q = array_get arr q.
Proof.
  intros Hq. unfold array_get. rewrite length_insert.
  destruct (index (length arr) q) as [k'|]; [|done]. cbn.
  rewrite list_lookup_insert_ne; [done|]. congruence.
Qed.

Lemma array_get_insert_eq (arr : list Z) (k : nat) (v : Z) (p : Z) (x : Z) :
  index (length arr) p = Some k → arr !! k = Some x →
  array_get (<[k:=v]> arr) p = Ok v.
Proof.
  intros Hp Hx. unfold array_get. rewrite length_insert, Hp. cbn.
  rewrite list_lookup_insert_eq; [done|]. by eapply lookup_lt_Some.
Qed.

(** X3.  Playing a colour, BLACK or WHITE, on a point whose cell is EMPTY
    succeeds; reading the point back gives the colour, every other slot of
    the array reads as before, the opponent of the colour is to move, the
    point becomes the last move and the former last move the one before it;
    the ko marker is left as it was. *)
Theorem play_move_writes_cell (self : GoBoard) (p color : Z) :
  color = BLACK ∨ color = WHITE →
  get_color self p = Ok EMPTY →
  ∃ self', play_move self (Some p) color = Ok (true, self')
           ∧ get_color self' p = Ok color
           ∧ (∀ q, index (length (board self)) q ≠ index (length (board self)) p →
                get_color self' q = get_color self q)
           ∧ length (board self') = length (board self)
           ∧ current_player self' = opponent color
           ∧ last_move self' = Some p
           ∧ last2_move self' = last_move self
           ∧ ko_recapture self' = ko_recapture self.
Proof.
  intros Hcol Hp. unfold get_color in Hp.
  destruct (array_get_wrap _ _ _ Hp) as (k & Hk & Hx).
  eexists. split.
  { unfold play_move, is_black_white, array_set.
    assert (bool_decide (color = BLACK) || bool_decide (color = WHITE) = true) as ->
      by (by destruct Hcol as [-> | ->]).
    cbn [assert mbind result_bind]. rewrite Hp. cbn [mbind result_bind].
    rewrite bool_decide_eq_false_2 by (by intros []). by rewrite Hk. }
  unfold get_color. cbn. split_and!; try done.
  - by eapply array_get_insert_eq.
  - intros q Hq. apply array_get_insert. by rewrite <- Hk.
  - apply length_insert.
Qed.

Lemma play_move_writes_cell_witness :
  (WHITE = BLACK ∨ WHITE = WHITE)
  ∧ get_color black_row_5 13 = Ok EMPTY
  ∧ ∃ self', play_move black_row_5 (Some 13) WHITE = Ok (true, self')
             ∧ get_color self' 13 = Ok WHITE
             ∧ (∀ q, index (length (board black_row_5)) q
                     ≠ index (length (board black_row_5)) 13 →
                  get_color self' q = get_color black_row_5 q)
             ∧ length (board self') = length (board black_row_5)
             ∧ current_player self' = opponent WHITE
             ∧ last_move self' = Some 13
             ∧ last2_move self' = last_move black_row_5
             ∧ ko_recapture self' = ko_recapture black_row_5.
Proof.
  assert (get_color black_row_5 13 = Ok EMPTY) as Hget by (vm_compute; reflexivity).
  split; [by right|]. split; [exact Hget|].
  apply (play_move_writes_cell black_row_5 13 WHITE); [by right|exact Hget].
Defined.

(** A slot that does not hold BORDER is a playable point. *)
Lemma padded_playable (self : GoBoard) (i x : Z) :
  padded self → 0 ≤ i →
  board self !! Z.to_nat i = Some x → x ≠ BORDER → playable self i.
Proof.
  intros Hp Hi Hx Hne.
  pose proof (padded_size _ Hp) as Hs. pose proof (padded_NS _ Hp) as HNS.
  assert (i < maxpoint self) as Hlt.
  { apply lookup_lt_Some in Hx. rewrite <- (padded_length _ Hp). lia. }
  rewrite (padded_maxpoint _ Hp) in Hlt.
  assert (0 < NS self) as HN by lia.
  pose proof (Z.div_mod i (NS self) ltac:(lia)) as Hdm.
  pose proof (Z.mod_pos_bound i (NS self) HN) as Hmod.
  pose proof (Z.div_pos i (NS self) Hi HN) as Hdiv.
  set (r := i `div` NS self) in *. set (c := i `mod` NS self) in *.
  assert (i = pt self r c) as Hpt by (unfold pt; lia).
  assert (r ≤ size self + 1 ∨ (r = size self + 2 ∧ c = 0)) as [Hr|[Hr Hc]].
  { rewrite HNS in *. nia. }
  - destruct (padded_cell _ Hp r c) as (x' & Hx' & Hb); [lia..|].
    rewrite <- Hpt, Hx in Hx'. injection Hx' as <-.
    destruct (decide (on_board (size self) r c)) as [Hon|Hoff].
    + by exists r, c.
    + by apply Hb in Hoff.
  - destruct (padded_cell _ Hp (size self + 1) (size self + 1))
      as (x' & Hx' & Hb); [lia..|].
    replace (pt self (size self + 1) (size self + 1)) with i in Hx'
      by (rewrite Hpt, Hr, Hc; unfold pt; lia).
    rewrite Hx in Hx'. injection Hx' as <-.
    destruct Hne. apply Hb. unfold on_board. lia.
Qed.

Lemma elem_of_where1d_eq (arr : list Z) (v i : Z) :
  i ∈ where1d_eq arr v ↔ 0 ≤ i ∧ arr !! Z.to_nat i = Some v.
Proof.
  unfold where1d_eq. rewrite list_elem_of_filter, elem_of_seqZ. split.
  - intros [? ?]. split; [lia|done].
  - intros [? Hx]. split; [done|]. apply lookup_lt_Some in Hx. lia.
Qed.

Lemma NoDup_where1d_eq (arr : list Z) (v : Z) : NoDup (where1d_eq arr v).
Proof. unfold where1d_eq. apply NoDup_filter, NoDup_seqZ. Qed.

Lemma elem_of_board_points (self : GoBoard) (p : Z) :
  p ∈ board_points self ↔ playable self p.
Proof.
  unfold board_points, playable, on_board. rewrite list_elem_of_bind. split.
  - intros (row & (col & -> & Hc%elem_of_seqZ)%list_elem_of_fmap & Hr%elem_of_seqZ).
    exists row, col. split; [lia|done].
  - intros (row & col & [Hr Hc] & ->). exists row. split.
    + apply list_elem_of_fmap. exists col. split; [done|]. apply elem_of_seqZ. lia.
    + apply elem_of_seqZ. lia.
Qed.

Lemma pt_inj (self : GoBoard) (r c r' c' : Z) :
  padded self → on_board (size self) r c → on_board (size self) r' c' →
  pt self r c = pt self r' c' → r = r' ∧ c = c'.
Proof.
  intros Hp [Hr Hc] [Hr' Hc'] Heq. unfold pt in Heq.
  rewrite (padded_NS _ Hp) in Heq.
  assert (r = r') as <-.
  { destruct (Z.lt_trichotomy r r') as [Hlt|[Heq'|Hgt]]; [|done|].
    - assert ((r + 1) * (size self + 1) ≤ r' * (size self + 1)) by nia. lia.
    - assert ((r' + 1) * (size self + 1) ≤ r * (size self + 1)) by nia. lia. }
  split; [done|lia].
Qed.

Lemma NoDup_board_points (self : GoBoard) : padded self → NoDup (board_points self).
Proof.
  intros Hp. unfold board_points. apply NoDup_bind; [| |apply NoDup_seqZ].
  - intros r r' p Hr%elem_of_seqZ Hr'%elem_of_seqZ
      (c & -> & Hc%elem_of_seqZ)%list_elem_of_fmap
      (c' & Heq & Hc'%elem_of_seqZ)%list_elem_of_fmap.
    apply (pt_inj self r c r' c') in Heq as [? _]; [done|done|..];
      unfold on_board; lia.
  - intros r Hr%elem_of_seqZ. apply NoDup_fmap_2_strong; [|apply NoDup_seqZ].
    intros c c' Hc%elem_of_seqZ Hc'%elem_of_seqZ Heq.
    apply (pt_inj self r c r c') in Heq as [_ ?]; [done|done|..];
      unfold on_board; lia.
Qed.

Lemma length_board_points (self : GoBoard) :
  0 ≤ size self → Z.of_nat (length (board_points self)) = size self * size self.
Proof.
  intros Hs. unfold board_points.
  assert (∀ (l : list Z) (f : Z → list Z) (n : nat),
            (∀ x, length (f x) = n) → length (l ≫= f) = (length l * n)%nat) as Hbind.
  { intros l f n Hf. induction l as [|x l IH]; [done|].
    cbn. rewrite length_app, Hf, IH. lia. }
  rewrite (Hbind _ _ (Z.to_nat (size self)));
    [|intros x; by rewrite length_fmap, length_seqZ].
  rewrite length_seqZ. nia.
Qed.

Lemma filter_ext_in {A} (P1 P2 : A → Prop)
    `{!∀ x, Decision (P1 x), !∀ x, Decision (P2 x)} (l : list A) :
  (∀ x, x ∈ l → P1 x ↔ P2 x) → filter P1 l = filter P2 l.
Proof.
  induction l as [|a l IH]; intros Hiff; [done|].
  assert (filter P1 l = filter P2 l) as Hl by (apply IH; intros; apply Hiff; by right).
  destruct (decide (P1 a)) as [H1|H1].
  - rewrite !filter_cons_True, Hl; [done|by apply Hiff; [left|]|done].
  - rewrite !filter_cons_False, Hl; [done|rewrite <- Hiff; [done|left]|done].
Qed.

Lemma length_filter_remove (l : list Z) (p : Z) :
  NoDup l → p ∈ l → (length (filter (λ i, i ≠ p) l) + 1 = length l)%nat.
Proof.
  induction 1 as [|a l Ha Hl IH]; intros Hp; [by apply elem_of_nil in Hp|].
  apply elem_of_cons in Hp as [->|Hp].
  - rewrite filter_cons_False by (by intros []). cbn.
    assert (filter (λ i, i ≠ a) l = l) as ->; [|lia].
    clear IH Hl. induction l as [|b l IH]; [done|].
    rewrite filter_cons_True.
    + f_equal. apply IH. intros Hin. apply Ha. by right.
    + intros ->. apply Ha. by left.
  - rewrite filter_cons_True by (intros ->; done). cbn. rewrite <- IH by done. lia.
Qed.

Lemma index_nonneg (n : nat) (p : Z) (k : nat) :
  0 ≤ p → index n p = Some k → k = Z.to_nat p ∧ p < Z.of_nat n.
Proof.
  intros Hp. unfold index. repeat case_bool_decide; intros [= <-]; lia.
Qed.

Lemma where1d_eq_insert_other (arr : list Z) (p v c : Z) :
  0 ≤ p → arr !! Z.to_nat p = Some v → c ≠ v →
  where1d_eq (<[Z.to_nat p:=c]> arr) v = filter (λ i, i ≠ p) (where1d_eq arr v).
Proof.
  intros Hp Hv Hc. unfold where1d_eq.
  rewrite length_insert, list_filter_filter. apply filter_ext_in.
  intros i Hi%elem_of_seqZ. destruct (decide (i = p)) as [->|Hne].
  - rewrite list_lookup_insert_eq by (by eapply lookup_lt_Some).
    split; [intros [=]; congruence|intros [? _]; done].
  - rewrite list_lookup_insert_ne by lia. tauto.
Qed.

Lemma elem_of_where1d_eq_insert (arr : list Z) (p v c i : Z) :
  0 ≤ p → arr !! Z.to_nat p = Some v → c ≠ v →
  i ∈ where1d_eq (<[Z.to_nat p:=c]> arr) c ↔ i = p ∨ i ∈ where1d_eq arr c.
Proof.
  intros Hp Hv Hc. rewrite !elem_of_where1d_eq.
  destruct (decide (i = p)) as [->|Hne].
  - rewrite list_lookup_insert_eq by (by eapply lookup_lt_Some). tauto.
  - destruct (decide (0 ≤ i)) as [Hi|Hi]; [|split; [tauto|intros [?|[? _]]; done]].
    rewrite list_lookup_insert_ne by lia. tauto.
Qed.

(** X4.  A stone played with success on a point [p ≥ 0] takes exactly that
    point out of the empty points, which keep their order, and adds it to
    the points of its colour: the board has one empty point less. *)
Theorem play_move_takes_empty_point (b b' : GoBoard) (p color : Z) :
  0 ≤ p →
  play_move b (Some p) color = Ok (true, b') →
  p ∈ get_empty_points b
  ∧ get_empty_points b' = filter (λ i, i ≠ p) (get_empty_points b)
  ∧ (length (get_empty_points b') + 1 = length (get_empty_points b))%nat
  ∧ ∀ i, i ∈ get_color_points b' color ↔ i = p ∨ i ∈ get_color_points b color.
Proof.
  intros Hp Hplay. apply play_move_inv in Hplay
    as (Hcol & [(? & _)|[(? & ? & ? & _ & _ & _ & _ & ? & _)
                        |(p' & k & [= <-] & Hk & Hcell & _ & ->)]]); [done..|].
  apply index_nonneg in Hk as [-> Hlt]; [|done].
  assert (color ≠ EMPTY) as Hne by (by destruct Hcol as [-> | ->]).
  assert (p ∈ get_empty_points b) as Hin by (by apply elem_of_where1d_eq).
  unfold get_empty_points, get_color_points in *. cbn [board set_played set_board].
  rewrite (where1d_eq_insert_other _ p EMPTY color) by done.
  split_and!; [done|done| |].
  - apply length_filter_remove; [apply NoDup_where1d_eq|done].
  - intros i. by apply (elem_of_where1d_eq_insert _ p EMPTY color).
Qed.

Lemma play_move_takes_empty_point_witness :
  0 ≤ 13
  ∧ play_move black_row_5 (Some 13) WHITE = Ok (true, black_row_5_answered)
  ∧ (13 ∈ get_empty_points black_row_5
     ∧ get_empty_points black_row_5_answered
       = filter (λ i, i ≠ 13) (get_empty_points black_row_5)
     ∧ (length (get_empty_points black_row_5_answered) + 1
        = length (get_empty_points black_row_5))%nat
     ∧ ∀ i, i ∈ get_color_points black_row_5_answered WHITE
            ↔ i = 13 ∨ i ∈ get_color_points black_row_5 WHITE).
Proof.
  assert (play_move black_row_5 (Some 13) WHITE = Ok (true, black_row_5_answered))
    as Hplay by (vm_compute; reflexivity).
  split; [lia|]. split; [exact Hplay|].
  apply (play_move_takes_empty_point black_row_5 _ 13 WHITE); [lia|exact Hplay].
Defined.

(** The cells of the playable points split into the three colours. *)
Lemma census (b : GoBoard) :
  padded b → stones_only b →
  (∀ c p, c ≠ BORDER →
     p ∈ get_color_points b c ↔ playable b p ∧ get_color b p = Ok c)
  ∧ get_empty_points b ++ get_color_points b BLACK ++ get_color_points b WHITE
    ≡ₚ board_points b.
Proof.
  intros Hp Hst.
  assert (∀ c p, c ≠ BORDER →
            p ∈ get_color_points b c ↔ playable b p ∧ get_color b p = Ok c) as Hmem.
  { intros c p Hc. unfold get_color_points, get_color. rewrite elem_of_where1d_eq.
    split.
    - intros [H0 Hx]. split; [by eapply padded_playable|by apply array_get_Ok].
    - intros [(row & col & Hon & ->) Hget].
      split; [apply pt_nonneg; [done|unfold on_board in Hon; lia..]|].
      destruct (padded_cell _ Hp row col) as (x & Hx & _);
        [unfold on_board in Hon; lia..|].
      rewrite (get_color_pt _ _ _ x) in Hget;
        [|done|unfold on_board in Hon; lia..|done].
      by injection Hget as <-. }
  split; [done|].
  assert (∀ c c' p, c ≠ c' → p ∈ get_color_points b c → p ∉ get_color_points b c')
    as Hdisj.
  { intros c c' p Hcc. unfold get_color_points. rewrite !elem_of_where1d_eq.
    intros [_ Hx] [_ Hx']. congruence. }
  apply NoDup_Permutation.
  - rewrite !NoDup_app. unfold get_empty_points.
    fold (get_color_points b EMPTY).
    split_and!; try apply NoDup_where1d_eq.
    + intros p Hin [Hb|Hw]%elem_of_app;
        [by apply (Hdisj EMPTY BLACK p)|by apply (Hdisj EMPTY WHITE p)].
    + intros p Hin Hw. by apply (Hdisj BLACK WHITE p).
  - by apply NoDup_board_points.
  - intros p. rewrite !elem_of_app, elem_of_board_points.
    unfold get_empty_points. fold (get_color_points b EMPTY).
    rewrite !Hmem by done. split; [tauto|].
    intros Hplay. pose proof Hplay as (row & col & Hon & ->).
    destruct (padded_cell _ Hp row col) as (x & Hx & _);
      [unfold on_board in Hon; lia..|].
    assert (get_color b (pt b row col) = Ok x) as Hget
      by (apply get_color_pt; [done|unfold on_board in Hon; lia..|done]).
    rewrite Hget. destruct (Hst row col x Hon Hx) as [-> | [-> | ->]]; tauto.
Qed.

(** X5.  On every board the program can hold, the points of a colour other
    than BORDER that [get_color_points] returns are the playable points that
    hold the colour, and the empty points, the BLACK points and the WHITE
    points together are the [size²] playable points, each counted once. *)
Theorem stones_and_empty_points_census (MAXSIZE : Z) (b : GoBoard) :
  reachable MAXSIZE b →
  (∀ c p, c ≠ BORDER →
     p ∈ get_color_points b c ↔ playable b p ∧ get_color b p = Ok c)
  ∧ (∀ p, p ∈ get_empty_points b ↔ playable b p ∧ get_color b p = Ok EMPTY)
  ∧ Z.of_nat (length (get_empty_points b))
    + Z.of_nat (length (get_color_points b BLACK))
    + Z.of_nat (length (get_color_points b WHITE))
    = size b * size b.
Proof.
  intros [Hs Hp Hst _]%reachable_invariant.
  destruct (census b Hp Hst) as [Hmem Hperm].
  split_and!; [done|intros p; by apply (Hmem EMPTY)|].
  apply Permutation_length in Hperm. rewrite !length_app in Hperm.
  rewrite <- length_board_points by lia. lia.
Qed.

Lemma stones_and_empty_points_census_witness :
  reachable 25 black_row_5
  ∧ ((∀ c p, c ≠ BORDER →
        p ∈ get_color_points black_row_5 c
        ↔ playable black_row_5 p ∧ get_color black_row_5 p = Ok c)
     ∧ (∀ p, p ∈ get_empty_points black_row_5
             ↔ playable black_row_5 p ∧ get_color black_row_5 p = Ok EMPTY)
     ∧ Z.of_nat (length (get_empty_points black_row_5))
       + Z.of_nat (length (get_color_points black_row_5 BLACK))
       + Z.of_nat (length (get_color_points black_row_5 WHITE))
       = size black_row_5 * size black_row_5).
Proof.
  split; [exact black_row_5_reachable|].
  apply (stones_and_empty_points_census 25 black_row_5 black_row_5_reachable).
Defined.

(** ** Neighbours *)

Lemma near_cell (b : GoBoard) (row col dr dc : Z) :
  padded b → on_board (size b) row col → -1 ≤ dr ≤ 1 → -1 ≤ dc ≤ 1 →
  let q := pt b row col + (dr * NS b + dc) in
  0 ≤ q < Z.of_nat (length (board b))
  ∧ ∃ x, get_color b q = Ok x
         ∧ (x = BORDER ↔ ¬ on_board (size b) (row + dr) (col + dc)).
Proof.
  intros Hp [Hr Hc] Hdr Hdc q. unfold q. rewrite pt_step, (padded_length _ Hp).
  split; [split; [apply pt_nonneg|apply pt_lt_maxpoint]; (done || lia)|].
  destruct (padded_cell _ Hp (row + dr) (col + dc)) as (x & Hx & Hb); [lia..|].
  exists x. split; [|done]. apply get_color_pt; [done|lia..|done].
Qed.

Lemma neighbors_near (b : GoBoard) (p q : Z) :
  q ∈ _neighbors b p ++ _diag_neighbors b p →
  ∃ dr dc, -1 ≤ dr ≤ 1 ∧ -1 ≤ dc ≤ 1 ∧ q = p + (dr * NS b + dc).
Proof.
  unfold _neighbors, _diag_neighbors. cbn [app].
  rewrite !elem_of_cons, elem_of_nil.
  intros [->|[->|[->|[->|[->|[->|[->|[->|[]]]]]]]]].
  - exists 0, (-1). lia.
  - exists 0, 1. lia.
  - exists (-1), 0. lia.
  - exists 1, 0. lia.
  - exists (-1), (-1). lia.
  - exists (-1), 1. lia.
  - exists 1, (-1). lia.
  - exists 1, 1. lia.
Qed.

Lemma filterM_Ok {A} (f : A → result bool) (g : A → bool) (l : list A) :
  (∀ x, x ∈ l → f x = Ok (g x)) →
  filterM f l = Ok (filter (λ x, g x = true) l).
Proof.
  induction l as [|x l IH]; intros Hf; [done|].
  cbn [filterM]. rewrite (Hf x) by left. cbn [mbind result_bind].
  rewrite IH by (intros; apply Hf; by right). cbn [mbind result_bind].
  destruct (g x) eqn:Hg.
  - by rewrite filter_cons_True.
  - by rewrite filter_cons_False by congruence.
Qed.

Lemma foldlM_Ok {A B} (f : B → A → result B) (l : list A) :
  (∀ acc x, x ∈ l → ∃ acc', f acc x = Ok acc') →
  ∀ acc, ∃ r, foldlM f acc l = Ok r.
Proof.
  induction l as [|x l IH]; intros Hf acc; [by eexists|].
  cbn [foldlM]. destruct (Hf acc x) as [acc' ->]; [left|].
  cbn [mbind result_bind]. apply IH. intros; apply Hf. by right.
Qed.

Lemma surrounded_loop_spec (b : GoBoard) (color : Z) (nbs : list Z) :
  (∀ q, q ∈ nbs → ∃ x, array_get (board b) q = Ok x) →
  ∃ s, surrounded_loop b color nbs = Ok s
       ∧ (s = true ↔ ∀ q x, q ∈ nbs → array_get (board b) q = Ok x →
                       x = BORDER ∨ x = color).
Proof.
  induction nbs as [|nb nbs IH]; intros Hread.
  - exists true. split; [done|]. split; [|done]. intros _ q x Hq.
    by apply elem_of_nil in Hq.
  - cbn [surrounded_loop]. destruct (Hread nb) as [x Hx]; [left|].
    rewrite Hx. cbn [mbind result_bind].
    destruct (bool_decide (x ≠ BORDER) && bool_decide (x ≠ color)) eqn:Hbad.
    + exists false. split; [done|]. split; [done|]. intros Hall.
      apply andb_prop in Hbad as [H1%bool_decide_eq_true_1 H2%bool_decide_eq_true_1].
      destruct (Hall nb x) as [?|?]; [left|done|done..].
    + destruct IH as (s & -> & Hs); [intros; apply Hread; by right|].
      exists s. split; [done|]. rewrite Hs. split.
      * intros Hall q y [->|Hq]%elem_of_cons Hy; [|by eapply Hall].
        rewrite Hx in Hy. injection Hy as <-.
        apply andb_false_iff in Hbad
          as [H1%bool_decide_eq_false_1|H2%bool_decide_eq_false_1].
        -- left. by destruct (decide (x = BORDER)).
        -- right. by destruct (decide (x = color)).
      * intros Hall q y Hq. apply Hall. by right.
Qed.

(** X6.  On every board the program can hold, the four neighbours and the
    four diagonal neighbours of a playable point are slots of the array,
    read without wrapping around, so that the methods that walk them never
    raise: [neighbors_of_color] returns the neighbours that hold the colour,
    [_is_surrounded] answers whether every neighbour holds BORDER or the
    colour, and [is_eye] answers, true only at a surrounded point. *)
Theorem neighbours_are_slots (MAXSIZE : Z) (b : GoBoard) (p color : Z) :
  reachable MAXSIZE b → playable b p →
  (∀ q, q ∈ _neighbors b p ++ _diag_neighbors b p →
     0 ≤ q < Z.of_nat (length (board b)) ∧ ∃ x, get_color b q = Ok x)
  ∧ (∃ nbc, neighbors_of_color b p color = Ok nbc
            ∧ ∀ q, q ∈ nbc ↔ q ∈ _neighbors b p ∧ get_color b q = Ok color)
  ∧ (∃ s, _is_surrounded b p color = Ok s
          ∧ (s = true ↔ ∀ q x, q ∈ _neighbors b p → get_color b q = Ok x →
                          x = BORDER ∨ x = color))
  ∧ (∃ e, is_eye b p color = Ok e
          ∧ (e = true → _is_surrounded b p color = Ok true)).
Proof.
  intros [_ Hp _ _]%reachable_invariant (row & col & Hon & ->).
  assert (∀ q, q ∈ _neighbors b (pt b row col) ++ _diag_neighbors b (pt b row col) →
            0 ≤ q < Z.of_nat (length (board b)) ∧ ∃ x, get_color b q = Ok x)
    as Hread.
  { intros q (dr & dc & Hdr & Hdc & ->)%neighbors_near.
    destruct (near_cell b row col dr dc Hp Hon Hdr Hdc) as (Hq & x & Hx & _). eauto. }
  split; [done|].
  assert (∀ q, q ∈ _neighbors b (pt b row col) → ∃ x, get_color b q = Ok x) as Hnb.
  { intros q Hq. apply Hread. apply elem_of_app. by left. }
  assert (∀ q, q ∈ _diag_neighbors b (pt b row col) → ∃ x, get_color b q = Ok x) as Hdg.
  { intros q Hq. apply Hread. apply elem_of_app. by right. }
  destruct (surrounded_loop_spec b color (_neighbors b (pt b row col)) Hnb)
    as (s & Hs & Hsur).
  split_and!.
  - pose (g := λ q, match get_color b q with
                    | Ok c => bool_decide (c = color) | _ => false end).
    exists (filter (λ q, g q = true) (_neighbors b (pt b row col))). split.
    + unfold neighbors_of_color. apply filterM_Ok. intros q Hq. unfold g.
      destruct (Hnb q Hq) as [x ->]. done.
    + intros q. rewrite list_elem_of_filter. unfold g. split.
      * intros [Hg Hq]. split; [done|]. destruct (Hnb q Hq) as [x Hx].
        rewrite Hx in *. by apply bool_decide_eq_true_1 in Hg as ->.
      * intros [Hq ->]. split; [|done]. by apply bool_decide_eq_true_2.
  - by exists s.
  - unfold is_eye, _is_surrounded. rewrite Hs. cbn [mbind result_bind].
    destruct s; cbn [negb]; [|by exists false].
    edestruct (foldlM_Ok
      (λ '(false_count, at_edge) d,
         c ← array_get (board b) d;
         if bool_decide (c = BORDER) then Ok (false_count, 1)
         else if bool_decide (c = opponent color) then Ok (false_count + 1, at_edge)
         else Ok (false_count, at_edge))
      (_diag_neighbors b (pt b row col))) as [[fc ae] ->].
    { intros [fc ae] d Hd. destruct (Hdg d Hd) as [x Hx].
      unfold get_color in Hx. rewrite Hx. cbn [mbind result_bind].
      repeat case_bool_decide; by eexists. }
    cbn [mbind result_bind]. by eexists.
Qed.

Lemma neighbours_are_slots_witness :
  reachable 25 black_row_5 ∧ playable black_row_5 7
  ∧ ((∀ q, q ∈ _neighbors black_row_5 7 ++ _diag_neighbors black_row_5 7 →
        0 ≤ q < Z.of_nat (length (board black_row_5))
        ∧ ∃ x, get_color black_row_5 q = Ok x)
     ∧ (∃ nbc, neighbors_of_color black_row_5 7 BLACK = Ok nbc
               ∧ ∀ q, q ∈ nbc ↔ q ∈ _neighbors black_row_5 7
                                 ∧ get_color black_row_5 q = Ok BLACK)
     ∧ (∃ s, _is_surrounded black_row_5 7 BLACK = Ok s
             ∧ (s = true ↔ ∀ q x, q ∈ _neighbors black_row_5 7 →
                             get_color black_row_5 q = Ok x →
                             x = BORDER ∨ x = BLACK))
     ∧ (∃ e, is_eye black_row_5 7 BLACK = Ok e
             ∧ (e = true → _is_surrounded black_row_5 7 BLACK = Ok true))).
Proof.
  assert (playable black_row_5 7) as Hplay.
  { exists 1, 1. split; [|reflexivity]. vm_compute. intuition discriminate. }
  split; [exact black_row_5_reachable|]. split; [exact Hplay|].
  apply (neighbours_are_slots 25 black_row_5 7 BLACK black_row_5_reachable Hplay).
Defined.

(** ** What the probes measure *)

Lemma axes_direction (b : GoBoard) (step : Z) :
  step ∈ axes b →
  ∃ dr dc, step = dr * NS b + dc
           ∧ -1 ≤ dr ≤ 1 ∧ -1 ≤ dc ≤ 1 ∧ (dr ≠ 0 ∨ dc ≠ 0).
Proof.
  unfold axes. rewrite !elem_of_cons, elem_of_nil.
  intros [->|[->|[->|[->|[]]]]].
  - exists 0, 1. lia.
  - exists 1, 0. lia.
  - exists 1, 1. lia.
  - exists 1, (-1). lia.
Qed.

Lemma room_both_senses (s dr dc row col : Z) :
  -1 ≤ dr ≤ 1 → -1 ≤ dc ≤ 1 → (dr ≠ 0 ∨ dc ≠ 0) →
  room s dr dc row col + room s (- dr) (- dc) row col ≤ s + 1.
Proof. intros. unfold room. repeat case_bool_decide; lia. Qed.

Lemma probe_padded (b : GoBoard) (row col color dr dc : Z) :
  padded b → on_board (size b) row col → color ≠ BORDER →
  -1 ≤ dr ≤ 1 → -1 ≤ dc ≤ 1 → (dr ≠ 0 ∨ dc ≠ 0) →
  run_and_space b (pt b row col) color (dr * NS b + dc)
    (probe b (pt b row col) color (dr * NS b + dc)).
Proof.
  intros Hp Hon Hcol Hdr Hdc Hdir. unfold probe.
  destruct (padded_cell _ Hp row col) as (x0 & Hx0 & _);
    [unfold on_board in Hon; lia..|].
  rewrite (get_color_pt _ _ _ x0) by (done || unfold on_board in Hon; lia).
  cbn [mbind result_bind].
  pose proof (room_le_size (size b) dr dc row col Hdr Hdc Hdir Hon) as Hroom1.
  pose proof (walk_budget_ge_size b Hp) as Hbudget.
  destruct (probe_loop_padded b dr dc color id Hp Hcol Hdr Hdc Hdir
              (walk_budget b) row col 1 0 Hon ltac:(lia))
    as (n1 & e1 & -> & Hn1 & Hne1 & Hstop1 & Hsr1 & Hsc1 & Hcells1).
  cbn [mbind result_bind].
  replace (- (dr * NS b + dc)) with (- dr * NS b + - dc) by lia.
  assert (- dr ≠ 0 ∨ - dc ≠ 0) as Hdir' by lia.
  pose proof (room_le_size (size b) (- dr) (- dc) row col
                ltac:(lia) ltac:(lia) Hdir' Hon) as Hroom2.
  destruct (probe_loop_padded b (- dr) (- dc) color id Hp Hcol
              ltac:(lia) ltac:(lia) Hdir'
              (walk_budget b) row col (1 + Z.of_nat n1) 0 Hon ltac:(lia))
    as (n2 & e2 & -> & Hn2 & Hne2 & Hstop2 & Hsr2 & Hsc2 & Hcells2).
  cbn [mbind result_bind].
  pose proof (room_both_senses (size b) dr dc row col Hdr Hdc Hdir) as Hboth.
  assert (∀ j, pt b row col + j * (dr * NS b + dc) = pt b (row + j * dr) (col + j * dc))
    as Hplus by (intros; unfold pt; ring).
  assert (∀ j, pt b row col - j * (dr * NS b + dc)
               = pt b (row + j * - dr) (col + j * - dc))
    as Hminus by (intros; unfold pt; ring).
  exists n1, n2, e1, e2. unfold get_color.
  split_and!; [|..|done| |done|lia].
  - do 2 f_equal. by repeat case_bool_decide.
  - intros j Hj. rewrite Hplus. destruct (Hcells1 j Hj) as [Hin Hcell].
    apply get_color_pt; [done| | |done]; unfold on_board in Hin; lia.
  - intros j Hj. rewrite Hminus. destruct (Hcells2 j Hj) as [Hin Hcell].
    apply get_color_pt; [done| | |done]; unfold on_board in Hin; lia.
  - rewrite Hplus. apply get_color_pt; [done|lia..|done].
  - rewrite Hminus. apply get_color_pt; [done|lia..|done].
Qed.

Lemma probe_axes (b : GoBoard) (row col color step : Z) :
  padded b → on_board (size b) row col → color ≠ BORDER → step ∈ axes b →
  run_and_space b (pt b row col) color step (probe b (pt b row col) color step).
Proof.
  intros Hp Hon Hcol (dr & dc & -> & Hdr & Hdc & Hdir)%axes_direction.
  by apply probe_padded.
Qed.

Lemma reachable_player (MAXSIZE : Z) (b : GoBoard) :
  reachable MAXSIZE b → current_player b = BLACK ∨ current_player b = WHITE.
Proof.
  induction 1 as [s b Hinit|b b' point color ok _ IH Hplay].
  - assert (2 ≤ s ≤ MAXSIZE) as Hs.
    { unfold GoBoard_init, assert in Hinit. by case_bool_decide. }
    destruct (GoBoard_init_Ok MAXSIZE s Hs) as (b0 & Hb0 & _ & _ & _ & Hcp & _).
    rewrite Hinit in Hb0. injection Hb0 as <-. by left.
  - apply play_move_inv in Hplay
      as (Hcol & [(_ & _ & ->)|[(? & ? & ? & _ & _ & _ & _ & _ & ->)
                               |(? & ? & _ & _ & _ & _ & ->)]]);
      [|done|]; cbn; destruct Hcol as [-> | ->]; ((by left) || (by right)).
Qed.

(** X7.  On every board the program can hold, at every playable point and
    for every colour other than BORDER, [checkrow], [checkcol], [checkd1]
    and [checkd2] return: the run they report is one more than the number of
    cells of the colour that adjoin the point without a gap on either side
    along the axis, it is at most [size], and the space they report is the
    number of EMPTY cells among the two cells that end the run. *)
Theorem probes_measure_run_and_space (MAXSIZE : Z) (b : GoBoard) (row col color : Z) :
  reachable MAXSIZE b → on_board (size b) row col → color ≠ BORDER →
  let i := pt b row col in
  run_and_space b i color 1 (checkrow b i color)
  ∧ run_and_space b i color (NS b) (checkcol b i color)
  ∧ run_and_space b i color (NS b + 1) (checkd1 b i color)
  ∧ run_and_space b i color (NS b - 1) (checkd2 b i color).
Proof.
  intros [_ Hp _ _]%reachable_invariant Hon Hcol i. unfold i.
  unfold checkrow, checkcol, checkd1, checkd2.
  split_and!; apply probe_axes; try done; unfold axes; in_list.
Qed.

Lemma probes_measure_run_and_space_witness :
  reachable 25 black_row_5 ∧ on_board (size black_row_5) 2 1 ∧ BLACK ≠ BORDER
  ∧ (run_and_space black_row_5 (pt black_row_5 2 1) BLACK 1
       (checkrow black_row_5 (pt black_row_5 2 1) BLACK)
     ∧ run_and_space black_row_5 (pt black_row_5 2 1) BLACK (NS black_row_5)
         (checkcol black_row_5 (pt black_row_5 2 1) BLACK)
     ∧ run_and_space black_row_5 (pt black_row_5 2 1) BLACK (NS black_row_5 + 1)
         (checkd1 black_row_5 (pt black_row_5 2 1) BLACK)
     ∧ run_and_space black_row_5 (pt black_row_5 2 1) BLACK (NS black_row_5 - 1)
         (checkd2 black_row_5 (pt black_row_5 2 1) BLACK)).
Proof.
  assert (on_board (size black_row_5) 2 1) as Hon by (vm_compute; intuition discriminate).
  assert (BLACK ≠ BORDER) as Hcol by discriminate.
  split; [exact black_row_5_reachable|]. split; [exact Hon|]. split; [exact Hcol|].
  apply (probes_measure_run_and_space 25 black_row_5 2 1 BLACK
           black_row_5_reachable Hon Hcol).
Defined.

(** ** The scans for winning points and open fours *)

Lemma probe_returns (b : GoBoard) (i color step : Z) :
  padded b → i ∈ get_empty_points b → color ≠ BORDER → step ∈ axes b →
  ∃ run space, probe b i color step = Ok (run, space).
Proof.
  intros Hp [Hi Hx]%elem_of_where1d_eq Hcol Hstep.
  destruct (padded_playable b i EMPTY Hp Hi Hx) as (row & col & Hon & ->); [done|].
  destruct (probe_axes b row col color step Hp Hon Hcol Hstep)
    as (n1 & n2 & e1 & e2 & -> & _). by eexists _, _.
Qed.

Lemma axes_cases (b : GoBoard) (P : Z → Prop) :
  (∃ step, step ∈ axes b ∧ P step)
  ↔ P 1 ∨ P (NS b) ∨ P (NS b + 1) ∨ P (NS b - 1).
Proof.
  unfold axes. split.
  - intros (step & Hin & HP). rewrite !elem_of_cons, elem_of_nil in Hin.
    destruct Hin as [->|[->|[->|[->|[]]]]]; tauto.
  - intros [?|[?|[?|?]]]; eexists; (split; [|eassumption]); in_list.
Qed.

Lemma five_points_spec (b : GoBoard) (color : Z) :
  padded b → color ≠ BORDER →
  ∃ l, five_points b color = Ok l
       ∧ ∀ i, i ∈ l ↔ i ∈ get_empty_points b
                      ∧ ∃ step, step ∈ axes b
                          ∧ ∃ run space, probe b i color step = Ok (run, space)
                                         ∧ 5 ≤ run.
Proof.
  intros Hp Hcol.
  pose (g := λ i, match checkrow b i color, checkcol b i color,
                        checkd1 b i color, checkd2 b i color with
                  | Ok (r1, _), Ok (r2, _), Ok (r3, _), Ok (r4, _) =>
                      bool_decide (5 ≤ r1) || bool_decide (5 ≤ r2)
                      || bool_decide (5 ≤ r3) || bool_decide (5 ≤ r4)
                  | _, _, _, _ => false
                  end).
  assert (∀ i, i ∈ get_empty_points b →
            ∃ a1 a2 a3 a4,
              checkrow b i color = Ok a1 ∧ checkcol b i color = Ok a2
              ∧ checkd1 b i color = Ok a3 ∧ checkd2 b i color = Ok a4) as Hok.
  { intros i Hi. unfold checkrow, checkcol, checkd1, checkd2.
    destruct (probe_returns b i color 1 Hp Hi Hcol) as (? & ? & ->);
      [unfold axes; in_list|].
    destruct (probe_returns b i color (NS b) Hp Hi Hcol) as (? & ? & ->);
      [unfold axes; in_list|].
    destruct (probe_returns b i color (NS b + 1) Hp Hi Hcol) as (? & ? & ->);
      [unfold axes; in_list|].
    destruct (probe_returns b i color (NS b - 1) Hp Hi Hcol) as (? & ? & ->);
      [unfold axes; in_list|].
    by eexists _, _, _, _. }
  exists (filter (λ i, g i = true) (get_empty_points b)). split.
  - unfold five_points. apply filterM_Ok. intros i Hi. unfold g.
    destruct (Hok i Hi) as ([r1 s1] & [r2 s2] & [r3 s3] & [r4 s4] & -> & -> & -> & ->).
    done.
  - intros i. rewrite list_elem_of_filter. split.
    + intros [Hg Hi]. split; [done|]. apply axes_cases. unfold g in Hg.
      fold (checkrow b i color) (checkcol b i color)
           (checkd1 b i color) (checkd2 b i color).
      destruct (Hok i Hi) as ([r1 s1] & [r2 s2] & [r3 s3] & [r4 s4] & H1 & H2 & H3 & H4).
      rewrite H1, H2, H3, H4 in *.
      repeat (apply orb_prop in Hg as [Hg|Hg]);
        apply bool_decide_eq_true_1 in Hg; eauto 10.
    + intros [Hi Hex]. split; [|done]. apply axes_cases in Hex. unfold g.
      fold (checkrow b i color) (checkcol b i color)
           (checkd1 b i color) (checkd2 b i color) in Hex.
      destruct (Hok i Hi) as ([r1 s1] & [r2 s2] & [r3 s3] & [r4 s4] & H1 & H2 & H3 & H4).
      rewrite H1, H2, H3, H4 in *.
      destruct Hex as [(? & ? & [= <- <-] & ?)|[(? & ? & [= <- <-] & ?)
                      |[(? & ? & [= <- <-] & ?)|(? & ? & [= <- <-] & ?)]]];
        rewrite !orb_true_iff, !bool_decide_eq_true; tauto.
Qed.

Lemma OpenFour_spec (b : GoBoard) :
  padded b → current_player b ≠ BORDER →
  ∃ l, OpenFour b = Ok l
       ∧ ∀ i, i ∈ l ↔ i ∈ get_empty_points b
                      ∧ ∃ step, step ∈ axes b
                          ∧ probe b i (current_player b) step = Ok (4, 2).
Proof.
  intros Hp Hcol. set (color := current_player b) in *.
  pose (g := λ i, match checkrow b i color, checkcol b i color,
                        checkd1 b i color, checkd2 b i color with
                  | Ok (r1, s1), Ok (r2, s2), Ok (r3, s3), Ok (r4, s4) =>
                      bool_decide (r1 = 4 ∧ s1 = 2) || bool_decide (r2 = 4 ∧ s2 = 2)
                      || bool_decide (r3 = 4 ∧ s3 = 2) || bool_decide (r4 = 4 ∧ s4 = 2)
                  | _, _, _, _ => false
                  end).
  assert (∀ i, i ∈ get_empty_points b →
            ∃ a1 a2 a3 a4,
              checkrow b i color = Ok a1 ∧ checkcol b i color = Ok a2
              ∧ checkd1 b i color = Ok a3 ∧ checkd2 b i color = Ok a4) as Hok.
  { intros i Hi. unfold checkrow, checkcol, checkd1, checkd2.
    destruct (probe_returns b i color 1 Hp Hi Hcol) as (? & ? & ->);
      [unfold axes; in_list|].
    destruct (probe_returns b i color (NS b) Hp Hi Hcol) as (? & ? & ->);
      [unfold axes; in_list|].
    destruct (probe_returns b i color (NS b + 1) Hp Hi Hcol) as (? & ? & ->);
      [unfold axes; in_list|].
    destruct (probe_returns b i color (NS b - 1) Hp Hi Hcol) as (? & ? & ->);
      [unfold axes; in_list|].
    by eexists _, _, _, _. }
  exists (filter (λ i, g i = true) (get_empty_points b)). split.
  - unfold OpenFour. fold color. apply filterM_Ok. intros i Hi. unfold g.
    destruct (Hok i Hi) as ([r1 s1] & [r2 s2] & [r3 s3] & [r4 s4] & -> & -> & -> & ->).
    done.
  - intros i. rewrite list_elem_of_filter. split.
    + intros [Hg Hi]. split; [done|]. apply axes_cases. unfold g in Hg.
      fold (checkrow b i color) (checkcol b i color)
           (checkd1 b i color) (checkd2 b i color).
      destruct (Hok i Hi) as ([r1 s1] & [r2 s2] & [r3 s3] & [r4 s4] & H1 & H2 & H3 & H4).
      rewrite H1, H2, H3, H4 in *.
      repeat (apply orb_prop in Hg as [Hg|Hg]);
        apply bool_decide_eq_true_1 in Hg as [-> ->]; tauto.
    + intros [Hi Hex]. split; [|done]. apply axes_cases in Hex. unfold g.
      fold (checkrow b i color) (checkcol b i color)
           (checkd1 b i color) (checkd2 b i color) in Hex.
      destruct (Hok i Hi) as ([r1 s1] & [r2 s2] & [r3 s3] & [r4 s4] & H1 & H2 & H3 & H4).
      rewrite H1, H2, H3, H4 in *.
      destruct Hex as [[= -> ->]|[[= -> ->]|[[= -> ->]|[= -> ->]]]];
        rewrite !orb_true_iff, !bool_decide_eq_true; tauto.
Qed.

(** X8.  On every board the program can hold, [Win], [BlockWin] and
    [OpenFour] return without raising.  [Win] returns the empty points at
    which some probe for the player to move reports a run of 5 or more,
    [BlockWin] the same for the opponent, [OpenFour] the empty points at
    which some probe for the player to move reports a run of 4 with a space
    of 2. *)
Theorem threat_scans_return (MAXSIZE : Z) (b : GoBoard) :
  reachable MAXSIZE b →
  ∃ w bw o,
    Win b = Ok w ∧ BlockWin b = Ok bw ∧ OpenFour b = Ok o
    ∧ (∀ i, i ∈ w ↔ i ∈ get_empty_points b
                    ∧ ∃ step, step ∈ axes b
                        ∧ ∃ run space,
                            probe b i (current_player b) step = Ok (run, space)
                            ∧ 5 ≤ run)
    ∧ (∀ i, i ∈ bw ↔ i ∈ get_empty_points b
                     ∧ ∃ step, step ∈ axes b
                         ∧ ∃ run space,
                             probe b i (opponent (current_player b)) step
                             = Ok (run, space)
                             ∧ 5 ≤ run)
    ∧ (∀ i, i ∈ o ↔ i ∈ get_empty_points b
                    ∧ ∃ step, step ∈ axes b
                        ∧ probe b i (current_player b) step = Ok (4, 2)).
Proof.
  intros Hb. pose proof (reachable_player MAXSIZE b Hb) as Hcp.
  apply reachable_invariant in Hb as [_ Hp _ _].
  assert (current_player b ≠ BORDER) as Hc1 by (by destruct Hcp as [-> | ->]).
  assert (opponent (current_player b) ≠ BORDER) as Hc2
    by (by destruct Hcp as [-> | ->]).
  destruct (five_points_spec b (current_player b) Hp Hc1) as (w & Hw & Hwin).
  destruct (five_points_spec b (opponent (current_player b)) Hp Hc2) as (bw & Hbw & Hblock).
  destruct (OpenFour_spec b Hp Hc1) as (o & Ho & Hopen).
  by exists w, bw, o.
Qed.

Lemma threat_scans_return_witness :
  reachable 25 black_row_5
  ∧ ∃ w bw o,
      Win black_row_5 = Ok w ∧ BlockWin black_row_5 = Ok bw
      ∧ OpenFour black_row_5 = Ok o
      ∧ (∀ i, i ∈ w ↔ i ∈ get_empty_points black_row_5
                      ∧ ∃ step, step ∈ axes black_row_5
                          ∧ ∃ run space,
                              probe black_row_5 i (current_player black_row_5) step
                              = Ok (run, space)
                              ∧ 5 ≤ run)
      ∧ (∀ i, i ∈ bw ↔ i ∈ get_empty_points black_row_5
                       ∧ ∃ step, step ∈ axes black_row_5
                           ∧ ∃ run space,
                               probe black_row_5 i
                                 (opponent (current_player black_row_5)) step
                               = Ok (run, space)
                               ∧ 5 ≤ run)
      ∧ (∀ i, i ∈ o ↔ i ∈ get_empty_points black_row_5
                      ∧ ∃ step, step ∈ axes black_row_5
                          ∧ probe black_row_5 i (current_player black_row_5) step
                            = Ok (4, 2)).
Proof.
  split; [exact black_row_5_reachable|].
  apply (threat_scans_return 25 black_row_5 black_row_5_reachable).
Defined.

(** ** What a detected five is *)

Lemma first_streak_sound (cs : list Z) :
  first_streak cs ≠ EMPTY →
  ∃ pre post, cs = pre ++ replicate 5 (first_streak cs) ++ post.
Proof.
  induction cs as [|a cs IH]; [done|].
  cbn [first_streak]. destruct (five_here (a :: cs)) eqn:Hfive.
  - intros _. unfold five_here in Hfive.
    apply bool_decide_eq_true_1 in Hfive as [_ Htake].
    exists [], (drop 5 (a :: cs)). rewrite <- Htake. cbn [app].
    by rewrite take_drop.
  - intros Hne. destruct (IH Hne) as (pre & post & Heq).
    exists (a :: pre), post. cbn [app]. by f_equal.
Qed.

Lemma first_nonempty_empty (results : list Z) (x : Z) :
  first_nonempty results = EMPTY → x ∈ results → x = EMPTY.
Proof.
  intros He Hin. destruct (decide (x = EMPTY)) as [|Hne]; [done|].
  by destruct (first_nonempty_found results x Hin Hne).
Qed.

Lemma cell_playable (b : GoBoard) (p : Z) :
  padded b → stones_only b → playable b p →
  cell b p = EMPTY ∨ cell b p = BLACK ∨ cell b p = WHITE.
Proof.
  intros Hp Hst (row & col & Hon & ->). unfold cell.
  destruct (padded_cell _ Hp row col) as (x & Hx & _);
    [unfold on_board in Hon; lia..|].
  rewrite Hx. cbn. by eapply Hst.
Qed.

(** X9.  On every board of size 5 or more that the program can hold,
    [detect_five_in_a_row] returns EMPTY, BLACK or WHITE.  When it returns a
    colour, some line holds five consecutive stones of that colour; when it
    returns EMPTY, no five consecutive points of a line hold five stones of
    one colour. *)
Theorem detect_five_sound_and_complete (MAXSIZE : Z) (b : GoBoard) :
  reachable MAXSIZE b → 5 ≤ size b →
  ∃ rs cs ds r,
    rows b = Some rs ∧ cols b = Some cs ∧ diags b = Some ds
    ∧ detect_five_in_a_row b = Ok r
    ∧ r ∈ [EMPTY; BLACK; WHITE]
    ∧ (r ≠ EMPTY →
       ∃ line pre w post,
         line ∈ rs ++ cs ++ ds ∧ line = pre ++ w ++ post ∧ length w = 5%nat
         ∧ ∀ p, p ∈ w → cell b p = r)
    ∧ (r = EMPTY →
       ∀ line pre w post c,
         line ∈ rs ++ cs ++ ds → line = pre ++ w ++ post → length w = 5%nat →
         (∀ p, p ∈ w → cell b p = c) → c = EMPTY).
Proof.
  intros Hreach H5. apply reachable_invariant in Hreach as [_ Hp Hst Hl].
  unfold lines_ok in Hl. rewrite decide_True in Hl by done.
  destruct Hl as (rs & cs & ds & Hr & Hc & Hd & _ & _ & _ & Hplay).
  exists rs, cs, ds, (first_five b (rs ++ cs ++ ds)).
  split_and!; [done..|by apply detect_five_spec| | |].
  - unfold first_five.
    destruct (first_nonempty_cases
                ((λ line, first_streak (colors b line)) <$> rs ++ cs ++ ds))
      as [->|(line & -> & Hline)%list_elem_of_fmap]; [in_list|].
    destruct (first_streak_cases (colors b line))
      as [->|(p & -> & Hin)%list_elem_of_fmap]; [in_list|].
    rewrite Forall_forall in Hplay. specialize (Hplay line Hline).
    rewrite Forall_forall in Hplay.
    destruct (cell_playable b p Hp Hst (Hplay p Hin)) as [-> | [-> | ->]]; in_list.
  - intros Hne. unfold first_five in *.
    destruct (first_nonempty_cases
                ((λ line, first_streak (colors b line)) <$> rs ++ cs ++ ds))
      as [He|(line & Heq & Hline)%list_elem_of_fmap]; [done|].
    rewrite Heq in Hne |- *.
    destruct (first_streak_sound _ Hne) as (pre_c & post_c & Hsplit).
    unfold colors in Hsplit at 1.
    apply fmap_app_inv in Hsplit as (pre & rest & _ & Hrest & ->).
    symmetry in Hrest. apply fmap_app_inv in Hrest as (w & post & Hw & _ & ->).
    exists (pre ++ w ++ post), pre, w, post. split_and!; [done|done| |].
    + apply (f_equal length) in Hw. by rewrite length_replicate, length_fmap in Hw.
    + intros p Hin. apply (list_elem_of_fmap_2 (cell b)) in Hin.
      rewrite <- Hw in Hin. by apply elem_of_replicate_inv in Hin.
  - intros He line pre w post c Hline -> Hw Hcells.
    destruct (decide (c = EMPTY)) as [|Hne]; [done|]. exfalso.
    unfold first_five in He.
    assert (first_streak (colors b (pre ++ w ++ post)) = EMPTY) as Hs.
    { apply (first_nonempty_empty _ _ He). apply list_elem_of_fmap.
      by exists (pre ++ w ++ post). }
    unfold colors in Hs. rewrite !fmap_app, (fmap_constant _ w c), Hw in Hs by done.
    by apply (first_streak_window (cell b <$> pre) (cell b <$> post) c).
Qed.

Lemma detect_five_sound_and_complete_witness :
  reachable 25 black_row_5 ∧ 5 ≤ size black_row_5
  ∧ ∃ rs cs ds r,
      rows black_row_5 = Some rs ∧ cols black_row_5 = Some cs
      ∧ diags black_row_5 = Some ds
      ∧ detect_five_in_a_row black_row_5 = Ok r
      ∧ r ∈ [EMPTY; BLACK; WHITE]
      ∧ (r ≠ EMPTY →
         ∃ line pre w post,
           line ∈ rs ++ cs ++ ds ∧ line = pre ++ w ++ post ∧ length w = 5%nat
           ∧ ∀ p, p ∈ w → cell black_row_5 p = r)
      ∧ (r = EMPTY →
         ∀ line pre w post c,
           line ∈ rs ++ cs ++ ds → line = pre ++ w ++ post → length w = 5%nat →
           (∀ p, p ∈ w → cell black_row_5 p = c) → c = EMPTY).
Proof.
  assert (5 ≤ size black_row_5) as H5 by (vm_compute; discriminate).
  split; [exact black_row_5_reachable|]. split; [exact H5|].
  apply (detect_five_sound_and_complete 25 black_row_5 black_row_5_reachable H5).
Defined.

(** ** The order of the candidates *)

Lemma get_order_full (b : GoBoard) (color : Z) :
  get_empty_points b = [] → get_order b color = Ok None.
Proof.
  unfold get_empty_points. intros He.
  unfold get_order, Win, BlockWin, five_points, OpenFour, BlockOpenFour,
    get_empty_points.
  rewrite He. reflexivity.
Qed.

Lemma get_order_inv (b : GoBoard) (color : Z) (o : option (list Z)) :
  get_order b color = Ok o →
  match o with
  | Some l => l ≠ [] ∧ (get_empty_points b = [] → False)
  | None => get_empty_points b = []
  end.
Proof.
  intros Ho.
  destruct (decide (get_empty_points b = [])) as [He|Hne].
  { rewrite (get_order_full b color He) in Ho. by injection Ho as <-. }
  revert Ho. unfold get_order.
  destruct (Win b) as [w| |]; cbn [mbind result_bind]; [|done..].
  case_bool_decide; [by intros [= <-]|].
  destruct (BlockWin b) as [bw| |]; cbn [mbind result_bind]; [|done..].
  case_bool_decide; [by intros [= <-]|].
  destruct (OpenFour b) as [o4| |]; cbn [mbind result_bind]; [|done..].
  case_bool_decide; [by intros [= <-]|].
  destruct (BlockOpenFour b) as [bof| |]; cbn [mbind result_bind]; [|done..].
  case_bool_decide; [by intros [= <-]|].
  case_bool_decide; [by intros [= <-]|].
  intros [= <-]. by destruct (decide (get_empty_points b = [])).
Qed.

(** X10.  [get_order] never returns an empty list: on a board without empty
    points it returns [None], it returns [None] on no other board, and a
    list it returns is not empty; when [Win] finds a point, its list is the
    answer. *)
Theorem get_order_never_empty (b : GoBoard) (color : Z) :
  (get_empty_points b = [] ↔ get_order b color = Ok None)
  ∧ (∀ l, get_order b color = Ok (Some l) → l ≠ [] ∧ get_empty_points b ≠ [])
  ∧ (∀ w, Win b = Ok w → w ≠ [] → get_order b color = Ok (Some w)).
Proof.
  split_and!.
  - split; [apply get_order_full|]. intros Ho. by apply get_order_inv in Ho.
  - intros l Ho. apply get_order_inv in Ho as [? ?]. by split.
  - intros w Hw Hne. unfold get_order. rewrite Hw. cbn [mbind result_bind].
    by rewrite bool_decide_eq_true_2.
Qed.

(** ** Rollouts *)





(** ** Scores and the choice of the best move *)

Lemma max_step (m x : Q) :
  let m' := if Qle_bool x m then m else x in Qle m m' ∧ Qle x m'.
Proof.
  cbn. destruct (Qle_bool x m) eqn:Hle.
  - apply Qle_bool_iff in Hle. split; [apply Qle_refl|done].
  - assert (¬ Qle x m) as Hn by (rewrite <- Qle_bool_iff; congruence).
    split; [apply Qlt_le_weak, Qnot_le_lt, Hn|apply Qle_refl].
Qed.

Lemma foldl_max (rest : list Q) :
  ∀ s, let m := foldl (λ m x, if Qle_bool x m then m else x) s rest in
       Qle s m ∧ (∀ x, x ∈ rest → Qle x m) ∧ m ∈ s :: rest.
Proof.
  induction rest as [|x rest IH]; intros s; cbn [foldl].
  - split_and!; [apply Qle_refl| |by left]. intros x Hx. by apply elem_of_nil in Hx.
  - destruct (max_step s x) as [Hs Hx].
    destruct (IH (if Qle_bool x s then s else x)) as (Hm & Hrest & Hin).
    split_and!.
    + eapply Qle_trans; [exact Hs|exact Hm].
    + intros y [->|Hy]%elem_of_cons; [|by apply Hrest].
      eapply Qle_trans; [exact Hx|exact Hm].
    + apply elem_of_cons in Hin as [Heq|Hin]; [|right; by right].
      rewrite Heq. destruct (Qle_bool x s); [by left|right; by left].
Qed.

Lemma score_index_spec (score : list Q) (m : Q) :
  m ∈ score →
  ∃ i q, score_index score m = Ok i ∧ score !! i = Some q ∧ Qeq q m
         ∧ ∀ j q', (j < i)%nat → score !! j = Some q' → ¬ Qeq q' m.
Proof.
  induction score as [|s score IH]; intros Hin; [by apply elem_of_nil in Hin|].
  cbn [score_index]. destruct (Qeq_bool s m) eqn:Heq.
  - exists 0%nat, s. split_and!; [done|done|by apply Qeq_bool_iff|]. intros; lia.
  - apply Qeq_bool_neq in Heq.
    apply elem_of_cons in Hin as [->|Hin]; [by destruct Heq|].
    destruct (IH Hin) as (i & q & -> & Hq & Hqm & Hfirst).
    exists (S i), q. split_and!; [done..|].
    intros [|j] q' Hj Hq'; [by injection Hq' as <-|].
    eapply Hfirst; [|exact Hq']. lia.
Qed.

Lemma best_move_inv (legal_moves : list Z) (score : list Q) (best : Z) :
  best_move legal_moves score = Ok best →
  ∃ i m, legal_moves !! i = Some best ∧ score !! i = Some m
         ∧ (∀ j q, score !! j = Some q → Qle q m)
         ∧ (∀ j q, (j < i)%nat → score !! j = Some q → Qlt q m).
Proof.
  unfold best_move, max_score. destruct score as [|s rest]; [done|].
  cbn [mbind result_bind].
  destruct (foldl_max rest s) as (Hs & Hrest & Hin).
  set (m := foldl (λ m x, if Qle_bool x m then m else x) s rest) in *.
  destruct (score_index_spec (s :: rest) m Hin) as (i & q & -> & Hq & Hqm & Hfirst).
  cbn [mbind result_bind].
  destruct (legal_moves !! i) as [mv|] eqn:Hmv; [|done]. intros [= <-].
  assert (∀ j q', (s :: rest) !! j = Some q' → Qle q' m) as Hle.
  { intros j q' Hj. apply list_elem_of_lookup_2 in Hj.
    apply elem_of_cons in Hj as [->|Hj]; [done|by apply Hrest]. }
  exists i, q. split_and!; [done..| |].
  - intros j q' Hj. rewrite Hqm. by eapply Hle.
  - intros j q' Hji Hj. rewrite Hqm. pose proof (Hle j q' Hj) as Hcase.
    apply Qle_lteq in Hcase. destruct Hcase as [?|Heq]; [done|]. by destruct (Hfirst j q' Hji Hj).
Qed.

(** X11.  When [best_move] returns, the move is the candidate at the first
    position of a greatest score: no score is greater than the score at that
    position and every score before it is smaller. *)
Theorem best_move_first_maximum (legal_moves : list Z) (score : list Q) (best : Z) :
  best_move legal_moves score = Ok best →
  ∃ i m, legal_moves !! i = Some best ∧ score !! i = Some m
         ∧ (∀ j q, score !! j = Some q → Qle q m)
         ∧ (∀ j q, (j < i)%nat → score !! j = Some q → Qlt q m).
Proof. apply best_move_inv. Qed.

Lemma best_move_first_maximum_witness :
  best_move [7; 8; 9] [Qmake 1 2; Qmake 3 4; Qmake 3 4] = Ok 8
  ∧ ∃ i m, [7; 8; 9] !! i = Some 8
           ∧ [Qmake 1 2; Qmake 3 4; Qmake 3 4] !! i = Some m
           ∧ (∀ j q, [Qmake 1 2; Qmake 3 4; Qmake 3 4] !! j = Some q → Qle q m)
           ∧ (∀ j q, (j < i)%nat →
                [Qmake 1 2; Qmake 3 4; Qmake 3 4] !! j = Some q → Qlt q m).
Proof.
  assert (best_move [7; 8; 9] [Qmake 1 2; Qmake 3 4; Qmake 3 4] = Ok 8) as Hbest
    by (vm_compute; reflexivity).
  split; [exact Hbest|].
  apply (best_move_first_maximum [7; 8; 9] [Qmake 1 2; Qmake 3 4; Qmake 3 4] 8 Hbest).
Defined.

Lemma trials_wins (sim : GoBoard → Z → nat → result (Z * GoBoard * nat))
    (move color : Z) (l : list Z) :
  ∀ (w0 : Z) (t0 : GoBoard) (k0 : nat) (w : Z) (t : GoBoard) (k : nat),
    foldlM (λ '(score_i, temp, k) (j : Z),
              '(_, temp) ← play_move temp (Some move) color;
              '(win, temp, k) ← sim temp color k;
              Ok (if bool_decide (win = 1) then score_i + 1 else score_i, temp, k))
           (w0, t0, k0) l = Ok (w, t, k) →
    w0 ≤ w ≤ w0 + Z.of_nat (length l).
Proof.
  induction l as [|j l IH]; intros w0 t0 k0 w t k; cbn [foldlM].
  - intros [= <- <- <-]. cbn. lia.
  - destruct (play_move t0 (Some move) color) as [[ok t1]| |];
      cbn [mbind result_bind]; [|done..].
    destruct (sim t1 color k0) as [[[win t2] k2]| |]; cbn [mbind result_bind]; [|done..].
    intros H%IH. cbn [length]. case_bool_decide; lia.
Qed.

Lemma true_div_unit (wins n : Z) (q : Q) :
  0 ≤ wins ≤ Z.max 0 n → true_div wins n = Ok q → Qle (Qmake 0 1) q ∧ Qle q (Qmake 1 1).
Proof.
  intros Hw. unfold true_div. case_bool_decide; [done|]. intros [= <-].
  unfold Qdiv, Qmult, Qinv, inject_Z, Qle.
  destruct n as [|p|p]; [done| |]; cbn; lia.
Qed.

Lemma scores_inv (MAXSIZE : Z) (sim : GoBoard → Z → nat → result (Z * GoBoard * nat))
    (n : Z) (board : GoBoard) (color : Z) (l : list Z) :
  ∀ (s0 : list Q) (k0 : nat) (s : list Q) (k : nat),
    foldlM (λ '(score, k) move,
              temp ← copy MAXSIZE board;
              '(wins, _, k) ← trials sim n temp move color k;
              s ← true_div wins n;
              Ok (score ++ [s], k))
           (s0, k0) l = Ok (s, k) →
    length s = (length s0 + length l)%nat
    ∧ (Forall (λ q, Qle (Qmake 0 1) q ∧ Qle q (Qmake 1 1)) s0 →
       Forall (λ q, Qle (Qmake 0 1) q ∧ Qle q (Qmake 1 1)) s).
Proof.
  induction l as [|move l IH]; intros s0 k0 s k; cbn [foldlM].
  - intros [= <- <-]. split; [cbn; lia|done].
  - destruct (copy MAXSIZE board) as [temp| |]; cbn [mbind result_bind]; [|done..].
    destruct (trials sim n temp move color k0) as [[[wins t] k1]| |] eqn:Ht;
      cbn [mbind result_bind]; [|done..].
    destruct (true_div wins n) as [q| |] eqn:Hq; cbn [mbind result_bind]; [|done..].
    intros [Hlen Hall]%IH. rewrite length_app in Hlen. cbn [length] in *.
    split; [lia|]. intros Hs0. apply Hall. apply Forall_app. split; [done|].
    apply Forall_singleton. apply (true_div_unit wins n q); [|done].
    unfold trials in Ht. apply trials_wins in Ht. rewrite length_seqZ in Ht. lia.
Qed.

(** X12.  When the loop over the candidates of [simulation] completes, the
    list [score] has one score for every candidate and every score lies
    between 0 and 1. *)
Theorem scores_in_unit_interval (MAXSIZE : Z)
    (sim : GoBoard → Z → nat → result (Z * GoBoard * nat))
    (n : Z) (board : GoBoard) (color : Z) (legal_moves : list Z) (k : nat)
    (score : list Q) (k' : nat) :
  scores MAXSIZE sim n board color legal_moves k = Ok (score, k') →
  length score = length legal_moves
  ∧ Forall (λ q, Qle (Qmake 0 1) q ∧ Qle q (Qmake 1 1)) score.
Proof.
  unfold scores. intros [Hlen Hall]%scores_inv. split; [done|]. by apply Hall.
Qed.

Lemma scores_in_unit_interval_witness :
  scores 25 (sim_for_one some_draws) 10 black_row_5 BLACK [13; 14] 0
  = Ok ([Qmake 10 10; Qmake 10 10], 0%nat)
  ∧ (length [Qmake 10 10; Qmake 10 10] = length [13; 14]
     ∧ Forall (λ q, Qle (Qmake 0 1) q ∧ Qle q (Qmake 1 1))
              [Qmake 10 10; Qmake 10 10]).
Proof.
  assert (scores 25 (sim_for_one some_draws) 10 black_row_5 BLACK [13; 14] 0
          = Ok ([Qmake 10 10; Qmake 10 10], 0%nat)) as Hs by (vm_compute; reflexivity).
  split; [exact Hs|].
  apply (scores_in_unit_interval 25 (sim_for_one some_draws) 10 black_row_5 BLACK
           [13; 14] 0 _ 0%nat Hs).
Defined.

(** X15.  When [simulation] returns a point, the point is one of its
    candidates: an empty point of the board under the random policy, a point
    of the list of [get_order] under the rule-based policy. *)
Theorem simulation_returns_candidate (MAXSIZE : Z) (rand : nat → nat)
    (self : Gomoku) (depth : nat) (board : GoBoard) (color : Z)
    (policy : policy) (k : nat) (best : Z) :
  simulation MAXSIZE rand self depth board color policy k = Ok best →
  match policy with
  | random => best ∈ get_empty_points board
  | rule_based =>
      ∃ l, get_order board color = Ok (Some l) ∧ best ∈ l
  end.
Proof.
  unfold simulation. destruct policy.
  - destruct (scores _ _ _ _ _ _ _) as [[score k1]| |]; cbn [mbind result_bind]; [|done..].
    intros (i & _ & Hi & _)%best_move_inv. by eapply list_elem_of_lookup_2.
  - destruct (get_order board color) as [[l|]| |]; cbn [mbind result_bind]; [|done..].
    destruct (scores _ _ _ _ _ _ _) as [[score k1]| |]; cbn [mbind result_bind]; [|done..].
    intros (i & _ & Hi & _)%best_move_inv. exists l. split; [done|].
    by eapply list_elem_of_lookup_2.
Qed.

Lemma simulation_returns_candidate_witness :
  simulation 25 some_draws Gomoku_init 100 black_row_5 BLACK random 0 = Ok 13
  ∧ 13 ∈ get_empty_points black_row_5.
Proof.
  assert (simulation 25 some_draws Gomoku_init 100 black_row_5 BLACK random 0 = Ok 13)
    as Hsim by (vm_compute; reflexivity).
  split; [exact Hsim|].
  apply (simulation_returns_candidate 25 some_draws Gomoku_init 100 black_row_5
           BLACK random 0 13 Hsim).
Defined.

(** ** Resetting a board *)

Lemma mapM_ext {A B : Type} (f g : A → result B) (l : list A) :
  (∀ x, f x = g x) → mapM f l = mapM g l.
Proof. intros Hfg. induction l as [|x l IH]; [done|]. cbn. by rewrite Hfg, IH. Qed.

(** The walks of the precomputation read the array only. *)
Lemma collect_empty_array (a b : GoBoard) (fuel : nat) (pt step : Z) :
  board a = board b → collect_empty fuel a pt step = collect_empty fuel b pt step.
Proof.
  intros Hbd. revert pt. induction fuel as [|fuel IH]; intros pt; [done|].
  cbn [collect_empty]. unfold get_color. rewrite Hbd.
  destruct (array_get (board b) pt) as [c| |]; cbn [mbind result_bind]; [|done..].
  by rewrite IH.
Qed.

(** From size 5 on the precomputation does not read the line lists the object
    has: two objects that differ in these lists only get the same lists. *)
Lemma calculate_forgets_lines (a : GoBoard) (rs cs ds : option (list (list Z))) :
  5 ≤ size a →
  calculate_rows_cols_diags
    (mkGoBoard (size a) (NS a) (WE a) (ko_recapture a) (last_move a) (last2_move a)
       (current_player a) (maxpoint a) (board a) rs cs ds)
  = calculate_rows_cols_diags a.
Proof.
  intros H5.
  set (b := mkGoBoard (size a) (NS a) (WE a) (ko_recapture a) (last_move a)
              (last2_move a) (current_player a) (maxpoint a) (board a) rs cs ds).
  unfold calculate_rows_cols_diags.
  change (size b) with (size a). change (NS b) with (NS a).
  rewrite bool_decide_eq_false_2 by lia.
  change (row_and_col b) with (row_and_col a).
  change (row_start b) with (row_start a).
  destruct (mapM (row_and_col a) _) as [rc| |]; cbn [mbind result_bind]; [|done..].
  destruct (row_start a 1) as [start| |]; cbn [mbind result_bind]; [|done..].
  rewrite (mapM_ext (diags_from_top b) (diags_from_top a))
    by (intros; unfold diags_from_top, walk_budget;
        by rewrite (collect_empty_array b a)).
  destruct (mapM (diags_from_top a) _) as [d1| |]; cbn [mbind result_bind]; [|done..].
  destruct (row_start a (size a)) as [last| |]; cbn [mbind result_bind]; [|done..].
  rewrite (mapM_ext (diags_from_left b) (diags_from_left a))
    by (intros; unfold diags_from_left, walk_budget;
        by rewrite !(collect_empty_array b a)).
  destruct (mapM (diags_from_left a) _) as [d2| |]; cbn [mbind result_bind]; [|done..].
  rewrite (mapM_ext (diags_from_bottom b) (diags_from_bottom a))
    by (intros; unfold diags_from_bottom, walk_budget;
        by rewrite (collect_empty_array b a)).
  done.
Qed.

Lemma reset_any_object (self : GoBoard) (s : Z) :
  5 ≤ s → reset self s = reset new_object s.
Proof.
  intros H5. unfold reset.
  destruct (bool_decide (s * s + 3 * (s + 1) < 0)); [done|].
  set (m := s * s + 3 * (s + 1)).
  set (a := mkGoBoard s (s + 1) 1 None None None BLACK m
              (replicate (Z.to_nat m) BORDER)
              (rows new_object) (cols new_object) (diags new_object)).
  set (b := mkGoBoard s (s + 1) 1 None None None BLACK m
              (replicate (Z.to_nat m) BORDER) (rows self) (cols self) (diags self)).
  change (_initialize_empty_points b (board b))
    with (_initialize_empty_points a (board a)).
  destruct (_initialize_empty_points a (board a)) as [bd| |];
    cbn [mbind result_bind]; [|done..].
  apply (calculate_forgets_lines (set_board a bd) (rows self) (cols self) (diags self)).
  done.
Qed.

(** The second precomputation of the constructor changes nothing. *)
Lemma calculate_twice (a b : GoBoard) :
  5 ≤ size a → calculate_rows_cols_diags a = Ok b → calculate_rows_cols_diags b = Ok b.
Proof.
  intros H5 Ha.
  assert (∃ rs cs ds, b = set_lines a rs cs ds) as (rs & cs & ds & ->).
  { revert Ha. unfold calculate_rows_cols_diags.
    rewrite bool_decide_eq_false_2 by lia.
    repeat (match goal with
            | |- context [mbind _ ?x] =>
                destruct x; cbn [mbind result_bind]; [|done..]
            end).
    intros [= <-]. by eexists _, _, _. }
  rewrite <- Ha.
  apply (calculate_forgets_lines a (Some rs) (Some cs) (Some ds) H5).
Qed.

(** X14.  [reset(size)] succeeds on any object for a size that is not
    negative.  From size 5 up to MAXSIZE the board it leaves is the board the
    constructor returns for that size, whatever the object held before;
    below size 5 the object keeps the line lists it had. *)
Theorem reset_rebuilds_start_state (MAXSIZE : Z) (self : GoBoard) (s : Z) :
  0 ≤ s →
  ∃ b, reset self s = Ok b
       ∧ (5 ≤ s ≤ MAXSIZE → GoBoard_init MAXSIZE s = Ok b)
       ∧ (s < 5 → rows b = rows self ∧ cols b = cols self ∧ diags b = diags self).
Proof.
  intros Hs.
  destruct (reset_Ok self s Hs) as (b & Hb & _ & _ & Hsz & _ & _ & Hsmall).
  exists b. split_and!; [done| |done].
  intros H5. unfold GoBoard_init.
  rewrite assert_true by (apply bool_decide_eq_true_2; lia).
  cbn [mbind result_bind].
  rewrite <- (reset_any_object self s) by lia. rewrite Hb. cbn [mbind result_bind].
  destruct (reset_array self s Hs) as (b0 & Hb0 & _ & _ & Hsz0 & _).
  rewrite Hb0 in Hb. apply (calculate_twice b0); [lia|done].
Qed.

Lemma reset_rebuilds_start_state_witness :
  0 ≤ 5
  ∧ ∃ b, reset black_row_5 5 = Ok b
         ∧ (5 ≤ 5 ≤ 25 → GoBoard_init 25 5 = Ok b)
         ∧ (5 < 5 → rows b = rows black_row_5 ∧ cols b = cols black_row_5
                    ∧ diags b = diags black_row_5).
Proof.
  assert (0 ≤ 5) as Hs by lia.
  split; [exact Hs|]. apply (reset_rebuilds_start_state 25 black_row_5 5 Hs).
Defined.

(** ** The probes of the second family *)

(** The count of a walk, the cell it stops at and the content of that cell
    do not depend on what the walk does to the flag. *)
Lemma probe_loop_turn (self : GoBoard) (step color : Z) (turn turn' : Z → Z)
    (fuel : nat) :
  ∀ (start samecolor d d' n dd c p : Z),
    probe_loop fuel self start step color turn samecolor d = Ok (n, dd, c, p) →
    ∃ dd', probe_loop fuel self start step color turn' samecolor d' = Ok (n, dd', c, p).
Proof.
  induction fuel as [|fuel IH]; intros st samecolor d d' n dd c p; [done|].
  cbn [probe_loop].
  destruct (array_get (board self) (st + step)) as [x| |]; cbn [mbind result_bind];
    [|done..].
  case_bool_decide; [apply IH|]. intros [= <- <- <- <-]. by eexists.
Qed.

(** A probe of the second family reports the run and the space the probe of
    the first family reports. *)
Lemma probe2_probe (self : GoBoard) (i color step n sp d s1 s2 : Z) :
  probe2 self i color step = Ok (n, sp, d, s1, s2) →
  probe self i color step = Ok (n, sp).
Proof.
  unfold probe2, probe.
  destruct (array_get (board self) i) as [x| |]; cbn [mbind result_bind]; [|done..].
  destruct (probe_loop _ self i step color (λ _, 1) 1 0)
    as [[[[m1 f1] c1] p1]| |] eqn:H1; cbn [mbind result_bind]; [|done..].
  destruct (probe_loop_turn _ _ _ _ id _ _ _ _ 0 _ _ _ _ H1) as (f1' & ->).
  cbn [mbind result_bind].
  destruct (probe_loop _ self i (- step) color _ m1 f1)
    as [[[[m2 f2] c2] p2]| |] eqn:H2; [|by destruct (bool_decide (c1 = EMPTY))..].
  destruct (probe_loop_turn _ _ _ _ id _ _ _ _ 0 _ _ _ _ H2) as (f2' & ->).
  cbn [mbind result_bind].
  destruct (bool_decide (c1 = EMPTY)), (bool_decide (c2 = EMPTY));
    cbn [mbind result_bind]; by intros [= <- <- <- <- <-].
Qed.

Lemma flag_iter (n1 n2 : nat) :
  let d := Nat.iter n2 (λ d, if bool_decide (d = 1) then 0 else -1)
             (Nat.iter n1 (λ _, 1) 0) in
  (d = 1 ↔ (0 < n1)%nat ∧ n2 = 0%nat)
  ∧ (d = 0 ↔ (n1 = 0%nat ∧ n2 = 0%nat) ∨ ((0 < n1)%nat ∧ n2 = 1%nat))
  ∧ (d = -1 ↔ (n1 = 0%nat ∧ (0 < n2)%nat) ∨ (1 < n2)%nat).
Proof.
  destruct n1 as [|n1], n2 as [|[|n2]]; rewrite ?Nat.iter_succ; cbn beta;
    repeat match goal with
           | |- context [Nat.iter O ?f ?x] => change (Nat.iter O f x) with x
           | |- context [Nat.iter ?n ?f ?x] =>
               is_var n; generalize (Nat.iter n f x); intro
           end;
    cbn beta; repeat case_bool_decide; lia.
Qed.

Lemma probe2_padded (b : GoBoard) (row col color dr dc : Z) :
  padded b → on_board (size b) row col → color ≠ BORDER →
  -1 ≤ dr ≤ 1 → -1 ≤ dc ≤ 1 → (dr ≠ 0 ∨ dc ≠ 0) →
  run_and_ends b (pt b row col) color (dr * NS b + dc)
    (probe2 b (pt b row col) color (dr * NS b + dc)).
Proof.
  intros Hp Hon Hcol Hdr Hdc Hdir.
  assert (∃ n1 n2 e1 e2 d,
            probe2 b (pt b row col) color (dr * NS b + dc)
            = Ok (1 + Z.of_nat n1 + Z.of_nat n2,
                  (if bool_decide (e1 = EMPTY) then 1 else 0)
                  + (if bool_decide (e2 = EMPTY) then 1 else 0), d,
                  if bool_decide (e1 = EMPTY)
                  then pt b row col + (Z.of_nat n1 + 1) * (dr * NS b + dc) else -1,
                  if bool_decide (e2 = EMPTY)
                  then pt b row col - (Z.of_nat n2 + 1) * (dr * NS b + dc) else -1)
            ∧ (∀ j, 1 ≤ j ≤ Z.of_nat n1 →
                 get_color b (pt b row col + j * (dr * NS b + dc)) = Ok color)
            ∧ (∀ j, 1 ≤ j ≤ Z.of_nat n2 →
                 get_color b (pt b row col - j * (dr * NS b + dc)) = Ok color)
            ∧ get_color b (pt b row col + (Z.of_nat n1 + 1) * (dr * NS b + dc)) = Ok e1
            ∧ e1 ≠ color
            ∧ get_color b (pt b row col - (Z.of_nat n2 + 1) * (dr * NS b + dc)) = Ok e2
            ∧ e2 ≠ color
            ∧ d = Nat.iter n2 (λ d, if bool_decide (d = 1) then 0 else -1)
                    (Nat.iter n1 (λ _, 1) 0))
    as (n1 & n2 & e1 & e2 & d & Hanswer & Hc1 & Hc2 & He1 & Hne1 & He2 & Hne2 & Hd).
  { unfold probe2.
    destruct (padded_cell _ Hp row col) as (x0 & Hx0 & _);
      [unfold on_board in Hon; lia..|].
    rewrite (get_color_pt _ _ _ x0) by (done || unfold on_board in Hon; lia).
    cbn [mbind result_bind].
    pose proof (room_le_size (size b) dr dc row col Hdr Hdc Hdir Hon) as Hroom1.
    pose proof (walk_budget_ge_size b Hp) as Hbudget.
    destruct (probe_loop_padded b dr dc color (λ _, 1) Hp Hcol Hdr Hdc Hdir
                (walk_budget b) row col 1 0 Hon ltac:(lia))
      as (n1 & e1 & -> & Hn1 & Hne1 & Hstop1 & Hsr1 & Hsc1 & Hcells1).
    cbn [mbind result_bind].
    replace (- (dr * NS b + dc)) with (- dr * NS b + - dc) by lia.
    assert (- dr ≠ 0 ∨ - dc ≠ 0) as Hdir' by lia.
    pose proof (room_le_size (size b) (- dr) (- dc) row col
                  ltac:(lia) ltac:(lia) Hdir' Hon) as Hroom2.
    assert (∀ j, pt b row col + j * (dr * NS b + dc)
                 = pt b (row + j * dr) (col + j * dc))
      as Hplus by (intros; unfold pt; ring).
    assert (∀ j, pt b row col - j * (dr * NS b + dc)
                 = pt b (row + j * - dr) (col + j * - dc))
      as Hminus by (intros; unfold pt; ring).
    exists n1.
    destruct (bool_decide (e1 = EMPTY)) eqn:Hempty1;
      (destruct (probe_loop_padded b (- dr) (- dc) color
                   (λ d, if bool_decide (d = 1) then 0 else -1) Hp Hcol
                   ltac:(lia) ltac:(lia) Hdir'
                   (walk_budget b) row col (1 + Z.of_nat n1)
                   (Nat.iter n1 (λ _, 1) 0) Hon ltac:(lia))
         as (n2 & e2 & -> & Hn2 & Hne2 & Hstop2 & Hsr2 & Hsc2 & Hcells2);
       cbn [mbind result_bind];
       exists n2, e1, e2, (Nat.iter n2 (λ d, if bool_decide (d = 1) then 0 else -1)
                             (Nat.iter n1 (λ _, 1) 0));
       rewrite Hempty1, !Hplus, !Hminus; unfold get_color;
       split_and!; [|..|done| |done|done]).
    all: try (by destruct (bool_decide (e2 = EMPTY))).
    all: try (intros j Hj; rewrite ?Hplus, ?Hminus;
              first [destruct (Hcells1 j Hj) as [Hin Hcell]
                    |destruct (Hcells2 j Hj) as [Hin Hcell]];
              apply get_color_pt; [done| | |done]; unfold on_board in Hin; lia).
    all: try (rewrite ?Hplus, ?Hminus; apply get_color_pt; [done|lia..|done]). }
  exists n1, n2, e1, e2, d. cbn zeta.
  pose proof (flag_iter n1 n2) as Hflag. cbn zeta in Hflag. rewrite <- Hd in Hflag.
  split_and!; try done; try apply Hflag.
  by apply probe2_probe in Hanswer.
Qed.

(** X16.  On every board the program can hold, at every playable point and
    for every colour other than BORDER, [checkrow2], [checkcol2], [checkd12]
    and [checkd22] return.  The run and the space they report are those of
    [checkrow], [checkcol], [checkd1] and [checkd2].  The flag is 1 when the
    run has stones ahead of the point and none behind, 0 when the run is the
    point alone or has stones ahead and exactly one behind, -1 in every other
    case.  Each of the last two components is the index of the cell that ends
    the run on that side when the cell is EMPTY, and -1 when it is not. *)
Theorem second_probes_measure_run_and_ends (MAXSIZE : Z) (b : GoBoard)
    (row col color : Z) :
  reachable MAXSIZE b → on_board (size b) row col → color ≠ BORDER →
  let i := pt b row col in
  run_and_ends b i color 1 (checkrow2 b i color)
  ∧ run_and_ends b i color (NS b) (checkcol2 b i color)
  ∧ run_and_ends b i color (NS b + 1) (checkd12 b i color)
  ∧ run_and_ends b i color (NS b - 1) (checkd22 b i color).
Proof.
  intros [_ Hp _ _]%reachable_invariant Hon Hcol i. unfold i.
  unfold checkrow2, checkcol2, checkd12, checkd22.
  assert (∀ step, step ∈ axes b →
            run_and_ends b (pt b row col) color step
              (probe2 b (pt b row col) color step)) as Haxes.
  { intros step (dr & dc & -> & Hdr & Hdc & Hdir)%axes_direction.
    by apply probe2_padded. }
  split_and!; apply Haxes; unfold axes; in_list.
Qed.

Lemma second_probes_measure_run_and_ends_witness :
  reachable 25 black_row_5 ∧ on_board (size black_row_5) 2 1 ∧ BLACK ≠ BORDER
  ∧ (run_and_ends black_row_5 (pt black_row_5 2 1) BLACK 1
       (checkrow2 black_row_5 (pt black_row_5 2 1) BLACK)
     ∧ run_and_ends black_row_5 (pt black_row_5 2 1) BLACK (NS black_row_5)
         (checkcol2 black_row_5 (pt black_row_5 2 1) BLACK)
     ∧ run_and_ends black_row_5 (pt black_row_5 2 1) BLACK (NS black_row_5 + 1)
         (checkd12 black_row_5 (pt black_row_5 2 1) BLACK)
     ∧ run_and_ends black_row_5 (pt black_row_5 2 1) BLACK (NS black_row_5 - 1)
         (checkd22 black_row_5 (pt black_row_5 2 1) BLACK)).
Proof.
  assert (on_board (size black_row_5) 2 1) as Hon by (vm_compute; intuition discriminate).
  assert (BLACK ≠ BORDER) as Hcol by discriminate.
  split; [exact black_row_5_reachable|]. split; [exact Hon|]. split; [exact Hcol|].
  apply (second_probes_measure_run_and_ends 25 black_row_5 2 1 BLACK
           black_row_5_reachable Hon Hcol).
Defined.

(** ** The points of [BlockOpenFour] *)

Lemma mapM_inv {A B : Type} (f : A → result B) (l : list A) :
  ∀ out, mapM f l = Ok out → Forall2 (λ x y, f x = Ok y) l out.
Proof.
  induction l as [|x l IH]; intros out; cbn.
  - intros [= <-]. constructor.
  - destruct (f x) as [y| |] eqn:Hy; cbn [mbind result_bind]; [|done..].
    destruct (mapM f l) as [ys| |]; cbn [mbind result_bind]; [|done..].
    intros [= <-]. constructor; [done|by apply IH].
Qed.

(** The cell a walk stops at is the cell whose content it answers. *)
Lemma probe_loop_stop (self : GoBoard) (step color : Z) (turn : Z → Z) (fuel : nat) :
  ∀ (start samecolor d n dd c p : Z),
    probe_loop fuel self start step color turn samecolor d = Ok (n, dd, c, p) →
    array_get (board self) p = Ok c.
Proof.
  induction fuel as [|fuel IH]; intros st samecolor d n dd c p; [done|].
  cbn [probe_loop].
  destruct (array_get (board self) (st + step)) as [x| |] eqn:Hx;
    cbn [mbind result_bind]; [|done..].
  case_bool_decide; [apply IH|]. by intros [= <- <- <- <-].
Qed.

Lemma probe2_ends (self : GoBoard) (i color step n d s1 s2 : Z) :
  probe2 self i color step = Ok (n, 2, d, s1, s2) →
  get_color self s1 = Ok EMPTY ∧ get_color self s2 = Ok EMPTY.
Proof.
  unfold probe2, get_color.
  destruct (array_get (board self) i) as [x| |]; cbn [mbind result_bind]; [|done..].
  destruct (probe_loop _ self i step color (λ _, 1) 1 0)
    as [[[[m1 f1] c1] p1]| |] eqn:H1; cbn [mbind result_bind]; [|done..].
  apply probe_loop_stop in H1.
  destruct (probe_loop _ self i (- step) color _ m1 f1)
    as [[[[m2 f2] c2] p2]| |] eqn:H2; [|by destruct (bool_decide (c1 = EMPTY))..].
  apply probe_loop_stop in H2.
  case_bool_decide; cbn [mbind result_bind]; case_bool_decide;
    cbn [mbind result_bind]; intros Heq; inversion Heq; by subst.
Qed.

Lemma one_sided_inv (b : GoBoard) (i d far : Z) (a : list Z) :
  get_color b i = Ok EMPTY → one_sided b i d far = Ok a →
  ∀ p, p ∈ a → get_color b p = Ok EMPTY.
Proof.
  intros Hi. unfold one_sided, get_color in *.
  repeat case_bool_decide.
  - destruct (array_get (board b) (i + far)) as [c| |] eqn:Hc;
      cbn [mbind result_bind]; [|done..].
    case_bool_decide; intros [= <-] p; rewrite ?elem_of_cons, elem_of_nil;
      [|done]. intros [->|[->|[]]]; [by subst|done].
  - destruct (array_get (board b) (i - far)) as [c| |] eqn:Hc;
      cbn [mbind result_bind]; [|done..].
    case_bool_decide; intros [= <-] p; rewrite ?elem_of_cons, elem_of_nil;
      [|done]. intros [->|[->|[]]]; [by subst|done].
  - intros [= <-] p. by rewrite elem_of_nil.
Qed.

Lemma one_sided_row_inv (b : GoBoard) (i rd : Z) (a : list Z) :
  get_color b i = Ok EMPTY → one_sided_row b i rd = Ok a →
  ∀ p, p ∈ a →
    get_color b p = Ok EMPTY
    ∨ (p = i + 5 ∧ rd = -1 ∧ get_color b (i - 5) = Ok EMPTY).
Proof.
  intros Hi. unfold one_sided_row, get_color in *.
  repeat case_bool_decide.
  - destruct (array_get (board b) (i + 5)) as [c| |] eqn:Hc;
      cbn [mbind result_bind]; [|done..].
    case_bool_decide; intros [= <-] p; rewrite ?elem_of_cons, elem_of_nil;
      [|done]. intros [->|[->|[]]]; left; [by subst|done].
  - destruct (array_get (board b) (i - 5)) as [c| |] eqn:Hc;
      cbn [mbind result_bind]; [|done..].
    case_bool_decide; intros [= <-] p; rewrite ?elem_of_cons, elem_of_nil;
      [|done]. intros [->|[->|[]]]; [right; by subst|by left].
  - intros [= <-] p. by rewrite elem_of_nil.
Qed.

Lemma elem_of_concat {A : Type} (x : A) (ls : list (list A)) :
  x ∈ concat ls ↔ ∃ l, x ∈ l ∧ l ∈ ls.
Proof.
  induction ls as [|l ls IH]; cbn [concat].
  - split; [by intros ?%elem_of_nil|]. by intros (l & _ & ?%elem_of_nil).
  - rewrite elem_of_app, IH. split.
    + intros [Hx|(l' & Hx & Hl')]; [exists l; split; [done|by left]|].
      exists l'. split; [done|by right].
    + intros (l' & Hx & [->|Hl']%elem_of_cons); [by left|right]. by exists l'.
Qed.

Lemma elem_of_if_one (P : Prop) `{Decision P} (p i : Z) :
  p ∈ (if bool_decide P then [i] else []) → P ∧ p = i.
Proof.
  destruct (decide P) as [HP|HP].
  - rewrite bool_decide_eq_true_2 by done. by intros ->%list_elem_of_singleton.
  - rewrite bool_decide_eq_false_2 by done. by intros ?%elem_of_nil.
Qed.

Lemma elem_of_if_two (P : Prop) `{Decision P} (p s1 s2 : Z) :
  p ∈ (if bool_decide P then [s1; s2] else []) → P ∧ (p = s1 ∨ p = s2).
Proof.
  destruct (decide P) as [HP|HP].
  - rewrite bool_decide_eq_true_2 by done.
    rewrite !elem_of_cons, elem_of_nil. tauto.
  - rewrite bool_decide_eq_false_2 by done. by intros ?%elem_of_nil.
Qed.

Lemma elem_of_if_Ok (P : Prop) `{Decision P} (r : result (list Z)) (a : list Z) (p : Z) :
  (if bool_decide P then r else Ok []) = Ok a → p ∈ a → P ∧ r = Ok a.
Proof.
  destruct (decide P) as [HP|HP].
  - by rewrite bool_decide_eq_true_2 by done.
  - rewrite bool_decide_eq_false_2 by done. intros [= <-]. by intros ?%elem_of_nil.
Qed.

Lemma block_open_four_at_inv (b : GoBoard) (color i : Z) (out : list Z) :
  get_color b i = Ok EMPTY →
  block_open_four_at b color i = Ok out →
  (∀ p, p ∈ out →
     get_color b p = Ok EMPTY
     ∨ (p = i + 5
        ∧ (∃ s1 s2, checkrow2 b i color = Ok (4, 1, -1, s1, s2))
        ∧ get_color b (i - 5) = Ok EMPTY))
  ∧ (∀ step, step ∈ axes b → probe b i color step = Ok (4, 2) → i ∈ out).
Proof.
  intros Hi. unfold block_open_four_at.
  destruct (checkrow2 b i color) as [[[[[rowc rows] rd] rs1] rs2]| |] eqn:Hrow;
    cbn [mbind result_bind]; [|done..].
  destruct (checkcol2 b i color) as [[[[[colc cols] cd] cs1] cs2]| |] eqn:Hcol;
    cbn [mbind result_bind]; [|done..].
  destruct (checkd12 b i color) as [[[[[d1c d1s] d1] ds1] ds2]| |] eqn:Hd1;
    cbn [mbind result_bind]; [|done..].
  destruct (checkd22 b i color) as [[[[[d2c d2s] d2] d21] d22]| |] eqn:Hd2;
    cbn [mbind result_bind]; [|done..].
  destruct (if bool_decide (rowc = 4 ∧ rows = 1) then _ else _) as [a1| |] eqn:Ha1;
    cbn [mbind result_bind]; [|done..].
  destruct (if bool_decide (colc = 4 ∧ cols = 1) then _ else _) as [a2| |] eqn:Ha2;
    cbn [mbind result_bind]; [|done..].
  destruct (if bool_decide (d1c = 4 ∧ d1s = 1) then _ else _) as [a3| |] eqn:Ha3;
    cbn [mbind result_bind]; [|done..].
  destruct (if bool_decide (d2c = 4 ∧ d2s = 1) then _ else _) as [a4| |] eqn:Ha4;
    cbn [mbind result_bind]; [|done..].
  intros [= <-]. split.
  - intros p. rewrite !elem_of_app.
    intros [Hp|[Hp|[Hp|[Hp|[Hp|[Hp|[Hp|[Hp|[Hp|[Hp|[Hp|Hp]]]]]]]]]]].
    + destruct (elem_of_if_Ok _ _ _ _ Ha1 Hp) as [[-> ->] Hs].
      destruct (one_sided_row_inv b i rd a1 Hi Hs p Hp) as [?|(-> & -> & ?)];
        [by left|right]. split_and!; [done|by eexists _, _|done].
    + left. destruct (elem_of_if_Ok _ _ _ _ Ha2 Hp) as [_ Hs].
      by apply (one_sided_inv _ _ _ _ _ Hi Hs).
    + left. destruct (elem_of_if_Ok _ _ _ _ Ha3 Hp) as [_ Hs].
      by apply (one_sided_inv _ _ _ _ _ Hi Hs).
    + left. destruct (elem_of_if_Ok _ _ _ _ Ha4 Hp) as [_ Hs].
      by apply (one_sided_inv _ _ _ _ _ Hi Hs).
    + left. by apply elem_of_if_one in Hp as [_ ->].
    + left. by apply elem_of_if_one in Hp as [_ ->].
    + left. by apply elem_of_if_one in Hp as [_ ->].
    + left. by apply elem_of_if_one in Hp as [_ ->].
    + left. apply elem_of_if_two in Hp as [(-> & -> & ->) Hp].
      destruct (probe2_ends _ _ _ _ _ _ _ _ Hrow). by destruct Hp as [-> | ->].
    + left. apply elem_of_if_two in Hp as [(-> & -> & ->) Hp].
      destruct (probe2_ends _ _ _ _ _ _ _ _ Hcol). by destruct Hp as [-> | ->].
    + left. apply elem_of_if_two in Hp as [(-> & -> & ->) Hp].
      destruct (probe2_ends _ _ _ _ _ _ _ _ Hd1). by destruct Hp as [-> | ->].
    + left. apply elem_of_if_two in Hp as [(-> & -> & ->) Hp].
      destruct (probe2_ends _ _ _ _ _ _ _ _ Hd2). by destruct Hp as [-> | ->].
  - intros step Hstep Hprobe. rewrite !elem_of_app.
    apply probe2_probe in Hrow, Hcol, Hd1, Hd2.
    unfold axes in Hstep. rewrite !elem_of_cons, elem_of_nil in Hstep.
    destruct Hstep as [->|[->|[->|[->|[]]]]].
    + rewrite Hprobe in Hrow. injection Hrow as <- <-.
      do 4 right. left. rewrite bool_decide_eq_true_2 by done. by left.
    + rewrite Hprobe in Hcol. injection Hcol as <- <-.
      do 5 right. left. rewrite bool_decide_eq_true_2 by done. by left.
    + rewrite Hprobe in Hd1. injection Hd1 as <- <-.
      do 6 right. left. rewrite bool_decide_eq_true_2 by done. by left.
    + rewrite Hprobe in Hd2. injection Hd2 as <- <-.
      do 7 right. left. rewrite bool_decide_eq_true_2 by done. by left.
Qed.

(** X17.  When [BlockOpenFour] returns, its list has no repetition.  Every
    point of the list reads EMPTY on the board, except that the list may hold
    [i + 5] for an empty point [i] at which the probe of the row for the
    opponent reports run 4, space 1 and the flag -1, and five points before
    which the board reads EMPTY.  Every empty point at which some probe for
    the opponent reports a run of 4 with a space of 2 is in the list. *)
Theorem block_open_four_points (b : GoBoard) (l : list Z) :
  BlockOpenFour b = Ok l →
  let color := opponent (current_player b) in
  NoDup l
  ∧ (∀ p, p ∈ l →
       get_color b p = Ok EMPTY
       ∨ ∃ i, i ∈ get_empty_points b ∧ p = i + 5
              ∧ (∃ s1 s2, checkrow2 b i color = Ok (4, 1, -1, s1, s2))
              ∧ get_color b (i - 5) = Ok EMPTY)
  ∧ (∀ i, i ∈ get_empty_points b →
       (∃ step, step ∈ axes b ∧ probe b i color step = Ok (4, 2)) → i ∈ l).
Proof.
  unfold BlockOpenFour. fold (opponent (current_player b)).
  fold (get_empty_points b).
  destruct (mapM _ (get_empty_points b)) as [outs| |] eqn:Hmap;
    cbn [mbind result_bind]; [|done..].
  intros [= <-]. apply mapM_inv in Hmap.
  assert (∀ i, i ∈ get_empty_points b → get_color b i = Ok EMPTY) as Hempty.
  { intros i [Hi Hx]%elem_of_where1d_eq. by apply array_get_Ok. }
  split_and!.
  - apply NoDup_remove_dups.
  - intros p Hp. apply elem_of_remove_dups, elem_of_concat in Hp as (out & Hp & Hout).
    apply list_elem_of_lookup in Hout as (k & Hk).
    destruct (Forall2_lookup_r _ _ _ _ _ Hmap Hk) as (i & Hi & Hat).
    apply list_elem_of_lookup_2 in Hi.
    destruct (block_open_four_at_inv b _ i out (Hempty i Hi) Hat) as [Hpoints _].
    destruct (Hpoints p Hp) as [?|(-> & ? & ?)]; [by left|right]. by exists i.
  - intros i Hi (step & Hstep & Hprobe).
    apply list_elem_of_lookup in Hi as Hlook. destruct Hlook as (k & Hk).
    destruct (Forall2_lookup_l _ _ _ _ _ Hmap Hk) as (out & Hout & Hat).
    destruct (block_open_four_at_inv b _ i out (Hempty i Hi) Hat) as [_ Hopen].
    apply elem_of_remove_dups, elem_of_concat. exists out.
    split; [by eapply Hopen|by eapply list_elem_of_lookup_2].
Qed.

Lemma block_open_four_points_witness :
  BlockOpenFour white_row_7 = Ok [35; 44; 39]
  ∧ (NoDup [35; 44; 39]
     ∧ (∀ p, p ∈ [35; 44; 39] →
          get_color white_row_7 p = Ok EMPTY
          ∨ ∃ i, i ∈ get_empty_points white_row_7 ∧ p = i + 5
                 ∧ (∃ s1 s2, checkrow2 white_row_7 i
                               (opponent (current_player white_row_7))
                             = Ok (4, 1, -1, s1, s2))
                 ∧ get_color white_row_7 (i - 5) = Ok EMPTY)
     ∧ (∀ i, i ∈ get_empty_points white_row_7 →
          (∃ step, step ∈ axes white_row_7
                   ∧ probe white_row_7 i (opponent (current_player white_row_7)) step
                     = Ok (4, 2)) →
          i ∈ [35; 44; 39])).
Proof.
  assert (BlockOpenFour white_row_7 = Ok [35; 44; 39]) as Hl by (vm_compute; reflexivity).
  split; [exact Hl|]. apply (block_open_four_points white_row_7 [35; 44; 39] Hl).
Defined.

(** ** The flood fill *)

Lemma flag_get_Ok (marker : list bool) (i : Z) (m : bool) :
  0 ≤ i → marker !! Z.to_nat i = Some m → flag_get marker i = Ok m.
Proof.
  intros Hi Hm. unfold flag_get. apply lookup_lt_Some in Hm as Hlt.
  rewrite index_in_range by lia. cbn. by rewrite Hm.
Qed.

Lemma flag_set_Ok (marker : list bool) (i : Z) (v : bool) :
  0 ≤ i < Z.of_nat (length marker) →
  flag_set marker i v = Ok (<[Z.to_nat i:=v]> marker).
Proof. intros Hi. unfold flag_set. by rewrite index_in_range. Qed.

Lemma elem_of_where1d (mask : list bool) (i : Z) :
  i ∈ where1d mask ↔ 0 ≤ i ∧ mask !! Z.to_nat i = Some true.
Proof.
  unfold where1d. rewrite list_elem_of_filter, elem_of_seqZ. split.
  - intros [? ?]. split; [lia|done].
  - intros [? Hx]. split; [done|]. apply lookup_lt_Some in Hx. lia.
Qed.

Lemma unmarked_insert (marker : list bool) (k : nat) :
  marker !! k = Some false → S (unmarked (<[k:=true]> marker)) = unmarked marker.
Proof.
  unfold unmarked. revert k. induction marker as [|m marker IH]; intros k; [done|].
  destruct k as [|k]; cbn [lookup list_lookup insert list_insert].
  - intros [= ->]. rewrite filter_cons_False by done. by rewrite filter_cons_True.
  - intros Hk. destruct m.
    + rewrite !filter_cons_False by done. by apply IH.
    + rewrite !filter_cons_True by done. cbn [length]. f_equal. by apply IH.
Qed.

Lemma unmarked_replicate (n : nat) : unmarked (replicate n false) = n.
Proof.
  unfold unmarked. induction n as [|n IH]; [done|].
  cbn [replicate]. rewrite filter_cons_True by done. cbn [length]. by rewrite IH.
Qed.

(** The loop over the neighbours sets one marker for every point it pushes,
    whatever the indices are. *)
Lemma mark_neighbors_measure (nbs : list Z) :
  ∀ (marker : list bool) (stack : list Z),
    match mark_neighbors marker stack nbs with
    | Ok (marker', stack') =>
        (unmarked marker' + length stack' = unmarked marker + length stack)%nat
        ∧ (length stack ≤ length stack')%nat
        ∧ length marker' = length marker
    | Raise _ => True
    | OutOfFuel => False
    end.
Proof.
  unfold mark_neighbors.
  induction nbs as [|nb nbs IH]; intros marker stack; cbn [foldlM]; [done|].
  destruct (flag_get marker nb) as [m| |] eqn:Hget; cbn [mbind result_bind];
    [|done|]; unfold flag_get in Hget;
    (destruct (index (length marker) nb) as [k|] eqn:Hk; cbn in Hget; [|done]);
    (destruct (marker !! k) as [m'|] eqn:Hm; [|done]); [|done].
  injection Hget as ->. destruct m.
  - apply IH.
  - unfold flag_set. rewrite Hk. cbn [mbind result_bind].
    specialize (IH (<[k:=true]> marker) (nb :: stack)).
    destruct (foldlM _ _ nbs) as [[marker' stack']| |]; [|done..].
    destruct IH as (Hsum & Hlen & Hmark).
    rewrite length_insert in Hmark. cbn [length] in *.
    pose proof (unmarked_insert marker k Hm). lia.
Qed.

Lemma filterM_fuel {A : Type} (f : A → result bool) (l : list A) :
  (∀ x, f x ≠ OutOfFuel) → filterM f l ≠ OutOfFuel.
Proof.
  intros Hf. induction l as [|x l IH]; [done|]. cbn [filterM].
  pose proof (Hf x). destruct (f x); cbn [mbind result_bind]; [|done..].
  by destruct (filterM f l).
Qed.

Lemma neighbors_of_color_fuel (self : GoBoard) (p color : Z) :
  neighbors_of_color self p color ≠ OutOfFuel.
Proof.
  apply filterM_fuel. intros nb. unfold get_color.
  pose proof (array_get_fuel (board self) nb).
  by destruct (array_get (board self) nb).
Qed.

Lemma fill_fuel (self : GoBoard) (color : Z) (fuel : nat) :
  ∀ (marker : list bool) (stack : list Z),
    (2 * unmarked marker + length stack < fuel)%nat →
    fill fuel self color marker stack ≠ OutOfFuel.
Proof.
  induction fuel as [|fuel IH]; intros marker stack Hfuel; [lia|].
  cbn [fill]. destruct stack as [|p stack]; [done|].
  pose proof (neighbors_of_color_fuel self p color).
  destruct (neighbors_of_color self p color) as [nbs| |];
    cbn [mbind result_bind]; [|done..].
  pose proof (mark_neighbors_measure nbs marker stack) as Hm.
  destruct (mark_neighbors marker stack nbs) as [[marker' stack']| |];
    cbn [mbind result_bind]; [|done..].
  apply IH. cbn [length] in Hfuel. lia.
Qed.

(** The budget [fill_budget] never ends the flood fill, on any board. *)
Lemma connected_component_budget (is_black_white_empty : Z → bool)
    (self : GoBoard) (point : Z) :
  connected_component is_black_white_empty self point ≠ OutOfFuel.
Proof.
  unfold connected_component. case_bool_decide; [done|].
  unfold get_color. pose proof (array_get_fuel (board self) point).
  destruct (array_get (board self) point) as [color| |];
    cbn [mbind result_bind]; [|done..].
  destruct (is_black_white_empty color); cbn [assert mbind result_bind]; [|done].
  unfold flag_set.
  destruct (index _ point) as [k|] eqn:Hk; cbn [mbind result_bind]; [|done].
  apply fill_fuel. unfold fill_budget.
  assert (replicate (Z.to_nat (maxpoint self)) false !! k = Some false) as Hfalse.
  { apply lookup_replicate_2. unfold index in Hk.
    rewrite length_replicate in Hk. repeat case_bool_decide; [| |done];
      injection Hk as <-; lia. }
  pose proof (unmarked_insert _ _ Hfalse) as Hun.
  rewrite unmarked_replicate in Hun. cbn [length]. lia.
Qed.

Lemma playable_slot (b : GoBoard) (q : Z) :
  padded b → playable b q → 0 ≤ q < Z.of_nat (length (board b)).
Proof.
  intros Hp (row & col & [Hr Hc] & ->). rewrite (padded_length _ Hp).
  split; [apply pt_nonneg|apply pt_lt_maxpoint]; (done || lia).
Qed.

Lemma neighbors_of_color_padded (b : GoBoard) (p color : Z) :
  padded b → playable b p →
  ∃ nbc, neighbors_of_color b p color = Ok nbc
         ∧ ∀ q, q ∈ nbc ↔ q ∈ _neighbors b p ∧ get_color b q = Ok color.
Proof.
  intros Hp (row & col & Hon & ->).
  assert (∀ q, q ∈ _neighbors b (pt b row col) → ∃ x, get_color b q = Ok x) as Hnb.
  { intros q Hq.
    destruct (neighbors_near b (pt b row col) q) as (dr & dc & Hdr & Hdc & ->);
      [apply elem_of_app; by left|].
    destruct (near_cell b row col dr dc Hp Hon Hdr Hdc) as (_ & x & Hx & _). eauto. }
  pose (g := λ q, match get_color b q with
                  | Ok c => bool_decide (c = color) | _ => false end).
  exists (filter (λ q, g q = true) (_neighbors b (pt b row col))). split.
  - unfold neighbors_of_color. apply filterM_Ok. intros q Hq. unfold g.
    by destruct (Hnb q Hq) as [x ->].
  - intros q. rewrite list_elem_of_filter. unfold g. split.
    + intros [Hg Hq]. split; [done|]. destruct (Hnb q Hq) as [x Hx].
      rewrite Hx in *. by apply bool_decide_eq_true_1 in Hg as ->.
    + intros [Hq ->]. split; [|done]. by apply bool_decide_eq_true_2.
Qed.

(** A neighbour of a playable point that holds a colour other than BORDER is
    playable. *)
Lemma neighbor_playable (b : GoBoard) (q r color : Z) :
  padded b → playable b q → r ∈ _neighbors b q →
  get_color b r = Ok color → color ≠ BORDER → playable b r.
Proof.
  intros Hp (row & col & Hon & ->) Hr Hget Hcol.
  destruct (neighbors_near b (pt b row col) r) as (dr & dc & Hdr & Hdc & ->);
    [apply elem_of_app; by left|].
  destruct (near_cell b row col dr dc Hp Hon Hdr Hdc) as (_ & x & Hx & Hb).
  rewrite Hget in Hx. injection Hx as <-.
  destruct (decide (on_board (size b) (row + dr) (col + dc))) as [Hin|Hout].
  - exists (row + dr), (col + dc). split; [done|apply pt_step].
  - by apply Hb in Hout.
Qed.

Lemma connected_playable (b : GoBoard) (color p q : Z) :
  padded b → playable b p → get_color b p = Ok color → color ≠ BORDER →
  connected b color p q → playable b q ∧ get_color b q = Ok color.
Proof.
  intros Hp Hplay Hget Hcol. induction 1 as [|q r _ [IH _] Hr Hx]; [done|].
  split; [by eapply neighbor_playable|done].
Qed.

(** The loop over neighbours that are slots of the marker: it sets the
    marker of every neighbour and pushes those whose marker was not set. *)
Lemma mark_neighbors_spec (nbs : list Z) :
  ∀ (marker : list bool) (stack : list Z),
    (∀ nb, nb ∈ nbs → 0 ≤ nb < Z.of_nat (length marker)) →
    ∃ marker' stack',
      mark_neighbors marker stack nbs = Ok (marker', stack')
      ∧ (∀ q, 0 ≤ q →
           (marker' !! Z.to_nat q = Some true
            ↔ marker !! Z.to_nat q = Some true ∨ q ∈ nbs))
      ∧ (∀ q, q ∈ stack' → q ∈ stack ∨ q ∈ nbs)
      ∧ (∀ q, q ∈ stack → q ∈ stack')
      ∧ (∀ q, q ∈ nbs → marker !! Z.to_nat q ≠ Some true → q ∈ stack').
Proof.
  unfold mark_neighbors.
  induction nbs as [|nb nbs IH]; intros marker stack Hnbs; cbn [foldlM].
  { exists marker, stack. split_and!; [done| |by left|done|].
    - intros q _. rewrite elem_of_nil. tauto.
    - by intros q ?%elem_of_nil. }
  assert (0 ≤ nb < Z.of_nat (length marker)) as Hnb by (apply Hnbs; by left).
  destruct (lookup_lt_is_Some_2 marker (Z.to_nat nb) ltac:(lia)) as [m Hm].
  rewrite (flag_get_Ok marker nb m) by (done || lia). cbn [mbind result_bind].
  destruct m.
  - destruct (IH marker stack) as (marker' & stack' & Heq & Hmark & Hin & Hkeep & Hpush).
    { intros; apply Hnbs; by right. }
    exists marker', stack'. split_and!; [exact Heq| | |done|].
    + intros q Hq. rewrite (Hmark q Hq), elem_of_cons. split; [tauto|].
      intros [?|[->|?]]; tauto.
    + intros q [?|?]%Hin; [by left|right; by right].
    + intros q [->|Hq]%elem_of_cons Hno; [done|by apply Hpush].
  - rewrite flag_set_Ok by done. cbn [mbind result_bind].
    destruct (IH (<[Z.to_nat nb:=true]> marker) (nb :: stack))
      as (marker' & stack' & Heq & Hmark & Hin & Hkeep & Hpush).
    { intros. rewrite length_insert. apply Hnbs. by right. }
    assert (∀ q, 0 ≤ q →
              (<[Z.to_nat nb:=true]> marker !! Z.to_nat q = Some true
               ↔ marker !! Z.to_nat q = Some true ∨ q = nb)) as Hins.
    { intros q Hq. destruct (decide (q = nb)) as [->|Hne].
      - rewrite list_lookup_insert_eq by lia. tauto.
      - rewrite list_lookup_insert_ne by lia. split; [tauto|].
        by intros [?|?]. }
    exists marker', stack'. split_and!; [exact Heq| | | |].
    + intros q Hq. rewrite (Hmark q Hq), (Hins q Hq), elem_of_cons. tauto.
    + intros q [[->|?]%elem_of_cons|?]%Hin;
        [right; by left|by left|right; by right].
    + intros q Hq. apply Hkeep. by right.
    + intros q [->|Hq]%elem_of_cons Hno; [apply Hkeep; by left|].
      destruct (decide (q = nb)) as [->|Hne]; [apply Hkeep; by left|].
      apply Hpush; [done|]. rewrite list_lookup_insert_ne; [done|].
      assert (0 ≤ q) by (apply Hnbs; by right). lia.
Qed.

Section Fill.

Variables (b : GoBoard) (color point : Z).
Hypothesis Hp : padded b.
Hypothesis Hpoint : playable b point.
Hypothesis Hget : get_color b point = Ok color.
Hypothesis Hcol : color ≠ BORDER.

(** What the loop of the flood fill keeps: the markers set are those of
    points joined to [point], the points of the stack have their marker set,
    and every neighbour of the colour of a marked point that is no longer on
    the stack is marked. *)
Lemma fill_spec (fuel : nat) :
  ∀ (marker : list bool) (stack : list Z),
    length marker = length (board b) →
    marker !! Z.to_nat point = Some true →
    (∀ q, 0 ≤ q → marker !! Z.to_nat q = Some true → connected b color point q) →
    (∀ q, q ∈ stack → 0 ≤ q ∧ marker !! Z.to_nat q = Some true) →
    (∀ q r, 0 ≤ q → marker !! Z.to_nat q = Some true → q ∉ stack →
            r ∈ _neighbors b q → get_color b r = Ok color →
            marker !! Z.to_nat r = Some true) →
    (2 * unmarked marker + length stack < fuel)%nat →
    ∃ marker',
      fill fuel b color marker stack = Ok marker'
      ∧ length marker' = length (board b)
      ∧ ∀ q, 0 ≤ q →
          (marker' !! Z.to_nat q = Some true ↔ connected b color point q).
Proof.
  induction fuel as [|fuel IH];
    intros marker stack Hlen Hstart Hsound Hstack Hclosed Hfuel; [lia|].
  cbn [fill]. destruct stack as [|p stack].
  { exists marker. split_and!; [done..|]. intros q Hq. split; [by apply Hsound|].
    intros Hc. clear Hq. induction Hc as [|q r Hc IHc Hr Hx]; [done|].
    destruct (connected_playable b color point q Hp Hpoint Hget Hcol Hc)
      as [Hq%(playable_slot b q Hp) _].
    apply (Hclosed q r); [lia|done|by intros ?%elem_of_nil|done..]. }
  destruct (Hstack p) as [Hp0 Hpm]; [by left|].
  pose proof (Hsound p Hp0 Hpm) as Hcp.
  destruct (connected_playable b color point p Hp Hpoint Hget Hcol Hcp)
    as [Hplay _].
  destruct (neighbors_of_color_padded b p color Hp Hplay) as (nbs & -> & Hnbs).
  cbn [mbind result_bind].
  assert (∀ nb, nb ∈ nbs → playable b nb) as Hnbplay.
  { intros nb [Hnb Hx]%Hnbs. by eapply neighbor_playable. }
  destruct (mark_neighbors_spec nbs marker stack)
    as (marker' & stack' & Hmn & Hmark & Hin & Hkeep & Hpush).
  { intros nb Hnb%Hnbplay%(playable_slot b nb Hp). lia. }
  pose proof (mark_neighbors_measure nbs marker stack) as Hmeasure.
  rewrite Hmn in Hmeasure. destruct Hmeasure as (Hsum & Hgrow & Hlen').
  rewrite Hmn. cbn [mbind result_bind].
  apply IH.
  - congruence.
  - apply Hmark; [pose proof (playable_slot b point Hp Hpoint); lia|by left].
  - intros q Hq Hqm. apply (Hmark q Hq) in Hqm as [Hold|Hnew]; [by apply Hsound|].
    apply Hnbs in Hnew as [Hnb Hx]. by eapply connected_next.
  - intros q [Hq|Hq]%Hin.
    + destruct (Hstack q) as [? ?]; [by right|]. split; [done|].
      apply Hmark; [done|by left].
    + pose proof (playable_slot b q Hp (Hnbplay q Hq)). split; [lia|].
      apply Hmark; [lia|by right].
  - intros q r Hq Hqm Hnot Hr Hx.
    assert (0 ≤ r) as Hr0.
    { destruct (decide (marker !! Z.to_nat q = Some true)) as [Hold|Hnew].
      - destruct (connected_playable b color point q Hp Hpoint Hget Hcol
                    (Hsound q Hq Hold)) as [Hqp _].
        pose proof (neighbor_playable b q r color Hp Hqp Hr Hx Hcol) as Hrp.
        apply (playable_slot b r Hp) in Hrp. lia.
      - apply (Hmark q Hq) in Hqm as [?|Hqn]; [done|].
        pose proof (neighbor_playable b q r color Hp (Hnbplay q Hqn) Hr Hx Hcol)
          as Hrp.
        apply (playable_slot b r Hp) in Hrp. lia. }
    apply Hmark; [done|].
    destruct (decide (marker !! Z.to_nat q = Some true)) as [Hold|Hnew].
    + destruct (decide (q = p)) as [->|Hne].
      * right. apply Hnbs. by split.
      * left. apply (Hclosed q r); [done|done| |done|done].
        intros [?|Hq']%elem_of_cons; [done|]. by apply Hnot, Hkeep.
    + apply (Hmark q Hq) in Hqm as [?|Hqn]; [done|].
      destruct Hnot. by apply Hpush.
  - cbn [length] in Hfuel. lia.
Qed.

End Fill.

Lemma padded_maxpoint_nonneg (b : GoBoard) : padded b → 0 ≤ maxpoint b.
Proof. intros [Hs _ Hm _ _]. rewrite Hm. nia. Qed.

(** The flood fill from a playable point whose colour passes the assertion:
    the markers set are those of the points joined to it. *)
Lemma connected_component_padded (is_black_white_empty : Z → bool)
    (b : GoBoard) (point color : Z) :
  padded b → playable b point → get_color b point = Ok color →
  color ≠ BORDER → is_black_white_empty color = true →
  ∃ marker,
    connected_component is_black_white_empty b point = Ok marker
    ∧ Z.of_nat (length marker) = maxpoint b
    ∧ ∀ q, q ∈ where1d marker ↔ connected b color point q.
Proof.
  intros Hp Hpoint Hget Hcol Hassert. unfold connected_component.
  pose proof (padded_maxpoint_nonneg b Hp) as Hmax.
  pose proof (playable_slot b point Hp Hpoint) as Hslot.
  pose proof (padded_length b Hp) as Hlen.
  rewrite bool_decide_eq_false_2 by lia. rewrite Hget. cbn [mbind result_bind].
  rewrite Hassert. cbn [assert mbind result_bind].
  rewrite flag_set_Ok by (rewrite length_replicate; lia). cbn [mbind result_bind].
  set (n := Z.to_nat (maxpoint b)).
  assert (replicate n false !! Z.to_nat point = Some false) as Hfalse
    by (apply lookup_replicate_2; lia).
  destruct (fill_spec b color point Hp Hpoint Hget Hcol (fill_budget b)
              (<[Z.to_nat point:=true]> (replicate n false)) [point])
    as (marker & -> & Hlm & Hmark).
  - rewrite length_insert, length_replicate. lia.
  - apply list_lookup_insert_eq. rewrite length_replicate. lia.
  - intros q Hq Hqm. destruct (decide (q = point)) as [->|Hne]; [constructor|].
    rewrite list_lookup_insert_ne in Hqm by lia.
    by apply lookup_replicate in Hqm as [? _].
  - intros q ->%list_elem_of_singleton. split; [lia|].
    apply list_lookup_insert_eq. rewrite length_replicate. lia.
  - intros q r Hq Hqm Hnot. destruct (decide (q = point)) as [->|Hne].
    + destruct Hnot. by left.
    + rewrite list_lookup_insert_ne in Hqm by lia.
      by apply lookup_replicate in Hqm as [? _].
  - pose proof (unmarked_insert _ _ Hfalse) as Hun.
    rewrite unmarked_replicate in Hun. unfold fill_budget. fold n. cbn [length]. lia.
  - exists marker. split_and!; [done|lia|].
    intros q. rewrite elem_of_where1d. split.
    + intros [Hq Hqm]. by apply Hmark.
    + intros Hc.
      destruct (connected_playable b color point q Hp Hpoint Hget Hcol Hc)
        as [Hq%(playable_slot b q Hp) _].
      split; [lia|]. apply Hmark; [lia|done].
Qed.

(** X18.  On every board the program can hold, [connected_component] of a
    playable point reads the colour of the point and, when the colour passes
    the assertion, returns a marker with one slot for every slot of the
    board: the indices at which it is set are the points joined to the point
    by a chain of neighbours that all hold its colour, all of them playable
    points of that colour.  When the colour fails the assertion the call
    raises [AssertionError]. *)
Theorem flood_fill_marks_component (MAXSIZE : Z) (is_black_white_empty : Z → bool)
    (b : GoBoard) (point : Z) :
  reachable MAXSIZE b → playable b point →
  ∃ color,
    get_color b point = Ok color
    ∧ (is_black_white_empty color = false →
       connected_component is_black_white_empty b point = Raise AssertionError)
    ∧ (is_black_white_empty color = true →
       ∃ marker,
         connected_component is_black_white_empty b point = Ok marker
         ∧ Z.of_nat (length marker) = maxpoint b
         ∧ (∀ q, q ∈ where1d marker ↔ connected b color point q)
         ∧ (∀ q, q ∈ where1d marker → playable b q ∧ get_color b q = Ok color)).
Proof.
  intros [_ Hp _ _]%reachable_invariant Hpoint.
  destruct (get_color_playable b point Hp Hpoint) as [Hget Hcol].
  exists (cell b point). split_and!; [done| |].
  - intros Hno. unfold connected_component.
    pose proof (padded_maxpoint_nonneg b Hp).
    rewrite bool_decide_eq_false_2 by lia. rewrite Hget. cbn [mbind result_bind].
    by rewrite Hno.
  - intros Hyes.
    destruct (connected_component_padded is_black_white_empty b point
                (cell b point) Hp Hpoint Hget Hcol Hyes) as (marker & Hcc & Hlen & Hmark).
    exists marker. split_and!; [done..|].
    intros q Hq%Hmark. by eapply connected_playable.
Qed.

Lemma flood_fill_marks_component_witness :
  reachable 25 black_row_5 ∧ playable black_row_5 7
  ∧ ∃ color,
      get_color black_row_5 7 = Ok color
      ∧ (black_white_or_empty color = false →
         connected_component black_white_or_empty black_row_5 7
         = Raise AssertionError)
      ∧ (black_white_or_empty color = true →
         ∃ marker,
           connected_component black_white_or_empty black_row_5 7 = Ok marker
           ∧ Z.of_nat (length marker) = maxpoint black_row_5
           ∧ (∀ q, q ∈ where1d marker ↔ connected black_row_5 color 7 q)
           ∧ (∀ q, q ∈ where1d marker →
                playable black_row_5 q ∧ get_color black_row_5 q = Ok color)).
Proof.
  assert (playable black_row_5 7) as Hplay.
  { exists 1, 1. split; [vm_compute; intuition discriminate|reflexivity]. }
  split; [exact black_row_5_reachable|]. split; [exact Hplay|].
  apply (flood_fill_marks_component 25 black_white_or_empty black_row_5 7
           black_row_5_reachable Hplay).
Defined.

(** ** Liberties and captures *)

Lemma liberty_loop_spec (b : GoBoard) (stones : list Z) :
  padded b → (∀ q, q ∈ stones → playable b q) →
  ∃ liberty,
    liberty_loop b stones = Ok liberty
    ∧ (liberty = true
       ↔ ∃ stone nb, stone ∈ stones ∧ nb ∈ _neighbors b stone
                      ∧ get_color b nb = Ok EMPTY).
Proof.
  intros Hp. induction stones as [|stone rest IH]; intros Hplay; cbn [liberty_loop].
  { exists false. split; [done|]. split; [done|]. by intros (? & ? & ?%elem_of_nil & _). }
  destruct (neighbors_of_color_padded b stone EMPTY Hp) as (nbc & -> & Hnbc);
    [apply Hplay; by left|].
  cbn [mbind result_bind]. case_bool_decide as Hne.
  - exists true. split; [done|]. split; [|done]. intros _.
    destruct nbc as [|nb nbc]; [done|].
    destruct (Hnbc nb) as [[Hnb Hx] _]; [by left|].
    exists stone, nb. split_and!; [by left|done..].
  - destruct IH as (liberty & -> & Hl); [intros; apply Hplay; by right|].
    exists liberty. split; [done|]. rewrite Hl. split.
    + intros (s & nb & Hs & Hnb & Hx). exists s, nb. split_and!; [by right|done..].
    + intros (s & nb & [->|Hs]%elem_of_cons & Hnb & Hx); [|by exists s, nb].
      subst nbc. exfalso. apply (elem_of_nil nb). by apply Hnbc.
Qed.

Lemma NoDup_where1d (mask : list bool) : NoDup (where1d mask).
Proof. unfold where1d. apply NoDup_filter, NoDup_seqZ. Qed.

Lemma array_set_Ok (arr : list Z) (i v : Z) :
  0 ≤ i < Z.of_nat (length arr) → array_set arr i v = Ok (<[Z.to_nat i:=v]> arr).
Proof. intros Hi. unfold array_set. by rewrite index_in_range. Qed.

(** Writing EMPTY at indices that are slots of the array. *)
Lemma clear_points (l : list Z) :
  ∀ (bd : list Z),
    (∀ i, i ∈ l → 0 ≤ i < Z.of_nat (length bd)) →
    ∃ bd',
      foldlM (λ bd i, array_set bd i EMPTY) bd l = Ok bd'
      ∧ length bd' = length bd
      ∧ ∀ q, 0 ≤ q →
          bd' !! Z.to_nat q
          = if decide (q ∈ l ∧ q < Z.of_nat (length bd)) then Some EMPTY
            else bd !! Z.to_nat q.
Proof.
  induction l as [|i l IH]; intros bd Hl; cbn [foldlM].
  { exists bd. split_and!; [done..|]. intros q _.
    rewrite decide_False; [done|]. by intros [?%elem_of_nil _]. }
  assert (0 ≤ i < Z.of_nat (length bd)) as Hi by (apply Hl; by left).
  rewrite array_set_Ok by done. cbn [mbind result_bind].
  destruct (IH (<[Z.to_nat i:=EMPTY]> bd)) as (bd' & -> & Hlen & Hbd').
  { intros j Hj. rewrite length_insert. apply Hl. by right. }
  rewrite length_insert in Hlen, Hbd'.
  exists bd'. split_and!; [done..|]. intros q Hq. rewrite (Hbd' q Hq).
  destruct (decide (q ∈ l ∧ q < Z.of_nat (length bd))) as [[Hin Hlt]|Hout].
  - rewrite decide_True; [done|]. split; [by right|done].
  - destruct (decide (q = i)) as [->|Hne].
    + rewrite decide_True by (split; [by left|lia]).
      apply list_lookup_insert_eq. lia.
    + rewrite list_lookup_insert_ne by lia.
      rewrite decide_False; [done|].
      intros [[?|?]%elem_of_cons ?]; [done|]. by destruct Hout.
Qed.

Lemma block_of_padded (is_black_white_empty : Z → bool)
    (b : GoBoard) (stone color : Z) :
  padded b → playable b stone → get_color b stone = Ok color →
  is_black_white color = true → is_black_white_empty color = true →
  ∃ block liberty,
    _block_of is_black_white_empty b stone = Ok block
    ∧ Z.of_nat (length block) = maxpoint b
    ∧ (∀ q, q ∈ where1d block ↔ connected b color stone q)
    ∧ (∀ q, q ∈ where1d block → playable b q)
    ∧ _has_liberty b block = Ok liberty
    ∧ (liberty = true
       ↔ ∃ q nb, connected b color stone q ∧ nb ∈ _neighbors b q
                  ∧ get_color b nb = Ok EMPTY).
Proof.
  intros Hp Hplay Hget Hstone Hassert.
  assert (color ≠ BORDER) as Hcol.
  { intros ->. by vm_compute in Hstone. }
  destruct (connected_component_padded is_black_white_empty b stone color
              Hp Hplay Hget Hcol Hassert) as (block & Hcc & Hlen & Hmark).
  assert (∀ q, q ∈ where1d block → playable b q) as Hblock.
  { intros q Hq%Hmark. by eapply connected_playable. }
  destruct (liberty_loop_spec b (where1d block) Hp Hblock) as (liberty & Hlib & Hl).
  exists block, liberty. unfold _block_of. rewrite Hget. cbn [mbind result_bind].
  rewrite Hstone. cbn [assert mbind result_bind].
  split_and!; [done..|]. rewrite Hl. split.
  - intros (q & nb & Hq%Hmark & ?). by exists q, nb.
  - intros (q & nb & Hq%Hmark & ?). by exists q, nb.
Qed.

(** X19.  On every board the program can hold, [_block_of] of a playable
    point that holds a stone returns the marker of the block of the stone,
    the stones of its colour joined to it, and [_has_liberty] of that marker
    returns [True] exactly when some neighbour of some stone of the block is
    EMPTY. *)
Theorem block_has_liberty (MAXSIZE : Z) (is_black_white_empty : Z → bool)
    (b : GoBoard) (stone color : Z) :
  reachable MAXSIZE b → playable b stone → get_color b stone = Ok color →
  is_black_white color = true → is_black_white_empty color = true →
  ∃ block liberty,
    _block_of is_black_white_empty b stone = Ok block
    ∧ (∀ q, q ∈ where1d block ↔ connected b color stone q)
    ∧ _has_liberty b block = Ok liberty
    ∧ (liberty = true
       ↔ ∃ q nb, connected b color stone q ∧ nb ∈ _neighbors b q
                  ∧ get_color b nb = Ok EMPTY).
Proof.
  intros [_ Hp _ _]%reachable_invariant Hplay Hget Hstone Hassert.
  destruct (block_of_padded is_black_white_empty b stone color
              Hp Hplay Hget Hstone Hassert)
    as (block & liberty & ? & _ & ? & _ & ? & ?).
  by exists block, liberty.
Qed.

Lemma block_has_liberty_witness :
  reachable 25 black_row_5 ∧ playable black_row_5 7
  ∧ get_color black_row_5 7 = Ok BLACK
  ∧ is_black_white BLACK = true ∧ black_white_or_empty BLACK = true
  ∧ ∃ block liberty,
      _block_of black_white_or_empty black_row_5 7 = Ok block
      ∧ (∀ q, q ∈ where1d block ↔ connected black_row_5 BLACK 7 q)
      ∧ _has_liberty black_row_5 block = Ok liberty
      ∧ (liberty = true
         ↔ ∃ q nb, connected black_row_5 BLACK 7 q ∧ nb ∈ _neighbors black_row_5 q
                    ∧ get_color black_row_5 nb = Ok EMPTY).
Proof.
  assert (playable black_row_5 7) as Hplay.
  { exists 1, 1. split; [vm_compute; intuition discriminate|reflexivity]. }
  assert (get_color black_row_5 7 = Ok BLACK) as Hget by (vm_compute; reflexivity).
  assert (is_black_white BLACK = true) as Hstone by reflexivity.
  assert (black_white_or_empty BLACK = true) as Hassert by reflexivity.
  split; [exact black_row_5_reachable|]. split; [exact Hplay|].
  split; [exact Hget|]. split; [exact Hstone|]. split; [exact Hassert|].
  apply (block_has_liberty 25 black_white_or_empty black_row_5 7 BLACK
           black_row_5_reachable Hplay Hget Hstone Hassert).
Defined.

Lemma NoDup_alone (l : list Z) (x : Z) :
  NoDup l → x ∈ l →
  (length l = 1%nat ∧ ∀ q, q ∈ l → q = x)
  ∨ (length l ≠ 1%nat ∧ ∃ q, q ∈ l ∧ q ≠ x).
Proof.
  intros Hnd Hx. destruct l as [|y [|z l]].
  - by apply elem_of_nil in Hx.
  - left. apply list_elem_of_singleton in Hx as ->.
    split; [done|]. by intros q ->%list_elem_of_singleton.
  - right. split; [done|].
    assert (y ≠ z) as Hyz.
    { apply NoDup_cons in Hnd as [Hy _]. intros ->. apply Hy. by left. }
    destruct (decide (y = x)) as [->|Hne].
    + exists z. split; [right; by left|done].
    + exists y. split; [by left|done].
Qed.

(** X20.  On every board the program can hold, [_detect_and_process_capture]
    of a playable point that holds a stone returns.  When the block of the
    stone has a liberty the board is left as it was and the answer is
    [None].  When it has none, every point of the block is EMPTY afterwards,
    every other slot of the array and every other attribute are unchanged,
    the padding still holds, and the answer is the point when the block is
    that stone alone and [None] when the block has more stones. *)
Theorem capture_removes_block (MAXSIZE : Z) (is_black_white_empty : Z → bool)
    (b : GoBoard) (stone color : Z) :
  reachable MAXSIZE b → playable b stone → get_color b stone = Ok color →
  is_black_white color = true → is_black_white_empty color = true →
  let liberty := ∃ q nb, connected b color stone q ∧ nb ∈ _neighbors b q
                         ∧ get_color b nb = Ok EMPTY in
  ∃ single b',
    _detect_and_process_capture is_black_white_empty b stone = Ok (single, b')
    ∧ (liberty → single = None ∧ b' = b)
    ∧ (¬ liberty →
       b' = set_board b (board b')
       ∧ padded b'
       ∧ (∀ q, connected b color stone q → get_color b' q = Ok EMPTY)
       ∧ (∀ q, 0 ≤ q → ¬ connected b color stone q →
            board b' !! Z.to_nat q = board b !! Z.to_nat q)
       ∧ ((single = Some stone ∧ ∀ q, connected b color stone q → q = stone)
          ∨ (single = None ∧ ∃ q, connected b color stone q ∧ q ≠ stone))).
Proof.
  intros [_ Hp _ _]%reachable_invariant Hplay Hget Hstone Hassert liberty.
  assert (color ≠ BORDER) as Hcol.
  { intros ->. by vm_compute in Hstone. }
  destruct (block_of_padded is_black_white_empty b stone color
              Hp Hplay Hget Hstone Hassert)
    as (block & lib & Hblock & Hlen & Hmark & Hplayable & Hlib & Hl).
  unfold _detect_and_process_capture. rewrite Hblock. cbn [mbind result_bind].
  rewrite Hlib. cbn [mbind result_bind].
  destruct lib; cbn [negb].
  { exists None, b. split_and!; [done|done|]. intros Hno. destruct Hno. by apply Hl. }
  assert (¬ liberty) as Hnone by (intros Hyes; by apply Hl in Hyes).
  destruct (clear_points (where1d block) (board b)) as (bd & -> & Hbdlen & Hbd).
  { intros i Hi%Hplayable. by apply playable_slot. }
  cbn [mbind result_bind].
  assert (∀ q, connected b color stone q → 0 ≤ q < Z.of_nat (length (board b)))
    as Hslot.
  { intros q Hq. apply playable_slot; [done|]. by eapply connected_playable. }
  assert (∀ q, connected b color stone q → bd !! Z.to_nat q = Some EMPTY) as Hclear.
  { intros q Hq. pose proof (Hslot q Hq). rewrite Hbd by lia.
    rewrite decide_True; [done|]. split; [by apply Hmark|lia]. }
  assert (∀ q, 0 ≤ q → ¬ connected b color stone q →
            bd !! Z.to_nat q = board b !! Z.to_nat q) as Hkeep.
  { intros q Hq Hno. rewrite Hbd by done. rewrite decide_False; [done|].
    intros [Hin%Hmark _]. done. }
  eexists _, (set_board b bd). split_and!; [done|done|]. intros _.
  split_and!; [done| |..].
  - destruct Hp as [Hs HNS Hm Hlenb Hcell].
    constructor; cbn; [done|done|done|by rewrite Hbdlen|].
    intros row col Hr Hc. destruct (Hcell row col Hr Hc) as (x & Hx & Hb).
    change (pt (set_board b bd) row col) with (pt b row col).
    assert (0 ≤ pt b row col) as Hpt by (unfold pt; rewrite HNS; nia).
    destruct (decide (pt b row col ∈ where1d block)) as [Hin|Hout].
    + apply Hmark in Hin. exists EMPTY. split; [by apply Hclear|].
      destruct (connected_playable b color stone (pt b row col)
                  (mkPadded b Hs HNS Hm Hlenb Hcell) Hplay Hget Hcol Hin)
        as [_ Hgetq].
      unfold get_color in Hgetq.
      rewrite (array_get_Ok (board b) (pt b row col) x Hpt Hx) in Hgetq.
      injection Hgetq as ->. split; [done|]. intros Hoff. by apply Hb in Hoff.
    + exists x. split; [|done]. rewrite Hkeep; [done|done|].
      intros Hin. by apply Hout, Hmark.
  - intros q Hq. unfold get_color. cbn [board set_board].
    apply array_get_Ok; [apply (Hslot q Hq)|by apply Hclear].
  - intros q Hq Hno. cbn [board set_board]. by apply Hkeep.
  - destruct (NoDup_alone (where1d block) stone (NoDup_where1d block))
      as [[Hone Hall]|[Hmore (q & Hq & Hne)]].
    + apply Hmark. constructor.
    + left. rewrite bool_decide_eq_true_2 by done. split; [done|].
      intros q Hq. by apply Hall, Hmark.
    + right. rewrite bool_decide_eq_false_2 by done. split; [done|].
      exists q. split; [by apply Hmark|done].
Qed.

Lemma white_corner_5_reachable : reachable 25 white_corner_5.
Proof.
  apply (reachable_play_moves 25
           [(Some 7, WHITE); (Some 8, BLACK); (Some 13, BLACK)] empty_5);
    [exact empty_5_reachable|vm_compute; reflexivity].
Qed.

Lemma capture_removes_block_witness :
  reachable 25 white_corner_5 ∧ playable white_corner_5 7
  ∧ get_color white_corner_5 7 = Ok WHITE
  ∧ is_black_white WHITE = true ∧ black_white_or_empty WHITE = true
  ∧ ∃ single b',
      _detect_and_process_capture black_white_or_empty white_corner_5 7
      = Ok (single, b')
      ∧ ((∃ q nb, connected white_corner_5 WHITE 7 q
                  ∧ nb ∈ _neighbors white_corner_5 q
                  ∧ get_color white_corner_5 nb = Ok EMPTY) →
         single = None ∧ b' = white_corner_5)
      ∧ (¬ (∃ q nb, connected white_corner_5 WHITE 7 q
                    ∧ nb ∈ _neighbors white_corner_5 q
                    ∧ get_color white_corner_5 nb = Ok EMPTY) →
         b' = set_board white_corner_5 (board b')
         ∧ padded b'
         ∧ (∀ q, connected white_corner_5 WHITE 7 q → get_color b' q = Ok EMPTY)
         ∧ (∀ q, 0 ≤ q → ¬ connected white_corner_5 WHITE 7 q →
              board b' !! Z.to_nat q = board white_corner_5 !! Z.to_nat q)
         ∧ ((single = Some 7 ∧ ∀ q, connected white_corner_5 WHITE 7 q → q = 7)
            ∨ (single = None
               ∧ ∃ q, connected white_corner_5 WHITE 7 q ∧ q ≠ 7))).
Proof.
  assert (playable white_corner_5 7) as Hplay.
  { exists 1, 1. split; [vm_compute; intuition discriminate|reflexivity]. }
  assert (get_color white_corner_5 7 = Ok WHITE) as Hget by (vm_compute; reflexivity).
  assert (is_black_white WHITE = true) as Hstone by reflexivity.
  assert (black_white_or_empty WHITE = true) as Hassert by reflexivity.
  split; [exact white_corner_5_reachable|]. split; [exact Hplay|].
  split; [exact Hget|]. split; [exact Hstone|]. split; [exact Hassert|].
  apply (capture_removes_block 25 black_white_or_empty white_corner_5 7 WHITE
           white_corner_5_reachable Hplay Hget Hstone Hassert).
Defined.
